(** * Persistent terminal session engine: a shallow embedding

    The development follows the desktop application's terminal core:

    - [Sanitizer]  : shared/terminal-scrollback-sanitizer.ts
    - [Lifecycle]  : main/lib/terminal/persistence/session-lifecycle.ts
    - [Scheduler]  : the renderer's attach scheduler
    - [Manager]    : main/lib/terminal/manager.ts and session.ts

    JavaScript strings are sequences of UTF-16 code units and are modelled
    as [list N].  Asynchronous functions are split at each [await] into the
    code segments that run without interruption; what the outside world
    answers at an [await] is an input of the model. *)

From Stdlib Require Import ZArith NArith Lia List Bool Ascii String.
From stdpp Require Import gmap strings list.

Local Open Scope nat_scope.

(** ** Scrollback sanitizer *)
Module Sanitizer.

(** A UTF-16 code unit. *)
Definition char := N.

Definition code (a : ascii) : char := N_of_ascii a.
Arguments code a%_char.

(** Code units of an ASCII literal. *)
Fixpoint str (s : string) : list char :=
  match s with
  | EmptyString => []
  | String a s' => code a :: str s'
  end.

(** The regular expressions used by the sanitizer: literals, classes, the
    anchors [^] and [$] (no [m] flag), sequence, alternation, greedy bounded
    and unbounded repetition, the capture group and positive lookahead. *)
Inductive regex :=
| Chr (c : char)
| Cls (p : char -> bool)
| Bol
| Eol
| Eps
| Seq (r1 r2 : regex)
| Alt (r1 r2 : regex)
| Rep (r : regex) (lo : nat) (hi : option nat)
| Grp (r : regex)
| Ahead (r : regex).

(** State of the backtracking matcher: index into the subject, the
    text that is left, and the text captured by group 1. *)
Record mstate := MState {
  pos : nat;
  rest : list char;
  cap : option (list char)
}.

Definition eat (s : mstate) (tl : list char) : mstate :=
  {| pos := S (pos s); rest := tl; cap := cap s |}.

Definition capture (s s' : mstate) : mstate :=
  {| pos := pos s'; rest := rest s';
     cap := Some (take (pos s' - pos s) (rest s)) |}.

Definition dec_hi (hi : option nat) : option nat :=
  match hi with Some h => Some (pred h) | None => None end.

Definition hi_is_zero (hi : option nat) : bool :=
  match hi with Some 0 => true | _ => false end.

(** All ways [r] matches at [s], in the order a backtracking engine tries
    them; the head of the list is the match the engine reports.  An
    iteration of a quantified atom has to consume input (every quantified
    atom of the sanitizer's patterns does), so the length of the remaining
    text bounds the number of iterations. *)
Fixpoint matches (r : regex) (s : mstate) {struct r} : list mstate :=
  match r with
  | Chr c =>
      match rest s with
      | x :: tl => if N.eqb x c then [eat s tl] else []
      | [] => []
      end
  | Cls p =>
      match rest s with
      | x :: tl => if p x then [eat s tl] else []
      | [] => []
      end
  | Bol => if Nat.eqb (pos s) 0 then [s] else []
  | Eol => match rest s with [] => [s] | _ :: _ => [] end
  | Eps => [s]
  | Seq r1 r2 => flat_map (matches r2) (matches r1 s)
  | Alt r1 r2 => matches r1 s ++ matches r2 s
  | Rep r' lo hi =>
      (fix rep (fuel lo : nat) (hi : option nat) (s : mstate)
           {struct fuel} : list mstate :=
         let stop := if Nat.eqb lo 0 then [s] else [] in
         match fuel with
         | 0 => stop
         | S fuel' =>
             (if hi_is_zero hi then []
              else flat_map
                     (fun s' =>
                        if Nat.ltb (length (rest s')) (length (rest s))
                        then rep fuel' (pred lo) (dec_hi hi) s'
                        else [])
                     (matches r' s))
             ++ stop
         end) (length (rest s)) lo hi s
  | Grp r' => map (capture s) (matches r' s)
  | Ahead r' => match matches r' s with [] => [] | _ :: _ => [s] end
  end.

Definition exec (r : regex) (p : nat) (l : list char) : option mstate :=
  head (matches r {| pos := p; rest := l; cap := None |}).

(** [String.prototype.replace] with a global pattern: matches are
    searched left to right, do not overlap, and each is replaced by
    [repl] applied to the capture.  [skip] counts the code units of the
    current match that are still to be dropped. *)
Fixpoint replace_from (r : regex) (repl : option (list char) -> list char)
    (p skip : nat) (l : list char) : list char :=
  match l with
  | [] =>
      match skip, exec r p [] with
      | 0, Some s' => repl (cap s')
      | _, _ => []
      end
  | c :: tl =>
      match skip with
      | S k => replace_from r repl (S p) k tl
      | 0 =>
          match exec r p l with
          | Some s' =>
              repl (cap s') ++
              match pos s' - p with
              | 0 => c :: replace_from r repl (S p) 0 tl
              | S k => replace_from r repl (S p) k tl
              end
          | None => c :: replace_from r repl (S p) 0 tl
          end
      end
  end.

Definition replace (r : regex) (repl : option (list char) -> list char)
    (l : list char) : list char :=
  replace_from r repl 0 0 l.

(** Replacement strings: [""] and ["$1"]. *)
Definition empty_repl (_ : option (list char)) : list char := [].

Definition group1_repl (c : option (list char)) : list char :=
  match c with Some t => t | None => [] end.

(** *** The patterns *)

Definition ESC : char := 27%N.

Definition lit (s : string) : regex :=
  fold_right (fun c r => Seq (Chr c) r) Eps (str s).

Definition one_of (s : string) (c : char) : bool :=
  existsb (N.eqb c) (str s).

(** [\d] *)
Definition digit (c : char) : bool := (N.leb 48 c && N.leb c 57)%N.

(** [[0-9;]] *)
Definition digit_or_semi (c : char) : bool := digit c || N.eqb c 59.

(** [\s]: white space and line terminators of ECMAScript. *)
Definition space (c : char) : bool :=
  (N.leb 9 c && N.leb c 13) || N.eqb c 32 || N.eqb c 160 || N.eqb c 5760
  || (N.leb 8192 c && N.leb c 8202) || N.eqb c 8232 || N.eqb c 8233
  || N.eqb c 8239 || N.eqb c 8287 || N.eqb c 12288 || N.eqb c 65279.

Definition Opt (r : regex) : regex := Rep r 0 (Some 1).
Definition Star (r : regex) : regex := Rep r 0 None.
Definition Plus (r : regex) : regex := Rep r 1 None.

Declare Scope regex_scope.
Delimit Scope regex_scope with re.
Infix "·" := Seq (at level 41, right associativity) : regex_scope.
Local Open Scope regex_scope.

(** [\[[?>]?[0-9;]*] followed by the final bytes [fin] *)
Definition csi_report (intro : regex) (fin : string) : regex :=
  intro · Opt (Cls (one_of "?>")) · Star (Cls digit_or_semi) · lit fin.

(** [<\d+(?:;\d+){2}[Mm]] after the CSI introducer *)
Definition mouse_sgr (intro : regex) : regex :=
  intro · Chr (code "<") · Plus (Cls digit)
        · Rep (Chr (code ";") · Plus (Cls digit)) 2 (Some 2)
        · Cls (one_of "Mm").

Definition CSI_RAW : regex := Chr ESC · Chr (code "[").
Definition CSI_CARET : regex := lit "^[[".

Definition DA_RESPONSE_RAW := csi_report CSI_RAW "c".
Definition CPR_RESPONSE_RAW := csi_report CSI_RAW "R".
Definition MODE_REPORT_RAW := csi_report CSI_RAW "$y".
Definition MOUSE_SGR_RAW := mouse_sgr CSI_RAW.

Definition DA_RESPONSE_CARET := csi_report CSI_CARET "c".
Definition CPR_RESPONSE_CARET := csi_report CSI_CARET "R".
Definition MODE_REPORT_CARET := csi_report CSI_CARET "$y".
Definition MOUSE_SGR_CARET := mouse_sgr CSI_CARET.

Definition digits_upto (n : nat) : regex := Rep (Cls digit) 1 (Some n).

(** [(?:\d{1,3};\d{1,3};\d{1,3}M){2,}] *)
Definition MOUSE_SGR_PAYLOAD_RUN : regex :=
  Rep (digits_upto 3 · Chr (code ";") · digits_upto 3 · Chr (code ";")
         · digits_upto 3 · Chr (code "M")) 2 None.

(** [(^|\s)[?>]?\d{1,4}(?:;\d{1,4}){1,4}c(?=$|\s)] *)
Definition DA_PAYLOAD : regex :=
  Grp (Alt Bol (Cls space)) · Opt (Cls (one_of "?>")) · digits_upto 4
    · Rep (Chr (code ";") · digits_upto 4) 1 (Some 4)
    · Chr (code "c") · Ahead (Alt Eol (Cls space)).

Definition PATTERNS : list regex :=
  [ DA_RESPONSE_RAW; DA_RESPONSE_CARET;
    CPR_RESPONSE_RAW; CPR_RESPONSE_CARET;
    MODE_REPORT_RAW; MODE_REPORT_CARET;
    MOUSE_SGR_RAW; MOUSE_SGR_CARET;
    MOUSE_SGR_PAYLOAD_RUN ].

(** [hay.includes(needle)] *)
Fixpoint starts_with (needle hay : list char) : bool :=
  match needle, hay with
  | [], _ => true
  | _ :: _, [] => false
  | a :: n', b :: h' => N.eqb a b && starts_with n' h'
  end.

Fixpoint includes (needle hay : list char) : bool :=
  starts_with needle hay ||
  match hay with
  | [] => false
  | _ :: h' => includes needle h'
  end.

(** The markers the fast path looks for. *)
Definition has_marker (data : list char) : bool :=
  includes [ESC] data || includes (str "^[") data || includes (str ";") data.

Definition sanitizeTerminalScrollback (data : list char) : list char :=
  match data with
  | [] => data
  | _ :: _ =>
      if negb (has_marker data) then data
      else
        let sanitized :=
          fold_left (fun acc pattern => replace pattern empty_repl acc)
                    PATTERNS data in
        replace DA_PAYLOAD group1_repl sanitized
  end.

(** No match of [r] starts at index [p] of the subject or later; [l] is
    the subject from [p] on. *)
Fixpoint unmatched (r : regex) (p : nat) (l : list char) : bool :=
  match exec r p l with
  | Some _ => false
  | None =>
      match l with
      | [] => true
      | _ :: tl => unmatched r (S p) tl
      end
  end.

(** None of the sanitizer's patterns matches anywhere in [data]. *)
Definition artifact_free (data : list char) : bool :=
  forallb (fun pattern => unmatched pattern 0 data) PATTERNS
  && unmatched DA_PAYLOAD 0 data.

End Sanitizer.

(** ** Session lifecycle *)
Module Lifecycle.

Inductive SessionState :=
| disconnected | connecting | connected | reconnecting | failed | closed.

Inductive TmuxError :=
| NO_SERVER | NO_SESSION | SOCKET_MISSING | TMUX_NOT_FOUND | ATTACH_FAILED.

#[global] Instance SessionState_eq_dec : EqDecision SessionState.
Proof. solve_decision. Defined.

#[global] Instance TmuxError_eq_dec : EqDecision TmuxError.
Proof. solve_decision. Defined.

Definition MAX_RETRIES : nat := 3.
Definition RETRY_DELAYS_MS : list Z := [100; 500; 1000]%Z.

(** A PTY handle returned by the backend. *)
Definition pty := nat.

(** What the instance does to the outside: the callbacks of
    [SessionLifecycleEvents], calls to the backend, calls on a PTY handle
    and timers. *)
Inductive Effect :=
| StateChange (new prev : SessionState)
| OnData (data : list N)
| OnError (e : TmuxError)
| SessionExistsCall
| AttachSessionCall (cols rows : Z)
| PtyResize (p : pty) (cols rows : Z)
| PtyWrite (p : pty) (data : list N)
| PtyKill (p : pty)
| SetTimeout (ms : Z).

#[global] Instance Effect_eq_dec : EqDecision Effect.
Proof. solve_decision. Defined.

(** An asynchronous call suspended at an [await].  [viaEnsure] tells
    whether [doAttach] runs on behalf of [ensureAttached], whose [finally]
    clears [attachPromise] when it settles. *)
Inductive Frame :=
| DoAttach_sessionExists (cols rows : Z) (viaEnsure : bool)
| DoAttach_attachSession (cols rows : Z) (viaEnsure : bool)
| OnExit_sessionExists (cols rows : Z)
| OnExit_delay (cols rows : Z) (ms : Z).

(** How the awaited promise settles.  A rejection carries the class that
    [backend.classifyError] gives the error (the backend is not part of
    this module). *)
Inductive Answer :=
| Resolved_bool (b : bool)
| Resolved_pty (p : pty)
| Rejected (e : TmuxError)
| Elapsed.

Record SessionLifecycle := {
  state : SessionState;
  ptyProcess : option pty;
  attachPromise : bool;
  retryCount : nat;
  lastDimensions : Z * Z;
  disposed : bool;
  (** suspended asynchronous frames of this instance *)
  frames : list Frame;
  (** handles on which [wireHandlers] installed [onData] and [onExit],
      with the geometry the handlers closed over *)
  wired : list (pty * (Z * Z));
  (** effects so far, oldest first *)
  trace : list Effect
}.

Definition new_SessionLifecycle : SessionLifecycle :=
  {| state := disconnected; ptyProcess := None; attachPromise := false;
     retryCount := 0; lastDimensions := (80, 24)%Z; disposed := false;
     frames := []; wired := []; trace := [] |}.

Definition set_state (v : SessionState) (l : SessionLifecycle) :=
  {| state := v; ptyProcess := ptyProcess l; attachPromise := attachPromise l;
     retryCount := retryCount l; lastDimensions := lastDimensions l;
     disposed := disposed l; frames := frames l; wired := wired l;
     trace := trace l |}.

Definition set_ptyProcess (v : option pty) (l : SessionLifecycle) :=
  {| state := state l; ptyProcess := v; attachPromise := attachPromise l;
     retryCount := retryCount l; lastDimensions := lastDimensions l;
     disposed := disposed l; frames := frames l; wired := wired l;
     trace := trace l |}.

Definition set_attachPromise (v : bool) (l : SessionLifecycle) :=
  {| state := state l; ptyProcess := ptyProcess l; attachPromise := v;
     retryCount := retryCount l; lastDimensions := lastDimensions l;
     disposed := disposed l; frames := frames l; wired := wired l;
     trace := trace l |}.

Definition set_retryCount (v : nat) (l : SessionLifecycle) :=
  {| state := state l; ptyProcess := ptyProcess l;
     attachPromise := attachPromise l;
     retryCount := v; lastDimensions := lastDimensions l;
     disposed := disposed l; frames := frames l; wired := wired l;
     trace := trace l |}.

Definition set_lastDimensions (v : Z * Z) (l : SessionLifecycle) :=
  {| state := state l; ptyProcess := ptyProcess l;
     attachPromise := attachPromise l;
     retryCount := retryCount l; lastDimensions := v;
     disposed := disposed l; frames := frames l; wired := wired l;
     trace := trace l |}.

Definition set_disposed (v : bool) (l : SessionLifecycle) :=
  {| state := state l; ptyProcess := ptyProcess l;
     attachPromise := attachPromise l;
     retryCount := retryCount l; lastDimensions := lastDimensions l;
     disposed := v; frames := frames l; wired := wired l;
     trace := trace l |}.

Definition set_frames (v : list Frame) (l : SessionLifecycle) :=
  {| state := state l; ptyProcess := ptyProcess l;
     attachPromise := attachPromise l;
     retryCount := retryCount l; lastDimensions := lastDimensions l;
     disposed := disposed l; frames := v; wired := wired l;
     trace := trace l |}.

Definition set_wired (v : list (pty * (Z * Z))) (l : SessionLifecycle) :=
  {| state := state l; ptyProcess := ptyProcess l;
     attachPromise := attachPromise l;
     retryCount := retryCount l; lastDimensions := lastDimensions l;
     disposed := disposed l; frames := frames l; wired := v;
     trace := trace l |}.

Definition emit (e : Effect) (l : SessionLifecycle) :=
  {| state := state l; ptyProcess := ptyProcess l;
     attachPromise := attachPromise l;
     retryCount := retryCount l; lastDimensions := lastDimensions l;
     disposed := disposed l; frames := frames l; wired := wired l;
     trace := trace l ++ [e] |}.

Definition suspend (f : Frame) (l : SessionLifecycle) :=
  set_frames (frames l ++ [f]) l.

Definition getState (l : SessionLifecycle) : SessionState := state l.
Definition getPty (l : SessionLifecycle) : option pty := ptyProcess l.

Definition transition (newState : SessionState) (l : SessionLifecycle) :=
  if bool_decide (state l = newState) then l
  else emit (StateChange newState (state l)) (set_state newState l).

(** [this.ptyProcess.resize(cols, rows)] inside [try {} catch {}] *)
Definition try_resize (cols rows : Z) (l : SessionLifecycle) :=
  match ptyProcess l with
  | Some p => emit (PtyResize p cols rows) l
  | None => l
  end.

(** [this.ptyProcess.kill()] inside [try {} catch {}], then
    [this.ptyProcess = null] *)
Definition kill_pty (l : SessionLifecycle) :=
  match ptyProcess l with
  | Some p => set_ptyProcess None (emit (PtyKill p) l)
  | None => l
  end.

(** [doAttach] up to its first [await]. *)
Definition doAttach (cols rows : Z) (viaEnsure : bool) (l : SessionLifecycle) :=
  suspend (DoAttach_sessionExists cols rows viaEnsure)
    (emit SessionExistsCall (transition connecting l)).

(** The [finally] of [ensureAttached]. *)
Definition settle (viaEnsure : bool) (l : SessionLifecycle) :=
  if viaEnsure then set_attachPromise false l else l.

(** The [catch] of [doAttach]. *)
Definition doAttach_catch (e : TmuxError) (viaEnsure : bool)
    (l : SessionLifecycle) :=
  settle viaEnsure (transition failed (emit (OnError e) l)).

Definition wireHandlers (cols rows : Z) (l : SessionLifecycle) :=
  match ptyProcess l with
  | None => l
  | Some p => set_wired (wired l ++ [(p, (cols, rows))]) l
  end.

(** [doAttach] after [backend.sessionExists] settled. *)
Definition doAttach_after_sessionExists (cols rows : Z) (viaEnsure : bool)
    (a : Answer) (l : SessionLifecycle) :=
  match a with
  | Resolved_bool false => settle viaEnsure (transition closed l)
  | Resolved_bool true =>
      suspend (DoAttach_attachSession cols rows viaEnsure)
        (emit (AttachSessionCall cols rows) l)
  | Rejected e => doAttach_catch e viaEnsure l
  | _ => l
  end.

(** [doAttach] after [backend.attachSession] settled. *)
Definition doAttach_after_attachSession (cols rows : Z) (viaEnsure : bool)
    (a : Answer) (l : SessionLifecycle) :=
  match a with
  | Resolved_pty p =>
      let l := set_ptyProcess (Some p) l in
      let l := wireHandlers cols rows l in
      let l := try_resize cols rows l in
      let l := set_retryCount 0 l in
      settle viaEnsure (transition connected l)
  | Rejected e => doAttach_catch e viaEnsure l
  | _ => l
  end.

(** The [onExit] handler up to its first [await]. *)
Definition onExit (cols rows : Z) (l : SessionLifecycle) :=
  let l := set_ptyProcess None l in
  if disposed l || bool_decide (state l = closed) then l
  else suspend (OnExit_sessionExists cols rows) (emit SessionExistsCall l).

(** The [onExit] handler after [sessionExists(...).catch(() => false)]. *)
Definition onExit_after_sessionExists (cols rows : Z) (a : Answer)
    (l : SessionLifecycle) :=
  let sessionExists :=
    match a with Resolved_bool b => b | _ => false end in
  if negb sessionExists then transition closed l
  else if Nat.ltb (retryCount l) MAX_RETRIES then
    let l := set_retryCount (S (retryCount l)) l in
    let l := transition reconnecting l in
    let delay := default 1000%Z (RETRY_DELAYS_MS !! (retryCount l - 1)) in
    suspend (OnExit_delay cols rows delay) (emit (SetTimeout delay) l)
  else transition failed (emit (OnError ATTACH_FAILED) l).

(** The [onExit] handler after the back-off delay. *)
Definition onExit_after_delay (cols rows : Z) (l : SessionLifecycle) :=
  if negb (disposed l) then doAttach cols rows false l else l.

(** [ensureAttached]: the result is [Some b] when the call answers without
    waiting and [None] when it awaits an attach in flight, to answer
    [state === "connected"] once that has settled. *)
Definition ensureAttached (cols rows : Z) (l : SessionLifecycle)
    : SessionLifecycle * option bool :=
  if disposed l then (l, Some false)
  else
    let l := set_lastDimensions (cols, rows) l in
    if attachPromise l then (l, None)
    else if bool_decide (state l = connected) && bool_decide (is_Some (ptyProcess l))
    then (try_resize cols rows l, Some true)
    else (doAttach cols rows true (set_attachPromise true l), None).

Inductive thrown := Cannot_write (s : SessionState).

Definition write (data : list N) (l : SessionLifecycle)
    : SessionLifecycle + thrown :=
  match ptyProcess l with
  | Some p =>
      if bool_decide (state l = connected) then inl (emit (PtyWrite p data) l)
      else inr (Cannot_write (state l))
  | None => inr (Cannot_write (state l))
  end.

Definition resize (cols rows : Z) (l : SessionLifecycle) :=
  let l := set_lastDimensions (cols, rows) l in
  if bool_decide (state l = connected) then try_resize cols rows l else l.

Definition detach (l : SessionLifecycle) :=
  if disposed l then l else transition disconnected (kill_pty l).

Definition close (l : SessionLifecycle) :=
  kill_pty (transition closed (set_disposed true l)).

Definition retry (l : SessionLifecycle) : SessionLifecycle * option bool :=
  if disposed l then (l, Some false)
  else if negb (bool_decide (state l = failed))
  then (l, Some (bool_decide (state l = connected)))
  else
    let l := set_retryCount 0 l in
    ensureAttached (fst (lastDimensions l)) (snd (lastDimensions l)) l.

(** [canWrite]: the class has no member of that name (its members are
    [getState], [getPty], [transition], [ensureAttached], [doAttach],
    [wireHandlers], [write], [resize], [detach], [close] and [retry]), so
    the property is [undefined] on every instance. *)
Definition canWrite : option (SessionLifecycle -> bool) := None.

(** Resuming the [i]-th suspended frame with the answer it waited for. *)
Definition resume (i : nat) (a : Answer) (l : SessionLifecycle) :=
  match frames l !! i with
  | None => l
  | Some f =>
      let l := set_frames (delete i (frames l)) l in
      match f with
      | DoAttach_sessionExists cols rows v =>
          doAttach_after_sessionExists cols rows v a l
      | DoAttach_attachSession cols rows v =>
          doAttach_after_attachSession cols rows v a l
      | OnExit_sessionExists cols rows =>
          onExit_after_sessionExists cols rows a l
      | OnExit_delay cols rows _ => onExit_after_delay cols rows l
      end
  end.

Definition lookup_wired (p : pty) (w : list (pty * (Z * Z))) : option (Z * Z) :=
  match list_find (fun e => fst e = p) w with
  | Some (_, (_, dims)) => Some dims
  | None => None
  end.

Definition unwire (p : pty) (w : list (pty * (Z * Z))) :=
  filter (fun e => fst e <> p) w.

(** What can happen to an instance: its owner calls a method, an awaited
    promise settles, or a wired PTY delivers data or exits. *)
Inductive Event :=
| Call_ensureAttached (cols rows : Z)
| Call_write (data : list N)
| Call_resize (cols rows : Z)
| Call_detach
| Call_close
| Call_retry
| Resume (i : nat) (a : Answer)
| PtyData (p : pty) (data : list N)
| PtyExit (p : pty).

Definition step (e : Event) (l : SessionLifecycle) : SessionLifecycle :=
  match e with
  | Call_ensureAttached cols rows => fst (ensureAttached cols rows l)
  | Call_write data => match write data l with inl l' => l' | inr _ => l end
  | Call_resize cols rows => resize cols rows l
  | Call_detach => detach l
  | Call_close => close l
  | Call_retry => fst (retry l)
  | Resume i a => resume i a l
  | PtyData p data =>
      match lookup_wired p (wired l) with
      | Some _ => if disposed l then l else emit (OnData data) l
      | None => l
      end
  | PtyExit p =>
      match lookup_wired p (wired l) with
      | Some (cols, rows) => onExit cols rows (set_wired (unwire p (wired l)) l)
      | None => l
      end
  end.

Definition run (es : list Event) (l : SessionLifecycle) : SessionLifecycle :=
  fold_left (fun l e => step e l) es l.

End Lifecycle.

(** ** Attach scheduler *)
Module Scheduler.

(** What a task's [run] callback does with the completion callback it is
    given: call it before returning, or keep it and call it later. *)
Inductive RunKind := CompletesNow | CompletesLater.

Record AttachTask := {
  paneId : string;
  priority : Z;
  enqueuedAt : Z;
  canceled : bool;
  run : RunKind
}.

Definition cancel_task (t : AttachTask) : AttachTask :=
  {| paneId := paneId t; priority := priority t; enqueuedAt := enqueuedAt t;
     canceled := true; run := run t |}.

Definition MAX_CONCURRENT_ATTACHES : Z := 3.

(** The module state.  Task objects live in [tasks] and are referred to by
    their index, so that the queue, the map and the cancel closures share
    one [canceled] flag per task.  [started] lists the tasks whose [run]
    was called, [running] those whose completion callback is still to be
    called. *)
Record State := {
  inFlight : Z;
  queue : list nat;
  pendingByPaneId : gmap string nat;
  tasks : list AttachTask;
  started : list nat;
  running : list nat
}.

Definition init : State :=
  {| inFlight := 0; queue := []; pendingByPaneId := ∅; tasks := [];
     started := []; running := [] |}.

Definition set_inFlight (v : Z) (s : State) : State :=
  {| inFlight := v; queue := queue s; pendingByPaneId := pendingByPaneId s;
     tasks := tasks s; started := started s; running := running s |}.

Definition set_queue (v : list nat) (s : State) : State :=
  {| inFlight := inFlight s; queue := v; pendingByPaneId := pendingByPaneId s;
     tasks := tasks s; started := started s; running := running s |}.

Definition set_pendingByPaneId (v : gmap string nat) (s : State) : State :=
  {| inFlight := inFlight s; queue := queue s; pendingByPaneId := v;
     tasks := tasks s; started := started s; running := running s |}.

Definition set_tasks (v : list AttachTask) (s : State) : State :=
  {| inFlight := inFlight s; queue := queue s;
     pendingByPaneId := pendingByPaneId s;
     tasks := v; started := started s; running := running s |}.

Definition set_started (v : list nat) (s : State) : State :=
  {| inFlight := inFlight s; queue := queue s;
     pendingByPaneId := pendingByPaneId s;
     tasks := tasks s; started := v; running := running s |}.

Definition set_running (v : list nat) (s : State) : State :=
  {| inFlight := inFlight s; queue := queue s;
     pendingByPaneId := pendingByPaneId s;
     tasks := tasks s; started := started s; running := v |}.

(** [a.priority - b.priority || a.enqueuedAt - b.enqueuedAt] *)
Definition compare_tasks (a b : AttachTask) : Z :=
  let d := (priority a - priority b)%Z in
  if Z.eqb d 0 then (enqueuedAt a - enqueuedAt b)%Z else d.

Definition compare_refs (ts : list AttachTask) (a b : nat) : Z :=
  match ts !! a, ts !! b with
  | Some ta, Some tb => compare_tasks ta tb
  | _, _ => 0%Z
  end.

(** [Array.prototype.sort] is stable: elements that compare equal keep
    their order. *)
Fixpoint insert_sorted (ts : list AttachTask) (x : nat) (l : list nat)
    : list nat :=
  match l with
  | [] => [x]
  | y :: l' =>
      if Z.leb (compare_refs ts x y) 0 then x :: l
      else y :: insert_sorted ts x l'
  end.

Definition sort (ts : list AttachTask) (l : list nat) : list nat :=
  foldr (insert_sorted ts) [] l.

(** [pendingByPaneId.get(p) === task] *)
Definition is_current (s : State) (p : string) (r : nat) : bool :=
  bool_decide (pendingByPaneId s !! p = Some r).

(** [if (pendingByPaneId.get(p) === task) pendingByPaneId.delete(p)] *)
Definition clear_if_current (p : string) (r : nat) (s : State) : State :=
  if is_current s p r
  then set_pendingByPaneId (delete p (pendingByPaneId s)) s
  else s.

Definition remove_first (r : nat) (l : list nat) : list nat :=
  match list_find (fun x => x = r) l with
  | Some (i, _) => delete i l
  | None => l
  end.

(** [inFlight++; task.run(...)] up to the call of [run]. *)
Definition start (r : nat) (s : State) : State :=
  set_running (running s ++ [r])
    (set_started (started s ++ [r]) (set_inFlight (inFlight s + 1) s)).

(** The completion callback, up to its call of [pump]. *)
Definition finish (r : nat) (s : State) : State :=
  let p := default EmptyString (paneId <$> tasks s !! r) in
  let s := clear_if_current p r s in
  let s := set_inFlight (Z.max 0 (inFlight s - 1)) s in
  set_running (remove_first r (running s)) s.

Definition may_pump (s : State) : bool :=
  Z.ltb (inFlight s) MAX_CONCURRENT_ATTACHES
  && Nat.ltb 0 (length (queue s)).

(** The [while] loop of [pump]; every iteration shifts the queue, so the
    queue's length is fuel enough (see [SchedulerFacts.pump_loop_exits]).
    A [run] that completes at once calls [pump] again from inside the
    loop. *)
Fixpoint pump_loop (fuel : nat) (s : State) : State :=
  match fuel with
  | 0 => s
  | S fuel' =>
      if may_pump s then
        match sort (tasks s) (queue s) with
        | [] => set_queue [] s
        | r :: q' =>
            let s := set_queue q' s in
            match tasks s !! r with
            | None => pump_loop fuel' s
            | Some task =>
                if canceled task then pump_loop fuel' s
                else if negb (is_current s (paneId task) r)
                then pump_loop fuel' s
                else
                  let s := start r s in
                  match run task with
                  | CompletesNow =>
                      pump_loop fuel' (pump_loop fuel' (finish r s))
                  | CompletesLater => pump_loop fuel' s
                  end
            end
        end
      else s
  end.

Definition pump (s : State) : State := pump_loop (length (queue s)) s.

(** The completion callback handed to [run]. *)
Definition done (r : nat) (s : State) : State := pump (finish r s).

(** Lines 91-95 of [scheduleTerminalAttach]: replace any existing pending
    task for this pane. *)
Definition replace_existing (p : string) (s : State) : State :=
  match pendingByPaneId s !! p with
  | Some r =>
      set_pendingByPaneId (delete p (pendingByPaneId s))
        (set_tasks (alter cancel_task r (tasks s)) s)
  | None => s
  end.

(** The rest of [scheduleTerminalAttach]; [now] is [Date.now()]. *)
Definition enqueue (p : string) (prio : Z) (k : RunKind) (now : Z)
    (s : State) : State :=
  let r := length (tasks s) in
  let task := {| paneId := p; priority := prio; enqueuedAt := now;
                 canceled := false; run := k |} in
  let s := set_tasks (tasks s ++ [task]) s in
  let s := set_pendingByPaneId (<[p := r]> (pendingByPaneId s)) s in
  let s := set_queue (queue s ++ [r]) s in
  pump s.

Definition scheduleTerminalAttach (p : string) (prio : Z) (k : RunKind)
    (now : Z) (s : State) : State :=
  enqueue p prio k now (replace_existing p s).

(** The function [scheduleTerminalAttach] returns, for task [r]. *)
Definition cancel (r : nat) (s : State) : State :=
  match tasks s !! r with
  | None => s
  | Some task =>
      clear_if_current (paneId task) r
        (set_tasks (alter cancel_task r (tasks s)) s)
  end.

Inductive Event :=
| Schedule (p : string) (prio : Z) (k : RunKind) (now : Z)
| Cancel (r : nat)
| Done (r : nat).

(** A completion callback exists only for a task that was started. *)
Definition step (e : Event) (s : State) : State :=
  match e with
  | Schedule p prio k now => scheduleTerminalAttach p prio k now s
  | Cancel r => cancel r s
  | Done r => if bool_decide (r ∈ started s) then done r s else s
  end.

Definition exec (es : list Event) (s : State) : State :=
  fold_left (fun s e => step e s) es s.

(** Every completion callback is called at most once: each [Done] is for a
    task that is running. *)
Fixpoint disciplined (es : list Event) (s : State) : bool :=
  match es with
  | [] => true
  | e :: es' =>
      match e with
      | Done r => bool_decide (r ∈ running s)
      | _ => true
      end && disciplined es' (step e s)
  end.

End Scheduler.

(** ** Terminal manager *)
Module Manager.

(** One PTY-backed terminal.  [historyWriter] tells whether the session
    still owns an open history writer. *)
Record TerminalSession := {
  pty : nat;
  paneId : string;
  workspaceId : string;
  cols : Z;
  rows : Z;
  lastActive : Z;
  scrollback : list N;
  isAlive : bool;
  wasRecovered : bool;
  shell : string;
  startTime : Z;
  usedFallback : bool;
  isPersistentBackend : bool;
  isExpectedDetach : bool;
  deleteHistoryOnExit : bool;
  historyWriter : bool
}.

Definition set_pty (v : nat) (s : TerminalSession) :=
  {| pty := v; paneId := paneId s; workspaceId := workspaceId s;
     cols := cols s; rows := rows s; lastActive := lastActive s;
     scrollback := scrollback s; isAlive := isAlive s;
     wasRecovered := wasRecovered s; shell := shell s;
     startTime := startTime s; usedFallback := usedFallback s;
     isPersistentBackend := isPersistentBackend s;
     isExpectedDetach := isExpectedDetach s;
     deleteHistoryOnExit := deleteHistoryOnExit s;
     historyWriter := historyWriter s |}.

Definition set_geometry (c r : Z) (s : TerminalSession) :=
  {| pty := pty s; paneId := paneId s; workspaceId := workspaceId s;
     cols := c; rows := r; lastActive := lastActive s;
     scrollback := scrollback s; isAlive := isAlive s;
     wasRecovered := wasRecovered s; shell := shell s;
     startTime := startTime s; usedFallback := usedFallback s;
     isPersistentBackend := isPersistentBackend s;
     isExpectedDetach := isExpectedDetach s;
     deleteHistoryOnExit := deleteHistoryOnExit s;
     historyWriter := historyWriter s |}.

Definition set_lastActive (v : Z) (s : TerminalSession) :=
  {| pty := pty s; paneId := paneId s; workspaceId := workspaceId s;
     cols := cols s; rows := rows s; lastActive := v;
     scrollback := scrollback s; isAlive := isAlive s;
     wasRecovered := wasRecovered s; shell := shell s;
     startTime := startTime s; usedFallback := usedFallback s;
     isPersistentBackend := isPersistentBackend s;
     isExpectedDetach := isExpectedDetach s;
     deleteHistoryOnExit := deleteHistoryOnExit s;
     historyWriter := historyWriter s |}.

Definition set_isAlive (v : bool) (s : TerminalSession) :=
  {| pty := pty s; paneId := paneId s; workspaceId := workspaceId s;
     cols := cols s; rows := rows s; lastActive := lastActive s;
     scrollback := scrollback s; isAlive := v;
     wasRecovered := wasRecovered s; shell := shell s;
     startTime := startTime s; usedFallback := usedFallback s;
     isPersistentBackend := isPersistentBackend s;
     isExpectedDetach := isExpectedDetach s;
     deleteHistoryOnExit := deleteHistoryOnExit s;
     historyWriter := historyWriter s |}.

Definition set_deleteHistoryOnExit (v : bool) (s : TerminalSession) :=
  {| pty := pty s; paneId := paneId s; workspaceId := workspaceId s;
     cols := cols s; rows := rows s; lastActive := lastActive s;
     scrollback := scrollback s; isAlive := isAlive s;
     wasRecovered := wasRecovered s; shell := shell s;
     startTime := startTime s; usedFallback := usedFallback s;
     isPersistentBackend := isPersistentBackend s;
     isExpectedDetach := isExpectedDetach s;
     deleteHistoryOnExit := v;
     historyWriter := historyWriter s |}.

Definition set_historyWriter (v : bool) (s : TerminalSession) :=
  {| pty := pty s; paneId := paneId s; workspaceId := workspaceId s;
     cols := cols s; rows := rows s; lastActive := lastActive s;
     scrollback := scrollback s; isAlive := isAlive s;
     wasRecovered := wasRecovered s; shell := shell s;
     startTime := startTime s; usedFallback := usedFallback s;
     isPersistentBackend := isPersistentBackend s;
     isExpectedDetach := isExpectedDetach s;
     deleteHistoryOnExit := deleteHistoryOnExit s;
     historyWriter := v |}.

Record SessionResult := {
  isNew : bool;
  result_scrollback : list N;
  result_wasRecovered : bool
}.

(** [CreateSessionParams] with the two fields [InternalCreateSessionParams]
    adds; a public call leaves them [None] and [false]. *)
Record CreateSessionParams := {
  params_paneId : string;
  params_workspaceId : string;
  params_cols : option Z;
  params_rows : option Z;
  existingScrollback : option (list N);
  useFallbackShell : bool
}.

(** What the manager does to the outside. *)
Inductive Effect :=
| Emit_exit (pane : string) (exitCode : Z) (signal : option Z)
| Emit_error (pane : string)
| Pty_write (p : nat) (data : list N)
| Pty_resize (p : nat) (c r : Z)
| Pty_kill (p : nat) (signal : option string)
| Pty_spawn (p : nat) (sh : string)
| History_close (pane : string) (exitCode : option Z)
| History_cleanup (pane : string)
| Ports_remove (pane : string)
| Backend_killByWorkspace (ws : string)
| Warn_write_dropped (pane : string) (st : Lifecycle.SessionState).

#[global] Instance Effect_eq_dec : EqDecision Effect.
Proof. solve_decision. Defined.

(** The promise [killSessionWithTimeout] returns for an alive session:
    the captured session object and the [resolved] flag with the value
    the promise resolved with; [listening] holds while [exitHandler] is
    registered for [exit:paneId]. *)
Record KillOp := {
  kill_paneId : string;
  kill_session : nat;
  resolved : option bool;
  listening : bool
}.

Inductive TimerAction :=
| Sigterm_timeout (k : nat)
| Sigkill_timeout (k : nat)
| Session_cleanup (pane : string).

#[global] Instance TimerAction_eq_dec : EqDecision TimerAction.
Proof. solve_decision. Defined.

(** The manager.  Session objects live in [objects] and are referred to by
    index, as closures and the registry share them; promises of
    [pendingSessions] are numbered by the creation they belong to. *)
Record TerminalManager := {
  objects : list TerminalSession;
  sessions : gmap string nat;
  pendingSessions : gmap string nat;
  lifecycles : gmap string Lifecycle.SessionLifecycle;
  (** calls of [doCreateOrAttachPersistent], with the [existing] session *)
  creations : list (CreateSessionParams * option nat);
  (** [onExit] handlers installed by [setupExitHandler]: PTY, session, params *)
  exitHandlers : list (nat * (nat * CreateSessionParams));
  kills : list KillOp;
  (** armed timers with the time they are due *)
  timers : list (Z * TimerAction);
  effects : list Effect
}.

Definition new_TerminalManager : TerminalManager :=
  {| objects := []; sessions := ∅; pendingSessions := ∅; lifecycles := ∅;
     creations := []; exitHandlers := []; kills := []; timers := [];
     effects := [] |}.

Definition set_objects (v : list TerminalSession) (m : TerminalManager) :=
  {| objects := v; sessions := sessions m;
     pendingSessions := pendingSessions m; lifecycles := lifecycles m;
     creations := creations m; exitHandlers := exitHandlers m;
     kills := kills m; timers := timers m; effects := effects m |}.

Definition set_sessions (v : gmap string nat) (m : TerminalManager) :=
  {| objects := objects m; sessions := v;
     pendingSessions := pendingSessions m; lifecycles := lifecycles m;
     creations := creations m; exitHandlers := exitHandlers m;
     kills := kills m; timers := timers m; effects := effects m |}.

Definition set_pendingSessions (v : gmap string nat) (m : TerminalManager) :=
  {| objects := objects m; sessions := sessions m;
     pendingSessions := v; lifecycles := lifecycles m;
     creations := creations m; exitHandlers := exitHandlers m;
     kills := kills m; timers := timers m; effects := effects m |}.

Definition set_lifecycles (v : gmap string Lifecycle.SessionLifecycle)
    (m : TerminalManager) :=
  {| objects := objects m; sessions := sessions m;
     pendingSessions := pendingSessions m; lifecycles := v;
     creations := creations m; exitHandlers := exitHandlers m;
     kills := kills m; timers := timers m; effects := effects m |}.

Definition set_creations (v : list (CreateSessionParams * option nat))
    (m : TerminalManager) :=
  {| objects := objects m; sessions := sessions m;
     pendingSessions := pendingSessions m; lifecycles := lifecycles m;
     creations := v; exitHandlers := exitHandlers m;
     kills := kills m; timers := timers m; effects := effects m |}.

Definition set_exitHandlers (v : list (nat * (nat * CreateSessionParams)))
    (m : TerminalManager) :=
  {| objects := objects m; sessions := sessions m;
     pendingSessions := pendingSessions m; lifecycles := lifecycles m;
     creations := creations m; exitHandlers := v;
     kills := kills m; timers := timers m; effects := effects m |}.

Definition set_kills (v : list KillOp) (m : TerminalManager) :=
  {| objects := objects m; sessions := sessions m;
     pendingSessions := pendingSessions m; lifecycles := lifecycles m;
     creations := creations m; exitHandlers := exitHandlers m;
     kills := v; timers := timers m; effects := effects m |}.

Definition set_timers (v : list (Z * TimerAction)) (m : TerminalManager) :=
  {| objects := objects m; sessions := sessions m;
     pendingSessions := pendingSessions m; lifecycles := lifecycles m;
     creations := creations m; exitHandlers := exitHandlers m;
     kills := kills m; timers := v; effects := effects m |}.

Definition effect (e : Effect) (m : TerminalManager) :=
  {| objects := objects m; sessions := sessions m;
     pendingSessions := pendingSessions m; lifecycles := lifecycles m;
     creations := creations m; exitHandlers := exitHandlers m;
     kills := kills m; timers := timers m; effects := effects m ++ [e] |}.

(** [this.sessions.get(paneId)], with the object it refers to. *)
Definition get_session (pane : string) (m : TerminalManager)
    : option (nat * TerminalSession) :=
  match sessions m !! pane with
  | Some r =>
      match objects m !! r with
      | Some s => Some (r, s)
      | None => None
      end
  | None => None
  end.

(** Assignment to fields of the session object [r]. *)
Definition update (r : nat) (f : TerminalSession -> TerminalSession)
    (m : TerminalManager) :=
  set_objects (alter f r (objects m)) m.

Definition delete_session (pane : string) (m : TerminalManager) :=
  set_sessions (delete pane (sessions m)) m.

(** *** Lifecycle callbacks *)

(** [handleLifecycleStateChange]; [emit_exit] below is what
    [this.emit(`exit:${paneId}`, ...)] does. *)
Definition settle_kill (k : nat) (success : bool) (m : TerminalManager) :=
  match kills m !! k with
  | Some op =>
      match resolved op with
      | Some _ => m
      | None =>
          let op' := {| kill_paneId := kill_paneId op;
                        kill_session := kill_session op;
                        resolved := Some success; listening := false |} in
          let m := set_kills (<[k := op']> (kills m)) m in
          set_timers
            (filter (fun t => snd t <> Sigterm_timeout k /\
                              snd t <> Sigkill_timeout k) (timers m)) m
      end
  | None => m
  end.

(** The listeners of [exit:pane]: the [exitHandler] of every kill that is
    still listening calls [cleanup(true)]. *)
Definition notify_exit (pane : string) (m : TerminalManager) :=
  foldr (fun k m =>
           match kills m !! k with
           | Some op =>
               if listening op && bool_decide (kill_paneId op = pane)
               then settle_kill k true m else m
           | None => m
           end) m (seq 0 (length (kills m))).

Definition emit_exit (pane : string) (exitCode : Z) (signal : option Z)
    (m : TerminalManager) :=
  notify_exit pane (effect (Emit_exit pane exitCode signal) m).

Definition handleLifecycleStateChange (pane : string)
    (st prev : Lifecycle.SessionState) (m : TerminalManager) :=
  let session := get_session pane m in
  let m :=
    match st, prev, session with
    | Lifecycle.connected, Lifecycle.reconnecting, Some (r, _) =>
        let m := update r (set_isAlive true) m in
        match lifecycles m !! pane with
        | Some l =>
            match Lifecycle.getPty l with
            | Some p => update r (set_pty p) m
            | None => m
            end
        | None => m
        end
    | _, _, _ => m
    end in
  let m :=
    match st with
    | Lifecycle.failed => effect (Emit_error pane) m
    | _ => m
    end in
  match st, session with
  | Lifecycle.closed, Some (r, _) =>
      emit_exit pane 0 None (update r (set_isAlive false) m)
  | _, _ => m
  end.

(** The [onStateChange] callbacks a lifecycle made, delivered to the
    manager ([onData] and [onError] do not bear on what follows). *)
Definition deliver (pane : string) (es : list Lifecycle.Effect)
    (m : TerminalManager) :=
  fold_left
    (fun m e =>
       match e with
       | Lifecycle.StateChange st prev =>
           handleLifecycleStateChange pane st prev m
       | _ => m
       end) es m.

(** Running a step of the lifecycle registered for [pane]. *)
Definition with_lifecycle {A : Type} (pane : string)
    (f : Lifecycle.SessionLifecycle -> Lifecycle.SessionLifecycle * A)
    (m : TerminalManager) : TerminalManager * option A :=
  match lifecycles m !! pane with
  | None => (m, None)
  | Some l =>
      let '(l', a) := f l in
      let m := set_lifecycles (<[pane := l']> (lifecycles m)) m in
      (deliver pane (drop (length (Lifecycle.trace l)) (Lifecycle.trace l')) m,
       Some a)
  end.

Definition lifecycle_event (pane : string) (e : Lifecycle.Event)
    (m : TerminalManager) :=
  fst (with_lifecycle pane (fun l => (Lifecycle.step e l, tt)) m).

(** *** write and resize *)

(** What [write] throws: its own two errors, the error of
    [SessionLifecycle.write], and the [TypeError] of a call of something
    that is not a function. *)
Inductive WriteError :=
| Session_not_found (pane : string)
| Lifecycle_not_writable (pane : string) (st : Lifecycle.SessionState)
| Lifecycle_threw (e : Lifecycle.thrown)
| Not_a_function (callee : string).

(** [write]; [now] is [Date.now()].  [inr] is a thrown error.  The call
    [lifecycle.canWrite()] throws when [canWrite] is not a function. *)
Definition write (pane : string) (data : list N) (now : Z)
    (m : TerminalManager) : TerminalManager + WriteError :=
  match get_session pane m with
  | None => inr (Session_not_found pane)
  | Some (r, session) =>
      if negb (isAlive session) then inr (Session_not_found pane)
      else
        match lifecycles m !! pane with
        | Some l =>
            match Lifecycle.canWrite with
            | None => inr (Not_a_function "lifecycle.canWrite")
            | Some canWrite =>
                if canWrite l then
                  match Lifecycle.write data l with
                  | inl l' =>
                      inl (update r (set_lastActive now)
                             (set_lifecycles (<[pane := l']> (lifecycles m))
                                m))
                  | inr e => inr (Lifecycle_threw e)
                  end
                else
                  let st := Lifecycle.getState l in
                  if bool_decide (st = Lifecycle.reconnecting)
                     || bool_decide (st = Lifecycle.connecting)
                  then inl (effect (Warn_write_dropped pane st) m)
                  else inr (Lifecycle_not_writable pane st)
            end
        | None =>
            inl (update r (set_lastActive now)
                   (effect (Pty_write (pty session) data) m))
        end
  end.

(** [resize]; geometry is integral here, so [Number.isInteger] holds. *)
Definition resize (pane : string) (c r : Z) (now : Z) (m : TerminalManager) :=
  if Z.leb c 0 || Z.leb r 0 then m
  else
    match get_session pane m with
    | None => m
    | Some (ref, session) =>
        if negb (isAlive session) then m
        else
          let m :=
            match lifecycles m !! pane with
            | Some l =>
                set_lifecycles
                  (<[pane := Lifecycle.resize c r l]> (lifecycles m)) m
            | None => effect (Pty_resize (pty session) c r) m
            end in
          update ref (fun s => set_lastActive now (set_geometry c r s)) m
    end.

(** *** createOrAttach *)

(** Where [createOrAttach] stands when it first yields. *)
Inductive Attaching :=
| Await_pending (promise : nat)
| Await_retry (session : nat)
| Return_existing (result : SessionResult)
| Await_creation (promise : nat).

(** Lines 71-79: the answer for a session that is alive. *)
Definition answer_existing (params : CreateSessionParams) (r : nat) (now : Z)
    (m : TerminalManager) : TerminalManager * SessionResult :=
  let m := update r (set_lastActive now) m in
  let m :=
    match params_cols params, params_rows params with
    | Some c, Some rw => resize (params_paneId params) c rw now m
    | _, _ => m
    end in
  let s := objects m !! r in
  (m, {| isNew := false;
         result_scrollback := default [] (scrollback <$> s);
         result_wasRecovered := default false (wasRecovered <$> s) |}).

(** [createOrAttach] up to its first [await] (or its return).  Of
    [doCreateOrAttachPersistent] only the call is kept, in [creations],
    together with the promise registered in [pendingSessions]. *)
Definition createOrAttach (params : CreateSessionParams) (now : Z)
    (m : TerminalManager) : TerminalManager * Attaching :=
  let pane := params_paneId params in
  match pendingSessions m !! pane with
  | Some pending => (m, Await_pending pending)
  | None =>
      let existing := get_session pane m in
      match existing with
      | Some (r, session) =>
          if isAlive session then
            match lifecycles m !! pane with
            | Some l =>
                if bool_decide (Lifecycle.getState l = Lifecycle.failed)
                then (fst (with_lifecycle pane Lifecycle.retry m), Await_retry r)
                else
                  let '(m, res) := answer_existing params r now m in
                  (m, Return_existing res)
            | None =>
                let '(m, res) := answer_existing params r now m in
                (m, Return_existing res)
            end
          else
            let m :=
              if isExpectedDetach session then delete_session pane m else m in
            let promise := length (creations m) in
            let m := set_creations (creations m ++ [(params, Some r)]) m in
            (set_pendingSessions (<[pane := promise]> (pendingSessions m)) m,
             Await_creation promise)
      | None =>
          let promise := length (creations m) in
          let m := set_creations (creations m ++ [(params, None)]) m in
          (set_pendingSessions (<[pane := promise]> (pendingSessions m)) m,
           Await_creation promise)
      end
  end.

(** [createOrAttach] after [await lifecycle.retry()]. *)
Definition createOrAttach_after_retry (params : CreateSessionParams) (r : nat)
    (reattached : bool) (now : Z) (m : TerminalManager)
    : TerminalManager * SessionResult :=
  let m :=
    if reattached then
      match lifecycles m !! params_paneId params with
      | Some l =>
          match Lifecycle.getPty l with
          | Some p => update r (set_pty p) m
          | None => m
          end
      | None => m
      end
    else m in
  answer_existing params r now m.

(** The [finally] of [createOrAttach]. *)
Definition createOrAttach_finally (params : CreateSessionParams)
    (m : TerminalManager) :=
  set_pendingSessions (delete (params_paneId params) (pendingSessions m)) m.

(** *** Sessions without a persistent backend (session.ts) *)

Definition closeSessionHistory (r : nat) (exitCode : option Z)
    (m : TerminalManager) :=
  match objects m !! r with
  | None => m
  | Some s =>
      if deleteHistoryOnExit s then
        let m :=
          if historyWriter s
          then update r (set_historyWriter false)
                 (effect (History_close (paneId s) None) m)
          else m in
        effect (History_cleanup (paneId s)) m
      else if historyWriter s
      then update r (set_historyWriter false)
             (effect (History_close (paneId s) exitCode) m)
      else m
  end.

Definition MAX_SCROLLBACK_CHARS : Z := 500000.

(** [text.slice(-MAX_SCROLLBACK_CHARS)] when the text is longer. *)
Definition bounded (text : list N) : list N :=
  drop (Z.to_nat (Z.of_nat (length text) - MAX_SCROLLBACK_CHARS)) text.

Definition truthy (text : option (list N)) : bool :=
  match text with
  | Some (_ :: _) => true
  | _ => false
  end.

(** [recoverScrollback]; [disk] is the transcript the history reader
    finds. *)
Definition recoverScrollback (existing : option (list N)) (disk : list N)
    : list N * bool :=
  if truthy existing
  then (Sanitizer.sanitizeTerminalScrollback (default [] existing), true)
  else if truthy (Some disk)
  then (Sanitizer.sanitizeTerminalScrollback (bounded disk), true)
  else ([], false).

Definition DEFAULT_COLS : Z := 80.
Definition DEFAULT_ROWS : Z := 24.

(** [cols || DEFAULT_COLS] *)
Definition or_default (v : option Z) (d : Z) : Z :=
  match v with
  | Some x => if Z.eqb x 0 then d else x
  | None => d
  end.

(** [session.scrollback || null] *)
Definition or_null (text : list N) : option (list N) :=
  match text with
  | [] => None
  | _ :: _ => Some text
  end.

Section Env.

(** Constants imported from [./env]. *)
Variable FALLBACK_SHELL : string.
Variable defaultShell : string.
Variable SHELL_CRASH_THRESHOLD_MS : Z.

(** [createSession]: [spawned] is the handle [pty.spawn] returns, [None]
    when it throws. *)
Definition createSession (params : CreateSessionParams) (now : Z)
    (disk : list N) (spawned : option nat) : option TerminalSession :=
  let sh := if useFallbackShell params then FALLBACK_SHELL else defaultShell in
  let '(recovered, was) := recoverScrollback (existingScrollback params) disk in
  match spawned with
  | None => None
  | Some p =>
      Some {| pty := p; paneId := params_paneId params;
              workspaceId := params_workspaceId params;
              cols := or_default (params_cols params) DEFAULT_COLS;
              rows := or_default (params_rows params) DEFAULT_ROWS;
              lastActive := now; scrollback := recovered; isAlive := true;
              wasRecovered := was; shell := sh; startTime := now;
              usedFallback := useFallbackShell params;
              isPersistentBackend := false; isExpectedDetach := false;
              deleteHistoryOnExit := false; historyWriter := true |}
  end.

(** [doCreateSession]; [None] when [createSession] throws. *)
Definition doCreateSession (params : CreateSessionParams) (now : Z)
    (disk : list N) (spawned : option nat) (m : TerminalManager)
    : option (TerminalManager * SessionResult) :=
  match createSession params now disk spawned with
  | None => None
  | Some session =>
      let r := length (objects m) in
      let m := effect (Pty_spawn (pty session) (shell session)) m in
      let m := set_objects (objects m ++ [session]) m in
      let m := set_exitHandlers
                 (exitHandlers m ++ [(pty session, (r, params))]) m in
      let m := set_sessions (<[params_paneId params := r]> (sessions m)) m in
      Some (m, {| isNew := true; result_scrollback := scrollback session;
                  result_wasRecovered := wasRecovered session |})
  end.

Definition with_fallback (params : CreateSessionParams) (text : list N) :=
  {| params_paneId := params_paneId params;
     params_workspaceId := params_workspaceId params;
     params_cols := params_cols params; params_rows := params_rows params;
     existingScrollback := or_null text; useFallbackShell := true |}.

(** The end of the [onExit] handler: the exit is reported. *)
Definition report_exit (r : nat) (pane : string) (exitCode : Z)
    (signal : option Z) (now : Z) (m : TerminalManager) :=
  let m := closeSessionHistory r (Some exitCode) m in
  let m := effect (Ports_remove pane) m in
  let m := emit_exit pane exitCode signal m in
  set_timers (timers m ++ [((now + 5000)%Z, Session_cleanup pane)]) m.

(** The [onExit] handler [setupExitHandler] installs for session [r]; the
    awaits inside are run to their end, with [disk] and [spawned] for the
    fallback [createSession]. *)
Definition onExit (r : nat) (params : CreateSessionParams) (exitCode : Z)
    (signal : option Z) (now : Z) (disk : list N) (spawned : option nat)
    (m : TerminalManager) : TerminalManager :=
  let pane := params_paneId params in
  let m := update r (set_isAlive false) m in
  match objects m !! r with
  | None => m
  | Some session =>
      if isPersistentBackend session && isExpectedDetach session then m
      else if isPersistentBackend session then
        let m := closeSessionHistory r (Some exitCode) m in
        let m := effect (Ports_remove pane) m in
        emit_exit pane exitCode signal m
      else
        let sessionDuration := (now - startTime session)%Z in
        let crashedQuickly :=
          Z.ltb sessionDuration SHELL_CRASH_THRESHOLD_MS
          && negb (Z.eqb exitCode 0) in
        if crashedQuickly && negb (usedFallback session) then
          let m := closeSessionHistory r (Some exitCode) m in
          let m := delete_session pane m in
          match doCreateSession (with_fallback params (scrollback session))
                  now disk spawned m with
          | Some (m', _) => m'
          | None => report_exit r pane exitCode signal now m
          end
        else report_exit r pane exitCode signal now m
  end.

(** The PTY [p] exits: the handler installed on it, if any, runs. *)
Definition pty_exit (p : nat) (exitCode : Z) (signal : option Z) (now : Z)
    (disk : list N) (spawned : option nat) (m : TerminalManager) :=
  match list_find (fun e => fst e = p) (exitHandlers m) with
  | Some (i, (_, (r, params))) =>
      onExit r params exitCode signal now disk spawned
        (set_exitHandlers (delete i (exitHandlers m)) m)
  | None => m
  end.

End Env.

(** *** Escalating kill *)

(** [killSessionWithTimeout] up to the point where it yields; the result
    is the number of the kill in [kills].  [killThrows] tells whether
    [session.pty.kill()] throws. *)
Definition killSessionWithTimeout (pane : string) (r : nat) (now : Z)
    (killThrows : bool) (m : TerminalManager) : TerminalManager * nat :=
  let k := length (kills m) in
  let op v l := {| kill_paneId := pane; kill_session := r;
                   resolved := v; listening := l |} in
  match objects m !! r with
  | None => (m, k)
  | Some session =>
      let m := update r (set_deleteHistoryOnExit true) m in
      if negb (isAlive session) then
        let m := closeSessionHistory r None m in
        let m := delete_session pane m in
        (set_kills (kills m ++ [op (Some true) false]) m, k)
      else
        let m := set_kills (kills m ++ [op None true]) m in
        let m := set_timers
                   (timers m ++ [((now + 2000)%Z, Sigterm_timeout k)]) m in
        if killThrows then
          let m := update r (set_isAlive false) m in
          let m := delete_session pane m in
          let m := closeSessionHistory r None m in
          (settle_kill k false m, k)
        else (effect (Pty_kill (pty session) None) m, k)
  end.

(** The callback of [sigtermTimeout]. *)
Definition on_sigterm_timeout (k : nat) (now : Z) (m : TerminalManager) :=
  match kills m !! k with
  | None => m
  | Some op =>
      let alive := default false (isAlive <$> objects m !! kill_session op) in
      if bool_decide (is_Some (resolved op)) || negb alive then m
      else
        let p := default 0 (pty <$> objects m !! kill_session op) in
        let m := effect (Pty_kill p (Some "SIGKILL"%string)) m in
        set_timers (timers m ++ [((now + 500)%Z, Sigkill_timeout k)]) m
  end.

(** The callback of [sigkillTimeout]. *)
Definition on_sigkill_timeout (k : nat) (m : TerminalManager) :=
  match kills m !! k with
  | None => m
  | Some op =>
      if bool_decide (is_Some (resolved op)) then m
      else
        let alive :=
          default false (isAlive <$> objects m !! kill_session op) in
        let m :=
          if alive then
            let m := update (kill_session op) (set_isAlive false) m in
            let m := delete_session (kill_paneId op) m in
            closeSessionHistory (kill_session op) None m
          else m in
        settle_kill k false m
  end.

(** The [i]-th armed timer fires, at time [now], if it is due. *)
Definition fire (i : nat) (now : Z) (m : TerminalManager) :=
  match timers m !! i with
  | None => m
  | Some (due, action) =>
      if Z.ltb now due then m
      else
        let m := set_timers (delete i (timers m)) m in
        match action with
        | Sigterm_timeout k => on_sigterm_timeout k now m
        | Sigkill_timeout k => on_sigkill_timeout k m
        | Session_cleanup pane => delete_session pane m
        end
  end.

(** [killByWorkspaceId] up to the point where it awaits the kills it
    started; the result lists them. *)
Definition killByWorkspaceId (ws : string) (now : Z) (killThrows : nat -> bool)
    (m : TerminalManager) : TerminalManager * list nat :=
  let sessionsToKill :=
    List.filter
      (fun e => match objects m !! snd e with
                | Some s => bool_decide (workspaceId s = ws)
                | None => false
                end)
      (map_to_list (sessions m)) in
  match sessionsToKill with
  | [] => (effect (Backend_killByWorkspace ws) m, [])
  | _ :: _ =>
      fold_left
        (fun '(m, ks) '(pane, r) =>
           let p := default 0 (pty <$> objects m !! r) in
           let '(m, k) := killSessionWithTimeout pane r now (killThrows p) m in
           (m, ks ++ [k]))
        sessionsToKill (m, [])
  end.

(** What [killByWorkspaceId] returns once every kill it awaits is
    resolved; [None] while one is not. *)
Definition killByWorkspaceId_result (ks : list nat) (m : TerminalManager)
    : option (nat * nat) :=
  let results := map (fun k => kills m !! k ≫= resolved) ks in
  if forallb (fun o => bool_decide (is_Some o)) results then
    let killed := length (List.filter (fun o => bool_decide (o = Some true)) results) in
    Some (killed, length results - killed)
  else None.

End Manager.

(** ** Facts about the sanitizer *)
Module SanitizerFacts.
Import Sanitizer.

(** [s'] is reached from [s] by consuming [k] code units; a capture made on
    the way is no longer than what was consumed. *)
Definition extends (s s' : mstate) : Prop :=
  exists k,
    pos s' = pos s + k /\ rest s' = drop k (rest s) /\ k <= length (rest s) /\
    (cap s' = cap s \/ exists c, cap s' = Some c /\ length c <= k).

Lemma extends_refl s : extends s s.
Proof.
  exists 0. repeat split; [lia | lia | now left].
Qed.

Lemma extends_trans s1 s2 s3 : extends s1 s2 -> extends s2 s3 -> extends s1 s3.
Proof.
  intros (k1 & Hp1 & Hr1 & Hk1 & Hc1) (k2 & Hp2 & Hr2 & Hk2 & Hc2).
  rewrite Hr1 in Hk2. rewrite length_drop in Hk2.
  exists (k1 + k2). repeat split.
  - lia.
  - rewrite Hr2, Hr1, drop_drop. reflexivity.
  - lia.
  - destruct Hc2 as [Hc2 | (c & Hc2 & Hl2)].
    + rewrite Hc2. destruct Hc1 as [Hc1 | (c & Hc1 & Hl1)].
      * now left.
      * right. exists c. split; [assumption | lia].
    + right. exists c. split; [assumption | lia].
Qed.

Lemma extends_eat s x tl : rest s = x :: tl -> extends s (eat s tl).
Proof.
  intros H. exists 1. cbn. rewrite H. cbn. rewrite drop_0.
  repeat split; [lia | lia | now left].
Qed.

Lemma extends_capture s s' : extends s s' -> extends s (capture s s').
Proof.
  intros (k & Hp & Hr & Hk & _). exists k. cbn.
  repeat split; try assumption.
  right. eexists. split; [reflexivity |].
  rewrite length_take. lia.
Qed.

Lemma matches_extends r : forall s s', In s' (matches r s) -> extends s s'.
Proof.
  induction r as [c | p | | | | r1 IH1 r2 IH2 | r1 IH1 r2 IH2
                 | r IH lo hi | r IH | r IH]; intros s s' Hin; cbn in Hin.
  - destruct (rest s) as [| x tl] eqn:E; [destruct Hin |].
    destruct (N.eqb x c); [| destruct Hin].
    destruct Hin as [<- | []]. eapply extends_eat; eassumption.
  - destruct (rest s) as [| x tl] eqn:E; [destruct Hin |].
    destruct (p x); [| destruct Hin].
    destruct Hin as [<- | []]. eapply extends_eat; eassumption.
  - destruct (Nat.eqb (pos s) 0); [| destruct Hin].
    destruct Hin as [<- | []]. apply extends_refl.
  - destruct (rest s); [| destruct Hin].
    destruct Hin as [<- | []]. apply extends_refl.
  - destruct Hin as [<- | []]. apply extends_refl.
  - apply in_flat_map in Hin as (s1 & H1 & H2).
    eapply extends_trans; eauto.
  - apply in_app_or in Hin as [H | H]; eauto.
  - remember (length (rest s)) as fuel eqn:Hfuel. clear Hfuel.
    revert lo hi s s' Hin.
    induction fuel as [| fuel IHf]; intros lo hi s s' Hin.
    + destruct (Nat.eqb lo 0); [| destruct Hin].
      destruct Hin as [<- | []]. apply extends_refl.
    + apply in_app_or in Hin as [Hin | Hin].
      * destruct (hi_is_zero hi); [destruct Hin |].
        apply in_flat_map in Hin as (s1 & H1 & H2).
        match type of H2 with
        | In _ (if ?b then _ else _) => destruct b; [| destruct H2]
        end.
        eapply extends_trans; [apply IH; eassumption |].
        eapply IHf; eassumption.
      * destruct (Nat.eqb lo 0); [| destruct Hin].
        destruct Hin as [<- | []]. apply extends_refl.
  - apply in_map_iff in Hin as (s1 & <- & H1).
    apply extends_capture. auto.
  - destruct (matches r s); [destruct Hin |].
    destruct Hin as [<- | []]. apply extends_refl.
Qed.

Lemma exec_extends r p l s' :
  exec r p l = Some s' ->
  extends {| pos := p; rest := l; cap := None |} s'.
Proof.
  unfold exec. intros H. apply matches_extends with (r := r).
  destruct (matches r _) as [| a m]; [discriminate |].
  cbn in H. injection H as ->. now left.
Qed.

(** A replacement that is never longer than the capture. *)
Definition short_repl (repl : option (list char) -> list char) : Prop :=
  forall c, length (repl c) <= match c with Some t => length t | None => 0 end.

Lemma empty_repl_short : short_repl empty_repl.
Proof. intros c. cbn. lia. Qed.

Lemma group1_repl_short : short_repl group1_repl.
Proof. intros [t |]; cbn; lia. Qed.

Lemma replace_from_length r repl :
  short_repl repl ->
  forall l p skip,
    skip <= length l ->
    length (replace_from r repl p skip l) + skip <= length l.
Proof.
  intros Hrepl. induction l as [| c tl IH]; intros p skip Hskip; cbn [replace_from].
  - cbn in Hskip. assert (skip = 0) as -> by lia.
    destruct (exec r p []) as [s' |] eqn:E; [| cbn; lia].
    apply exec_extends in E as (k & _ & _ & Hk & Hc). cbn in Hk, Hc.
    specialize (Hrepl (cap s')).
    destruct Hc as [Hc | (t & Hc & Ht)]; rewrite Hc in *; cbn in *; lia.
  - cbn [length] in *. destruct skip as [| k].
    + destruct (exec r p (c :: tl)) as [s' |] eqn:E.
      * apply exec_extends in E as (k & Hp & _ & Hk & Hc). cbn in Hp, Hk, Hc.
        specialize (Hrepl (cap s')). rewrite length_app.
        assert (Hr : length (repl (cap s')) <= k)
          by (destruct Hc as [Hc | (t & Hc & Ht)]; rewrite Hc in *; lia).
        replace (pos s' - p) with k by lia.
        destruct k as [| k].
        -- cbn [length]. specialize (IH (S p) 0). lia.
        -- specialize (IH (S p) k). lia.
      * cbn [length]. specialize (IH (S p) 0). lia.
    + specialize (IH (S p) k). lia.
Qed.

Lemma replace_length r repl l :
  short_repl repl -> length (replace r repl l) <= length l.
Proof.
  intros H. unfold replace.
  pose proof (replace_from_length r repl H l 0 0). lia.
Qed.

Lemma fold_replace_length ps : forall l,
  length (fold_left (fun acc pattern => replace pattern empty_repl acc) ps l)
  <= length l.
Proof.
  induction ps as [| r ps IH]; intros l; cbn [fold_left]; [lia |].
  etransitivity; [apply IH |]. apply replace_length, empty_repl_short.
Qed.


(** C10: the sanitizer never lengthens its input. *)
Theorem sanitize_never_lengthens (x : list char) :
  length (sanitizeTerminalScrollback x) <= length x.
Proof.
  unfold sanitizeTerminalScrollback.
  destruct x as [| c tl]; [reflexivity |].
  destruct (negb (has_marker (c :: tl))); [reflexivity |].
  etransitivity; [apply replace_length, group1_repl_short |].
  apply fold_replace_length.
Qed.



Lemma replace_unmatched r repl : forall l p,
  unmatched r p l = true -> replace_from r repl p 0 l = l.
Proof.
  induction l as [| c tl IH]; intros p H; cbn [unmatched replace_from] in *.
  - destruct (exec r p []); [discriminate | reflexivity].
  - destruct (exec r p (c :: tl)); [discriminate |].
    now rewrite IH.
Qed.

Lemma fold_replace_unmatched ps data :
  forallb (fun pattern => unmatched pattern 0 data) ps = true ->
  fold_left (fun acc pattern => replace pattern empty_repl acc) ps data = data.
Proof.
  induction ps as [| r ps IH]; cbn [forallb fold_left]; [reflexivity |].
  intros H. apply andb_true_iff in H as [Hr Hps].
  unfold replace at 2. rewrite (replace_unmatched r empty_repl data 0 Hr).
  now apply IH.
Qed.


End SanitizerFacts.

(** ** Facts about the session lifecycle *)
Module LifecycleFacts.
Import Lifecycle.

(** An instance attached at 80x24 to PTY 1. *)
Definition attach_ok : list Event :=
  [ Call_ensureAttached 80 24;
    Resume 0 (Resolved_bool true);
    Resume 0 (Resolved_pty 1) ].

(** PTY 1 exits while the backend session is still there; the back-off
    elapses and the re-attach is under way. *)
Definition exit_then_backoff : list Event :=
  [ PtyExit 1; Resume 0 (Resolved_bool true); Resume 0 Elapsed ].

(** The backend still has the session but the attach is rejected. *)
Definition attach_rejected : list Event :=
  [ Resume 0 (Resolved_bool true); Resume 0 (Rejected ATTACH_FAILED) ].

Definition timeouts (l : SessionLifecycle) : list Effect :=
  List.filter (fun e => match e with SetTimeout _ => true | _ => false end)
    (trace l).

Lemma state_transition st l : state (transition st l) = st.
Proof.
  unfold transition. destruct (bool_decide (state l = st)) eqn:E; [| reflexivity].
  now apply bool_decide_eq_true in E.
Qed.

Lemma state_settle v l : state (settle v l) = state l.
Proof. now destruct v. Qed.

(** Whatever the retry counter says, a rejected attach ends in [failed]. *)
Lemma rejected_attach_fails cols rows v e l :
  state (doAttach_after_attachSession cols rows v (Rejected e) l) = failed.
Proof.
  cbn. unfold doAttach_catch. now rewrite state_settle, state_transition.
Qed.

(** An attach that succeeds ends in [connected] and resets the counter. *)
Lemma attach_connects cols rows v p l :
  let l' := doAttach_after_attachSession cols rows v (Resolved_pty p) l in
  state l' = connected /\ retryCount l' = 0 /\ ptyProcess l' = Some p.
Proof.
  cbn. rewrite state_settle, state_transition.
  unfold transition, settle.
  destruct v, (bool_decide _); cbn; repeat split.
Qed.

(** An exit while the backend session is still there starts a reconnect,
    with the delay the table has for the attempt. *)
Lemma exit_schedules_reconnect cols rows l :
  retryCount l < MAX_RETRIES ->
  let l' := onExit_after_sessionExists cols rows (Resolved_bool true) l in
  state l' = reconnecting /\ retryCount l' = S (retryCount l) /\
  exists delay,
    RETRY_DELAYS_MS !! retryCount l = Some delay /\
    last (trace l') = Some (SetTimeout delay) /\
    last (frames l') = Some (OnExit_delay cols rows delay).
Proof.
  intros Hlt. cbn zeta. unfold onExit_after_sessionExists. cbn [negb].
  apply Nat.ltb_lt in Hlt as Hb. rewrite Hb.
  assert (Hrc : forall st x, retryCount (transition st x) = retryCount x)
    by (intros st x; unfold transition; now destruct (bool_decide _)).
  unfold suspend. cbn. rewrite !state_transition, !Hrc. cbn.
  rewrite Nat.sub_0_r.
  split; [reflexivity |]. split; [reflexivity |].
  unfold MAX_RETRIES in Hlt.
  destruct (retryCount l) as [| [| [| n]]]; [| | | lia];
    eexists; (split; [reflexivity |]); rewrite !last_snoc; split; reflexivity.
Qed.

(** C2, on the failing input: the PTY of a connected instance exits, the
    backend session is there, the first re-attach (after 100 ms) is
    rejected, and the instance is [failed] with one attempt counted,
    nothing scheduled and the class of the rejection reported. *)
Theorem first_rejected_reattach_is_final :
  state (run attach_ok new_SessionLifecycle) = connected /\
  state (run (attach_ok ++
              [PtyExit 1; Resume 0 (Resolved_bool true)])
           new_SessionLifecycle) = reconnecting /\
  let l := run (attach_ok ++ exit_then_backoff ++ attach_rejected)
             new_SessionLifecycle in
  state l = failed /\ retryCount l = 1 /\ frames l = [] /\
  timeouts l = [SetTimeout 100].
Proof. vm_compute. repeat split. Qed.

(** After [failed], [retry()] clears the counter and a backend that lets
    the attach through brings the instance back to [connected]. *)
Example retry_after_failure_connects :
  let l := run (attach_ok ++ exit_then_backoff ++ attach_rejected ++
                [Call_retry; Resume 0 (Resolved_bool true);
                 Resume 0 (Resolved_pty 2)])
             new_SessionLifecycle in
  state l = connected /\ retryCount l = 0 /\ ptyProcess l = Some 2.
Proof. vm_compute. repeat split. Qed.

(** *** close *)

(** The instance was closed and nothing has moved it since. *)
Definition shut (l : SessionLifecycle) : Prop :=
  disposed l = true /\ state l = closed /\ ptyProcess l = None.

Lemma close_shuts l : shut (close l).
Proof.
  destruct l as [st p ap rc dims d fs w tr].
  unfold close, shut, kill_pty, transition.
  destruct st, p; cbn; repeat split.
Qed.

(** Events that are not the continuation of a call suspended at the
    backend: calls of the owner, data and exits of a PTY, and the end of a
    back-off delay. *)
Definition no_backend_answer (e : Event) (l : SessionLifecycle) : Prop :=
  match e with
  | Resume i _ =>
      match frames l !! i with
      | Some (OnExit_delay _ _ _) | None => True
      | Some _ => False
      end
  | _ => True
  end.

(** Such events leave a closed instance closed. *)
Lemma shut_is_stable e l :
  shut l -> no_backend_answer e l -> shut (step e l).
Proof.
  intros (Hd & Hs & Hp) Hne. unfold shut.
  destruct e as [c r | d | c r | | | | i a | p d | p]; cbn [step].
  - unfold ensureAttached. now rewrite Hd.
  - unfold write. rewrite Hp. now repeat split.
  - unfold resize. cbn. rewrite Hs. cbn. now repeat split.
  - unfold detach. now rewrite Hd.
  - apply close_shuts.
  - unfold retry. now rewrite Hd.
  - unfold resume. cbn in Hne.
    destruct (frames l !! i) as [[| | |c r ms] |]; try contradiction;
      [| now repeat split].
    unfold onExit_after_delay. cbn. rewrite Hd. now repeat split.
  - destruct (lookup_wired p (wired l)); [| now repeat split].
    rewrite Hd. now repeat split.
  - destruct (lookup_wired p (wired l)) as [[c r] |]; [| now repeat split].
    unfold onExit. cbn. rewrite Hd. cbn. now repeat split.
Qed.

(** C4, on the failing input: [close()] is called while [ensureAttached]
    waits for the backend; the backend then answers that the session
    exists and hands out PTY 7, and the closed instance is [connected]
    again and holds that PTY. *)
Theorem pending_attach_reopens_closed_instance :
  shut (run [Call_ensureAttached 80 24; Call_close] new_SessionLifecycle) /\
  let l := run [Call_ensureAttached 80 24; Call_close;
                Resume 0 (Resolved_bool true); Resume 0 (Resolved_pty 7)]
             new_SessionLifecycle in
  disposed l = true /\ state l = connected /\ ptyProcess l = Some 7.
Proof. vm_compute. repeat split. Qed.

(** The same through the exit handler: closed while it waits for
    [sessionExists], the instance ends up [reconnecting]. *)
Example pending_exit_handler_leaves_closed :
  let l := run (attach_ok ++
                [PtyExit 1; Call_close; Resume 0 (Resolved_bool true)])
             new_SessionLifecycle in
  disposed l = true /\ state l = reconnecting.
Proof. vm_compute. repeat split. Qed.

End LifecycleFacts.

(** ** Facts about the attach scheduler *)
Module SchedulerFacts.
Import Scheduler.

Lemma insert_sorted_length ts x l :
  length (insert_sorted ts x l) = S (length l).
Proof.
  induction l as [| y l IH]; cbn; [reflexivity |].
  destruct (Z.leb _ _); cbn; [reflexivity | now rewrite IH].
Qed.

Lemma sort_length ts l : length (sort ts l) = length l.
Proof.
  unfold sort. induction l as [| x l IH]; cbn; [reflexivity |].
  now rewrite insert_sorted_length, IH.
Qed.

Lemma insert_sorted_elem ts x l y :
  y ∈ insert_sorted ts x l <-> y = x \/ y ∈ l.
Proof.
  induction l as [| z l IH]; cbn.
  - rewrite list_elem_of_singleton, elem_of_nil. tauto.
  - destruct (Z.leb _ _).
    + rewrite elem_of_cons. tauto.
    + rewrite !elem_of_cons, IH. tauto.
Qed.

Lemma sort_elem ts l y : y ∈ sort ts l <-> y ∈ l.
Proof.
  unfold sort. induction l as [| x l IH]; cbn; [reflexivity |].
  rewrite insert_sorted_elem, elem_of_cons, IH. tauto.
Qed.

(** The steps the loop of [pump] is made of preserve [P], so [pump] does. *)
Section PumpInduction.
Variable P : State -> Prop.

Hypothesis P_skip : forall s r q',
  P s -> may_pump s = true -> sort (tasks s) (queue s) = r :: q' ->
  (forall task, tasks s !! r = Some task ->
     canceled task = true \/ is_current s (paneId task) r = false) ->
  P (set_queue q' s).

Hypothesis P_start : forall s r q' task,
  P s -> may_pump s = true -> sort (tasks s) (queue s) = r :: q' ->
  tasks s !! r = Some task -> canceled task = false ->
  is_current s (paneId task) r = true ->
  P (start r (set_queue q' s)).

Hypothesis P_finish : forall s r,
  P s -> r ∈ started s -> r ∈ running s -> P (finish r s).

Lemma pump_loop_preserves fuel : forall s, P s -> P (pump_loop fuel s).
Proof.
  induction fuel as [| fuel IH]; intros s HP; cbn [pump_loop]; [assumption |].
  destruct (may_pump s) eqn:Hmay; [| assumption].
  destruct (sort (tasks s) (queue s)) as [| r q'] eqn:Hsort.
  { exfalso. apply (f_equal length) in Hsort.
    rewrite sort_length in Hsort. unfold may_pump in Hmay.
    apply andb_true_iff in Hmay as [_ Hq]. apply Nat.ltb_lt in Hq.
    cbn in Hsort. lia. }
  cbn [tasks set_queue].
  destruct (tasks s !! r) as [task |] eqn:Htask.
  - destruct (canceled task) eqn:Hc.
    + apply IH. eapply P_skip; eauto.
      intros t Ht. left. congruence.
    + destruct (is_current (set_queue q' s) (paneId task) r) eqn:Hcur; cbn [negb].
      * assert (HPs : P (start r (set_queue q' s)))
          by (eapply P_start; eauto; exact Hcur).
        destruct (run task).
        -- apply IH, IH. apply P_finish; [assumption | |];
             cbn; apply elem_of_app; right; apply list_elem_of_singleton;
             reflexivity.
        -- apply IH. assumption.
      * apply IH. eapply P_skip; eauto.
        intros t Ht. right. assert (t = task) as -> by congruence.
        exact Hcur.
  - apply IH. eapply P_skip; eauto. intros t Ht. congruence.
Qed.

Lemma pump_preserves s : P s -> P (pump s).
Proof. apply pump_loop_preserves. Qed.
End PumpInduction.

Lemma queue_finish r s : queue (finish r s) = queue s.
Proof.
  unfold finish, clear_if_current. now destruct (is_current _ _ _).
Qed.

Lemma pump_loop_stopped fuel s : may_pump s = false -> pump_loop fuel s = s.
Proof. intros H. destruct fuel; cbn [pump_loop]; [reflexivity | now rewrite H]. Qed.

(** With the queue's length as fuel the loop stops because its condition
    fails, not because the fuel is used up. *)
Lemma pump_loop_exits fuel : forall s,
  length (queue s) <= fuel ->
  may_pump (pump_loop fuel s) = false /\
  length (queue (pump_loop fuel s)) <= length (queue s).
Proof.
  induction fuel as [| fuel IH]; intros s Hlen; cbn [pump_loop].
  - split; [| lia]. unfold may_pump.
    replace (length (queue s)) with 0 by lia. cbn. apply andb_false_r.
  - destruct (may_pump s) eqn:Hmay; [| split; [assumption | lia]].
    destruct (sort (tasks s) (queue s)) as [| r q'] eqn:Hsort.
    { exfalso. apply (f_equal length) in Hsort.
      rewrite sort_length in Hsort. unfold may_pump in Hmay.
      apply andb_true_iff in Hmay as [_ Hq]. apply Nat.ltb_lt in Hq.
      cbn in Hsort. lia. }
    assert (Hq' : S (length q') = length (queue s)).
    { apply (f_equal length) in Hsort. rewrite sort_length in Hsort.
      cbn in Hsort. lia. }
    assert (Hskip : may_pump (pump_loop fuel (set_queue q' s)) = false /\
                    length (queue (pump_loop fuel (set_queue q' s)))
                    <= length (queue s)).
    { destruct (IH (set_queue q' s)) as [H1 H2]; [cbn; lia |].
      split; [assumption | cbn in H2; lia]. }
    cbn [tasks set_queue].
    destruct (tasks s !! r) as [task |]; [| exact Hskip].
    destruct (canceled task); [exact Hskip |].
    destruct (is_current (set_queue q' s) (paneId task) r); cbn [negb];
      [| exact Hskip].
    destruct (run task).
    + set (s1 := finish r (start r (set_queue q' s))).
      assert (Hs1 : length (queue s1) = length q')
        by (unfold s1; now rewrite queue_finish).
      destruct (IH s1) as [H1 H2]; [lia |].
      assert (Hstop : pump_loop fuel (pump_loop fuel s1) = pump_loop fuel s1).
      { now apply pump_loop_stopped. }
      rewrite Hstop. split; [assumption | lia].
    + set (s1 := start r (set_queue q' s)).
      assert (Hs1 : length (queue s1) = length q') by reflexivity.
      destruct (IH s1) as [H1 H2]; [lia |].
      split; [assumption | lia].
Qed.

Lemma pump_exits s : may_pump (pump s) = false.
Proof. apply pump_loop_exits. reflexivity. Qed.

(** *** The concurrency cap *)

Definition within_cap (s : State) : Prop :=
  (0 <= inFlight s <= MAX_CONCURRENT_ATTACHES)%Z.

Lemma within_cap_finish s r : within_cap s -> within_cap (finish r s).
Proof.
  unfold within_cap, finish, clear_if_current, MAX_CONCURRENT_ATTACHES.
  destruct (is_current _ _ _); cbn; lia.
Qed.

Lemma within_cap_pump s : within_cap s -> within_cap (pump s).
Proof.
  apply pump_preserves.
  - intros s0 r q' H _ _ _. exact H.
  - intros s0 r q' task H Hmay _ _ _ _.
    unfold may_pump in Hmay. apply andb_true_iff in Hmay as [Hlt _].
    apply Z.ltb_lt in Hlt. unfold within_cap in *. cbn. lia.
  - intros s0 r H _ _. now apply within_cap_finish.
Qed.

Lemma within_cap_replace_existing p s :
  within_cap s -> within_cap (replace_existing p s).
Proof. unfold replace_existing. now destruct (pendingByPaneId s !! p). Qed.

Lemma within_cap_cancel r s : within_cap s -> within_cap (cancel r s).
Proof.
  unfold cancel, clear_if_current.
  destruct (tasks s !! r); [| trivial].
  now destruct (is_current _ _ _).
Qed.

Lemma within_cap_step e s : within_cap s -> within_cap (step e s).
Proof.
  intros H. destruct e as [p prio k now | r | r]; cbn [step].
  - unfold scheduleTerminalAttach, enqueue.
    apply within_cap_pump. cbn. now apply within_cap_replace_existing.
  - now apply within_cap_cancel.
  - destruct (bool_decide _); [| assumption].
    unfold done. now apply within_cap_pump, within_cap_finish.
Qed.

Lemma within_cap_exec es : forall s, within_cap s -> within_cap (exec es s).
Proof.
  induction es as [| e es IH]; intros s H; cbn; [assumption |].
  now apply IH, within_cap_step.
Qed.

(** *** Running tasks and the counter *)

Definition counted (s : State) : Prop :=
  within_cap s /\ Z.of_nat (length (running s)) = inFlight s.

Lemma remove_first_length r l :
  r ∈ l -> S (length (remove_first r l)) = length l.
Proof.
  intros Hin. unfold remove_first.
  destruct (list_find_elem_of (fun x => x = r) l r Hin eq_refl) as [[i x] Hf].
  rewrite Hf. apply list_find_Some in Hf as (Hi & _ & _).
  pose proof (lookup_lt_Some _ _ _ Hi) as Hlt.
  rewrite length_delete; [lia | eauto].
Qed.

Lemma running_finish r s :
  running (finish r s) = remove_first r (running s).
Proof.
  unfold finish, clear_if_current. now destruct (is_current _ _ _).
Qed.

Lemma inFlight_finish r s :
  inFlight (finish r s) = Z.max 0 (inFlight s - 1).
Proof.
  unfold finish, clear_if_current. now destruct (is_current _ _ _).
Qed.

Lemma counted_finish r s : r ∈ running s -> counted s -> counted (finish r s).
Proof.
  intros Hin [Hcap Hlen]. split; [now apply within_cap_finish |].
  rewrite running_finish, inFlight_finish.
  pose proof (remove_first_length r (running s) Hin). lia.
Qed.

Lemma counted_pump s : counted s -> counted (pump s).
Proof.
  apply pump_preserves.
  - intros s0 r q' H _ _ _. exact H.
  - intros s0 r q' task [Hcap Hlen] Hmay _ _ _ _.
    unfold may_pump in Hmay. apply andb_true_iff in Hmay as [Hlt _].
    apply Z.ltb_lt in Hlt. unfold counted, within_cap in *. cbn.
    rewrite length_app. cbn. lia.
  - intros s0 r H _ Hin. now apply counted_finish.
Qed.

Lemma counted_replace_existing p s : counted s -> counted (replace_existing p s).
Proof. unfold replace_existing. now destruct (pendingByPaneId s !! p). Qed.

Lemma counted_cancel r s : counted s -> counted (cancel r s).
Proof.
  unfold cancel, clear_if_current.
  destruct (tasks s !! r); [| trivial].
  now destruct (is_current _ _ _).
Qed.

Lemma counted_exec es : forall s,
  counted s -> disciplined es s = true -> counted (exec es s).
Proof.
  induction es as [| e es IH]; intros s H Hd; cbn; [assumption |].
  cbn in Hd. apply andb_true_iff in Hd as [He Hd].
  apply IH; [| assumption].
  destruct e as [p prio k now | r | r]; cbn [step].
  - unfold scheduleTerminalAttach, enqueue.
    apply counted_pump. apply (counted_replace_existing p) in H. exact H.
  - now apply counted_cancel.
  - apply bool_decide_eq_true in He.
    destruct (bool_decide _); [| assumption].
    unfold done. now apply counted_pump, counted_finish.
Qed.

(** *** Superseded and cancelled tasks *)

(** The pane map only refers to tasks that exist, under their own pane. *)
Definition mapped_ok (s : State) : Prop :=
  forall p r, pendingByPaneId s !! p = Some r ->
    exists t, tasks s !! r = Some t /\ paneId t = p.

(** [r] has not been started and the loop of [pump] would skip it. *)
Definition stale (s : State) (r : nat) : Prop :=
  (r ∉ started s) /\
  (exists t, tasks s !! r = Some t /\
     (canceled t = true \/ pendingByPaneId s !! paneId t <> Some r)).

Lemma lookup_cancel_task (ts : list AttachTask) (r r' : nat) :
  alter cancel_task r' ts !! r =
  (if decide (r' = r) then cancel_task <$> ts !! r else ts !! r).
Proof.
  destruct (decide (r' = r)) as [-> | Hne].
  - apply list_lookup_alter_eq.
  - now apply list_lookup_alter_ne.
Qed.

Lemma mapped_ok_clear p r s : mapped_ok s -> mapped_ok (clear_if_current p r s).
Proof.
  intros H. unfold clear_if_current.
  destruct (is_current s p r); [| assumption].
  intros p' r' Hl. cbn in Hl.
  destruct (decide (p = p')) as [-> | Hne].
  - rewrite lookup_delete_eq in Hl. discriminate.
  - rewrite lookup_delete_ne in Hl by assumption. now apply H.
Qed.

Lemma mapped_ok_finish r s : mapped_ok s -> mapped_ok (finish r s).
Proof.
  intros H. unfold finish.
  set (p := default _ _). pose proof (mapped_ok_clear p r s H) as H'.
  intros p' r' Hl. now apply H'.
Qed.

Lemma mapped_ok_pump s : mapped_ok s -> mapped_ok (pump s).
Proof.
  apply pump_preserves.
  - intros s0 r q' H _ _ _. exact H.
  - intros s0 r q' task H _ _ _ _ _. exact H.
  - intros s0 r H _ _. now apply mapped_ok_finish.
Qed.

Lemma mapped_ok_cancel_flag r s :
  mapped_ok s -> mapped_ok (set_tasks (alter cancel_task r (tasks s)) s).
Proof.
  intros H p r' Hl. cbn in *. destruct (H p r' Hl) as (t & Ht & Hp).
  rewrite lookup_cancel_task. destruct (decide (r = r')).
  - exists (cancel_task t). rewrite Ht. now split.
  - now exists t.
Qed.

Lemma mapped_ok_replace_existing p s :
  mapped_ok s -> mapped_ok (replace_existing p s).
Proof.
  intros H. unfold replace_existing.
  destruct (pendingByPaneId s !! p) as [r |] eqn:E; [| assumption].
  pose proof (mapped_ok_cancel_flag r s H) as H'.
  intros p' r' Hl. cbn in Hl.
  destruct (decide (p = p')) as [-> | Hne].
  - rewrite lookup_delete_eq in Hl. discriminate.
  - rewrite lookup_delete_ne in Hl by assumption. now apply H'.
Qed.

Lemma mapped_ok_cancel r s : mapped_ok s -> mapped_ok (cancel r s).
Proof.
  intros H. unfold cancel. destruct (tasks s !! r); [| assumption].
  now apply mapped_ok_clear, mapped_ok_cancel_flag.
Qed.

Lemma mapped_ok_step e s : mapped_ok s -> mapped_ok (step e s).
Proof.
  intros H. destruct e as [p prio k now | r | r]; cbn [step].
  - unfold scheduleTerminalAttach, enqueue. apply mapped_ok_pump.
    apply (mapped_ok_replace_existing p) in H.
    intros p' r' Hl. cbn in *.
    destruct (decide (p = p')) as [-> | Hne].
    + rewrite lookup_insert_eq in Hl. injection Hl as <-.
      eexists. split; [apply list_lookup_middle; reflexivity | reflexivity].
    + rewrite lookup_insert_ne in Hl by assumption.
      destruct (H p' r' Hl) as (t & Ht & Hp). exists t. split; [| assumption].
      rewrite lookup_app_l; [assumption |]. now apply lookup_lt_Some in Ht.
  - now apply mapped_ok_cancel.
  - destruct (bool_decide _); [| assumption].
    unfold done. now apply mapped_ok_pump, mapped_ok_finish.
Qed.

Lemma mapped_ok_exec es : forall s, mapped_ok s -> mapped_ok (exec es s).
Proof.
  induction es as [| e es IH]; intros s H; cbn; [assumption |].
  now apply IH, mapped_ok_step.
Qed.

Lemma mapped_ok_init : mapped_ok init.
Proof. intros p r H. cbn in H. rewrite lookup_empty in H. discriminate. Qed.

Lemma stale_clear p r' s r : stale s r -> stale (clear_if_current p r' s) r.
Proof.
  intros (Hns & t & Ht & Hs). unfold clear_if_current.
  destruct (is_current s p r'); [| now split; eauto].
  split; [assumption |]. exists t. split; [assumption |].
  destruct Hs as [Hc | Hm]; [now left | right]. cbn.
  destruct (decide (p = paneId t)) as [-> | Hne].
  - rewrite lookup_delete_eq. discriminate.
  - now rewrite lookup_delete_ne.
Qed.

Lemma stale_finish r' s r : stale s r -> stale (finish r' s) r.
Proof.
  intros H. unfold finish. set (p := default _ _).
  destruct (stale_clear p r' s r H) as (Hns & t & Ht & Hs).
  split; [exact Hns |]. exists t. now split.
Qed.

Lemma stale_pump s r : stale s r -> stale (pump s) r.
Proof.
  apply (pump_preserves (fun s => stale s r)).
  - intros s0 r' q' H _ _ _. exact H.
  - intros s0 r' q' task (Hns & t & Ht & Hs) _ _ Htask Hc Hcur.
    split.
    + change (started (start r' (set_queue q' s0))) with (started s0 ++ [r']).
      rewrite elem_of_app, list_elem_of_singleton.
      intros [Hin | ->]; [now apply Hns |].
      assert (t = task) as -> by congruence.
      destruct Hs as [Hs | Hs]; [congruence |].
      apply Hs. unfold is_current in Hcur.
      now apply bool_decide_eq_true in Hcur.
    + exists t. now split.
  - intros s0 r' H _ _. now apply stale_finish.
Qed.

Lemma stale_cancel_flag r' s r :
  stale s r -> stale (set_tasks (alter cancel_task r' (tasks s)) s) r.
Proof.
  intros (Hns & t & Ht & Hs). split; [assumption |]. cbn.
  rewrite lookup_cancel_task. destruct (decide (r' = r)).
  - exists (cancel_task t). rewrite Ht. split; [reflexivity | now left].
  - now exists t.
Qed.

Lemma stale_replace_existing p s r :
  stale s r -> stale (replace_existing p s) r.
Proof.
  intros H. unfold replace_existing.
  destruct (pendingByPaneId s !! p) as [r' |] eqn:E; [| assumption].
  destruct (stale_cancel_flag r' s r H) as (Hns & t & Ht & Hs).
  split; [exact Hns |]. exists t. split; [exact Ht |].
  destruct Hs as [Hc | Hm]; [now left | right]. cbn in *.
  destruct (decide (p = paneId t)) as [-> | Hne].
  - rewrite lookup_delete_eq. discriminate.
  - now rewrite lookup_delete_ne.
Qed.

Lemma stale_enqueue p prio k now s r :
  stale s r -> stale (enqueue p prio k now s) r.
Proof.
  intros (Hns & t & Ht & Hs). unfold enqueue. apply stale_pump.
  split; [exact Hns |]. exists t. cbn.
  pose proof (lookup_lt_Some _ _ _ Ht) as Hlt.
  split; [now rewrite lookup_app_l |].
  destruct Hs as [Hc | Hm]; [now left | right].
  destruct (decide (p = paneId t)) as [-> | Hne].
  - rewrite lookup_insert_eq. intros [= Heq]. lia.
  - now rewrite lookup_insert_ne.
Qed.

Lemma stale_step e s r : stale s r -> stale (step e s) r.
Proof.
  intros H. destruct e as [p prio k now | r' | r']; cbn [step].
  - now apply stale_enqueue, stale_replace_existing.
  - unfold cancel. destruct (tasks s !! r'); [| assumption].
    now apply stale_clear, stale_cancel_flag.
  - destruct (bool_decide _); [| assumption].
    unfold done. now apply stale_pump, stale_finish.
Qed.

Lemma stale_exec es : forall s r, stale s r -> stale (exec es s) r.
Proof.
  induction es as [| e es IH]; intros s r H; cbn; [assumption |].
  now apply IH, stale_step.
Qed.

Lemma started_replace_existing p s :
  started (replace_existing p s) = started s.
Proof. unfold replace_existing. now destruct (pendingByPaneId s !! p). Qed.

(** Ten panes ask for an attach at the same instant, all at priority 0. *)
Definition pane (i : nat) : string := String (ascii_of_nat (65 + i)) EmptyString.

Definition ten_requests : list Event :=
  map (fun i => Schedule (pane i) 0 CompletesLater 0) (seq 0 10).

(** C5: the counter of running attaches stays within the cap of 3 whatever
    is scheduled, cancelled or completed; and as long as no completion
    callback is called twice the counter is the number of tasks that are
    running, so that at most 3 run at any instant. *)
Theorem inFlight_never_exceeds_cap (es : list Event) :
  (0 <= inFlight (exec es init) <= 3)%Z /\
  (disciplined es init = true ->
   Z.of_nat (length (running (exec es init))) = inFlight (exec es init) /\
   length (running (exec es init)) <= 3).
Proof.
  assert (H0 : counted init).
  { split; [| reflexivity].
    unfold within_cap, MAX_CONCURRENT_ATTACHES. cbn. lia. }
  split.
  - apply (within_cap_exec es init), H0.
  - intros Hd. destruct (counted_exec es init H0 Hd) as [[_ Hcap] Hlen].
    unfold MAX_CONCURRENT_ATTACHES in Hcap. split; [assumption | lia].
Qed.

Lemma inFlight_never_exceeds_cap_witness :
  disciplined ten_requests init = true /\
  running (exec ten_requests init) = [0; 1; 2] /\
  length (running (exec ten_requests init)) <= 3.
Proof.
  split; [vm_compute; reflexivity |].
  split; [vm_compute; reflexivity |].
  apply (inFlight_never_exceeds_cap ten_requests).
  vm_compute. reflexivity.
Defined.

(** C6: replacing the pending task of a pane cancels it and drops its
    mapping before the new task is queued; the superseded task is never
    run afterwards, and neither is any task that is cancelled or is not
    the task its pane maps to. *)
Theorem superseded_task_never_runs
    (es es' : list Event) (p : string) (prio now : Z) (k : RunKind)
    (old : nat) :
  pendingByPaneId (exec es init) !! p = Some old ->
  old ∉ started (exec es init) ->
  (canceled <$> tasks (replace_existing p (exec es init)) !! old = Some true /\
   pendingByPaneId (replace_existing p (exec es init)) !! p = None) /\
  (old ∉ started (exec es' (scheduleTerminalAttach p prio k now (exec es init)))) /\
  (forall r, stale (exec es init) r -> r ∉ started (exec es' (exec es init))).
Proof.
  intros Hmap Hns.
  destruct (mapped_ok_exec es init mapped_ok_init p old Hmap) as (t & Ht & Hp).
  assert (Hrep : canceled <$> tasks (replace_existing p (exec es init)) !! old
                 = Some true /\
                 pendingByPaneId (replace_existing p (exec es init)) !! p = None).
  { unfold replace_existing. rewrite Hmap. cbn. split.
    - rewrite list_lookup_alter_eq, Ht. reflexivity.
    - apply lookup_delete_eq. }
  split; [exact Hrep |]. split.
  - assert (Hst : stale (replace_existing p (exec es init)) old).
    { split; [now rewrite started_replace_existing |].
      destruct Hrep as [Hc _].
      destruct (tasks (replace_existing p (exec es init)) !! old) as [t' |];
        [| discriminate].
      exists t'. split; [reflexivity | left]. now injection Hc. }
    apply (stale_exec es'). unfold scheduleTerminalAttach.
    now apply stale_enqueue.
  - intros r Hr. now apply (stale_exec es').
Qed.

(** Four panes fill the cap and queue one request; pane D asks again while
    its first request is still queued. *)
Definition resubmission : list Event :=
  [ Schedule "A" 0 CompletesLater 0; Schedule "B" 0 CompletesLater 1;
    Schedule "C" 0 CompletesLater 2; Schedule "D" 0 CompletesLater 3 ].

Lemma superseded_task_never_runs_witness :
  pendingByPaneId (exec resubmission init) !! "D" = Some 3 /\
  (3 ∉ started (exec [Done 0; Done 1; Done 2]
                  (scheduleTerminalAttach "D" 0 CompletesLater 4
                     (exec resubmission init)))) /\
  started (exec [Done 0; Done 1; Done 2]
             (scheduleTerminalAttach "D" 0 CompletesLater 4
                (exec resubmission init))) = [0; 1; 2; 4].
Proof.
  assert (Hmap : pendingByPaneId (exec resubmission init) !! "D" = Some 3)
    by (vm_compute; reflexivity).
  assert (Hns : 3 ∉ started (exec resubmission init)).
  { vm_compute. intros H.
    repeat (apply elem_of_cons in H as [H | H]; [discriminate |]).
    now apply elem_of_nil in H. }
  pose proof (superseded_task_never_runs resubmission [Done 0; Done 1; Done 2]
                "D" 0 4 CompletesLater 3 Hmap Hns) as (_ & Hnever & _).
  split; [exact Hmap |].
  split; [exact Hnever | vm_compute; reflexivity].
Defined.


End SchedulerFacts.

(** ** Facts about the terminal manager *)
Module ManagerFacts.
Import Manager.

(** A session as [setupPersistentSessionWithLifecycle] registers it. *)
Definition persistent_session (pane : string) (p : nat) : TerminalSession :=
  {| pty := p; paneId := pane; workspaceId := "w1"; cols := 80; rows := 24;
     lastActive := 0; scrollback := Sanitizer.str "$ "; isAlive := true;
     wasRecovered := true; shell := "/bin/zsh"; startTime := 0;
     usedFallback := false; isPersistentBackend := true;
     isExpectedDetach := false; deleteHistoryOnExit := false;
     historyWriter := true |}.

(** A manager with one alive session for pane [p1] whose lifecycle is
    attached to PTY 1. *)
Definition attached_manager : TerminalManager :=
  set_lifecycles
    {[ "p1"%string := Lifecycle.run LifecycleFacts.attach_ok
                        Lifecycle.new_SessionLifecycle ]}
    (set_sessions {[ "p1"%string := 0 ]}
       (set_objects [persistent_session "p1" 1] new_TerminalManager)).

(** The PTY exited and the re-attach is waiting for its back-off. *)
Definition reconnecting_manager : TerminalManager :=
  fold_left (fun m e => lifecycle_event "p1" e m)
    [Lifecycle.PtyExit 1; Lifecycle.Resume 0 (Lifecycle.Resolved_bool true)]
    attached_manager.

(** The re-attach was rejected: the lifecycle is [failed], the session
    still counts as alive. *)
Definition failed_manager : TerminalManager :=
  fold_left (fun m e => lifecycle_event "p1" e m)
    (LifecycleFacts.exit_then_backoff ++ LifecycleFacts.attach_rejected)
    attached_manager.

Lemma get_session_update pane r f m s :
  get_session pane m = Some (r, s) ->
  get_session pane (update r f m) = Some (r, f s).
Proof.
  unfold get_session. cbn.
  destruct (sessions m !! pane) as [r' |]; [| discriminate].
  destruct (objects m !! r') as [s' |] eqn:E; [| discriminate].
  intros [= -> ->]. now rewrite list_lookup_alter_eq, E.
Qed.

Definition reconnecting_lifecycle : Lifecycle.SessionLifecycle :=
  Lifecycle.run
    (LifecycleFacts.attach_ok ++
     [Lifecycle.PtyExit 1; Lifecycle.Resume 0 (Lifecycle.Resolved_bool true)])
    Lifecycle.new_SessionLifecycle.

Definition failed_lifecycle : Lifecycle.SessionLifecycle :=
  Lifecycle.run
    (LifecycleFacts.attach_ok ++ LifecycleFacts.exit_then_backoff ++
     LifecycleFacts.attach_rejected)
    Lifecycle.new_SessionLifecycle.

(** With a lifecycle registered for the pane of an alive session, [write]
    throws at [lifecycle.canWrite()], whatever the state of the lifecycle;
    nothing is written, dropped or logged. *)
Lemma write_with_lifecycle_throws pane data now m r s l :
  get_session pane m = Some (r, s) -> isAlive s = true ->
  lifecycles m !! pane = Some l ->
  write pane data now m = inr (Not_a_function "lifecycle.canWrite").
Proof.
  intros Hs Halive Hl. unfold write. now rewrite Hs, Halive, Hl.
Qed.

(** Without a lifecycle the data goes to the PTY of the alive session. *)
Lemma write_without_lifecycle pane data now m r s :
  get_session pane m = Some (r, s) -> isAlive s = true ->
  lifecycles m !! pane = None ->
  write pane data now m
  = inl (update r (set_lastActive now) (effect (Pty_write (pty s) data) m)).
Proof.
  intros Hs Halive Hl. unfold write. now rewrite Hs, Halive, Hl.
Qed.

Lemma write_not_found pane data now m :
  (forall r s, get_session pane m = Some (r, s) -> isAlive s = false) ->
  write pane data now m = inr (Session_not_found pane).
Proof.
  intros Hdead. unfold write.
  destruct (get_session pane m) as [[r s] |]; [| reflexivity].
  now rewrite (Hdead r s eq_refl).
Qed.

(** C3, on the failing input: the session of [p1] is alive and its
    lifecycle is reconnecting, and [write] throws the [TypeError] of
    [lifecycle.canWrite()] where the claim has it return without writing;
    it throws the same for a connected and for a failed lifecycle, where
    the claim has it write or throw "cannot write".  Only the "not found"
    part of the claim holds. *)
Theorem write_throws_at_canWrite :
  (get_session "p1" reconnecting_manager
   = Some (0, persistent_session "p1" 1) /\
   lifecycles reconnecting_manager !! "p1"%string
   = Some reconnecting_lifecycle /\
   Lifecycle.getState reconnecting_lifecycle = Lifecycle.reconnecting) /\
  write "p1" (Sanitizer.str "ls") 5 reconnecting_manager
  = inr (Not_a_function "lifecycle.canWrite") /\
  write "p1" (Sanitizer.str "ls") 5 attached_manager
  = inr (Not_a_function "lifecycle.canWrite") /\
  write "p1" (Sanitizer.str "ls") 5 failed_manager
  = inr (Not_a_function "lifecycle.canWrite") /\
  write "p2" (Sanitizer.str "ls") 5 failed_manager
  = inr (Session_not_found "p2").
Proof.
  split; [split; [| split]; vm_compute; reflexivity |].
  split; [vm_compute; reflexivity |].
  split; [vm_compute; reflexivity |].
  split; vm_compute; reflexivity.
Qed.

(** *** createOrAttach *)

Definition is_spawn (e : Effect) : bool :=
  match e with Pty_spawn _ _ => true | _ => false end.

Definition is_attach (e : Lifecycle.Effect) : bool :=
  match e with Lifecycle.AttachSessionCall _ _ => true | _ => false end.

(** Processes created for [pane] so far: shells spawned by the manager and
    attach clients requested from the backend by the pane's lifecycle. *)
Definition processes_created (pane : string) (m : TerminalManager) : nat :=
  length (List.filter is_spawn (effects m)) +
  match lifecycles m !! pane with
  | Some l => length (List.filter is_attach (Lifecycle.trace l))
  | None => 0
  end.

(** No creation was started between [m] and [m']. *)
Definition no_creation (m m' : TerminalManager) : Prop :=
  creations m' = creations m /\ pendingSessions m' = pendingSessions m.

Lemma no_creation_refl m : no_creation m m.
Proof. now split. Qed.

Lemma no_creation_trans m1 m2 m3 :
  no_creation m1 m2 -> no_creation m2 m3 -> no_creation m1 m3.
Proof. intros [H1 H2] [H3 H4]. split; congruence. Qed.

Lemma no_creation_settle_kill k b m : no_creation m (settle_kill k b m).
Proof.
  unfold settle_kill. destruct (kills m !! k) as [op |]; [| apply no_creation_refl].
  destruct (resolved op); now split.
Qed.

Lemma no_creation_notify_exit pane m : no_creation m (notify_exit pane m).
Proof.
  unfold notify_exit. induction (seq 0 (length (kills m))) as [| k ks IH]; cbn.
  - apply no_creation_refl.
  - eapply no_creation_trans; [exact IH |].
    destruct (kills _ !! k) as [op |]; [| apply no_creation_refl].
    destruct (listening op && _); [apply no_creation_settle_kill | apply no_creation_refl].
Qed.

Lemma no_creation_handle pane st prev m :
  no_creation m (handleLifecycleStateChange pane st prev m).
Proof.
  unfold handleLifecycleStateChange, emit_exit.
  destruct (get_session pane m) as [[r s] |]; destruct st, prev;
    cbn -[notify_exit];
    repeat match goal with
      | |- no_creation _ (notify_exit _ _) =>
          eapply no_creation_trans; [| apply no_creation_notify_exit]
      | |- context [lifecycles ?m0 !! ?p] =>
          destruct (lifecycles m0 !! p) as [l |]
      | |- context [Lifecycle.getPty ?l] => destruct (Lifecycle.getPty l)
      end;
    now split.
Qed.

Lemma no_creation_deliver pane es : forall m, no_creation m (deliver pane es m).
Proof.
  unfold deliver. induction es as [| e es IH]; intros m; cbn.
  - apply no_creation_refl.
  - eapply no_creation_trans; [| apply IH].
    destruct e; try apply no_creation_refl. apply no_creation_handle.
Qed.

Lemma no_creation_with_lifecycle {A} pane
    (f : Lifecycle.SessionLifecycle -> Lifecycle.SessionLifecycle * A) m :
  no_creation m (fst (with_lifecycle pane f m)).
Proof.
  unfold with_lifecycle. destruct (lifecycles m !! pane) as [l |];
    [| apply no_creation_refl].
  destruct (f l) as [l' a]. cbn.
  eapply no_creation_trans; [| apply no_creation_deliver]. now split.
Qed.

Lemma resize_trace c r l :
  List.filter is_attach (Lifecycle.trace (Lifecycle.resize c r l))
  = List.filter is_attach (Lifecycle.trace l).
Proof.
  unfold Lifecycle.resize, Lifecycle.try_resize. cbn.
  destruct (bool_decide _); [| reflexivity].
  destruct (Lifecycle.ptyProcess l); [| reflexivity].
  cbn. rewrite List.filter_app. cbn. apply app_nil_r.
Qed.

Lemma get_session_object pane m r s :
  get_session pane m = Some (r, s) -> objects m !! r = Some s.
Proof.
  unfold get_session. destruct (sessions m !! pane) as [r' |]; [| discriminate].
  destruct (objects m !! r') as [s' |] eqn:E; [| discriminate].
  now intros [= <- <-].
Qed.

(** What [resize] leaves alone. *)
Lemma resize_keeps pane c rw now m r s :
  get_session pane m = Some (r, s) ->
  let m' := resize pane c rw now m in
  no_creation m m' /\
  processes_created pane m' = processes_created pane m /\
  pty <$> objects m' !! r = Some (pty s) /\
  scrollback <$> objects m' !! r = Some (scrollback s) /\
  wasRecovered <$> objects m' !! r = Some (wasRecovered s).
Proof.
  intros Hs. pose proof (get_session_object _ _ _ _ Hs) as Hobj.
  assert (Hsame : no_creation m m /\
            processes_created pane m = processes_created pane m /\
            pty <$> objects m !! r = Some (pty s) /\
            scrollback <$> objects m !! r = Some (scrollback s) /\
            wasRecovered <$> objects m !! r = Some (wasRecovered s))
    by (rewrite Hobj; repeat split).
  unfold resize. cbn zeta.
  destruct (Z.leb c 0 || Z.leb rw 0); [exact Hsame |].
  rewrite Hs. destruct (negb (isAlive s)); [exact Hsame |].
  unfold processes_created.
  destruct (lifecycles m !! pane) as [l |] eqn:Hl; cbn.
  - rewrite lookup_insert_eq, resize_trace, list_lookup_alter_eq, Hobj.
    repeat split.
  - rewrite Hl, list_lookup_alter_eq, Hobj, List.filter_app. cbn.
    rewrite app_nil_r. repeat split.
Qed.

Lemma answer_existing_keeps params r now m s :
  get_session (params_paneId params) m = Some (r, s) ->
  no_creation m (fst (answer_existing params r now m)) /\
  processes_created (params_paneId params) (fst (answer_existing params r now m))
  = processes_created (params_paneId params) m /\
  pty <$> objects (fst (answer_existing params r now m)) !! r = Some (pty s) /\
  snd (answer_existing params r now m)
  = {| isNew := false; result_scrollback := scrollback s;
       result_wasRecovered := wasRecovered s |}.
Proof.
  intros Hs. unfold answer_existing. cbn zeta.
  pose proof (get_session_update _ r (set_lastActive now) m s Hs) as Hs1.
  pose proof (get_session_object _ _ _ _ Hs1) as Hobj1.
  destruct (params_cols params) as [c |], (params_rows params) as [rw |];
    cbn [fst snd].
  2-4: (rewrite Hobj1; repeat split).
  destruct (resize_keeps (params_paneId params) c rw now _ r _ Hs1)
    as ([Hn1 Hn2] & Hp & Hpty & Hsb & Hwr).
  split; [| split; [| split]].
  - split; [exact Hn1 | exact Hn2].
  - exact Hp.
  - exact Hpty.
  - destruct (objects (resize _ c rw now _) !! r) as [s' |]; [| discriminate].
    cbn in Hsb, Hwr |- *. injection Hsb as ->. injection Hwr as ->. reflexivity.
Qed.

(** With an alive session and nothing pending the call answers
    [{isNew: false}] with the session's scrollback and recovery flag; it
    starts no creation and, unless the lifecycle is [failed], creates no
    process. *)
Lemma createOrAttach_alive (m : TerminalManager)
    (params : CreateSessionParams) (now : Z) (r : nat) (s : TerminalSession) :
  pendingSessions m !! params_paneId params = None ->
  get_session (params_paneId params) m = Some (r, s) ->
  isAlive s = true ->
  (forall l, lifecycles m !! params_paneId params = Some l ->
             Lifecycle.state l <> Lifecycle.failed) ->
  exists m',
    createOrAttach params now m
    = (m', Return_existing
             {| isNew := false; result_scrollback := scrollback s;
                result_wasRecovered := wasRecovered s |}) /\
    no_creation m m' /\
    processes_created (params_paneId params) m'
    = processes_created (params_paneId params) m /\
    pty <$> objects m' !! r = Some (pty s).
Proof.
  intros Hp Hs Halive Hl. unfold createOrAttach.
  rewrite Hp, Hs, Halive.
  destruct (answer_existing_keeps params r now m s Hs) as (Hn & Hc & Hpty & Hres).
  destruct (answer_existing params r now m) as [m' res] eqn:E. cbn in *.
  exists m'. subst res.
  destruct (lifecycles m !! params_paneId params) as [l |] eqn:El.
  - unfold Lifecycle.getState.
    rewrite bool_decide_eq_false_2 by (now apply Hl).
    repeat split; assumption || apply Hn.
  - repeat split; assumption || apply Hn.
Qed.

(** With an alive session whose lifecycle is [failed] the call first
    awaits [lifecycle.retry()] and then answers [{isNew: false}]. *)
Lemma createOrAttach_failed (m : TerminalManager)
    (params : CreateSessionParams) (now : Z) (r : nat) (s : TerminalSession)
    (l : Lifecycle.SessionLifecycle) :
  pendingSessions m !! params_paneId params = None ->
  get_session (params_paneId params) m = Some (r, s) ->
  isAlive s = true ->
  lifecycles m !! params_paneId params = Some l ->
  Lifecycle.state l = Lifecycle.failed ->
  exists m',
    createOrAttach params now m = (m', Await_retry r) /\
    no_creation m m' /\
    forall reattached now' m'' s',
      get_session (params_paneId params) m'' = Some (r, s') ->
      snd (createOrAttach_after_retry params r reattached now' m'')
      = {| isNew := false; result_scrollback := scrollback s';
           result_wasRecovered := wasRecovered s' |}.
Proof.
  intros Hp Hs Halive Hl Hst. unfold createOrAttach.
  rewrite Hp, Hs, Halive, Hl. unfold Lifecycle.getState.
  rewrite bool_decide_eq_true_2 by assumption.
  eexists. split; [reflexivity |]. split.
  - apply no_creation_with_lifecycle.
  - intros reattached now' m'' s' Hs'. unfold createOrAttach_after_retry.
    set (m1 := if reattached then _ else m'').
    assert (exists s1, get_session (params_paneId params) m1 = Some (r, s1) /\
                       scrollback s1 = scrollback s' /\
                       wasRecovered s1 = wasRecovered s') as (s1 & Hs1 & Hsb & Hwr).
    { unfold m1. destruct reattached; [| now exists s'].
      destruct (lifecycles m'' !! params_paneId params) as [l' |]; [| now exists s'].
      destruct (Lifecycle.getPty l') as [p |]; [| now exists s'].
      exists (set_pty p s'). split; [now apply get_session_update | now split]. }
    destruct (answer_existing_keeps params r now' m1 s1 Hs1) as (_ & _ & _ & ->).
    now rewrite Hsb, Hwr.
Qed.

Definition params_p1 : CreateSessionParams :=
  {| params_paneId := "p1"; params_workspaceId := "w1";
     params_cols := Some 100%Z; params_rows := Some 30%Z;
     existingScrollback := None; useFallbackShell := false |}.

(** The same call on a session whose lifecycle has failed, with a backend
    that now lets the attach through. *)
Definition retried_attach : TerminalManager * SessionResult :=
  let '(m1, _) := createOrAttach params_p1 7 failed_manager in
  let m2 := lifecycle_event "p1"
              (Lifecycle.Resume 0 (Lifecycle.Resolved_bool true)) m1 in
  let m3 := lifecycle_event "p1"
              (Lifecycle.Resume 0 (Lifecycle.Resolved_pty 9)) m2 in
  createOrAttach_after_retry params_p1 0 true 9 m3.

(** C1, as stated, fails: the session for [p1] is alive and nothing is
    pending, the call answers [{isNew: false}], and yet a new attach
    client was requested and became the session's PTY. *)
Lemma createOrAttach_may_attach_new_process :
  (pendingSessions failed_manager !! "p1"%string = None /\
   isAlive <$> (snd <$> get_session "p1" failed_manager) = Some true) /\
  isNew (snd retried_attach) = false /\
  processes_created "p1" (fst retried_attach)
  = S (processes_created "p1" failed_manager) /\
  pty <$> objects failed_manager !! 0 = Some 1 /\
  pty <$> objects (fst retried_attach) !! 0 = Some 9.
Proof. vm_compute. repeat split. Qed.

(** *** Shell-crash fallback *)

Definition is_exit (e : Effect) : bool :=
  match e with Emit_exit _ _ _ => true | _ => false end.

Definition is_history (e : Effect) : bool :=
  match e with History_close _ _ | History_cleanup _ => true | _ => false end.

Lemma effects_settle_kill k b m : effects (settle_kill k b m) = effects m.
Proof.
  unfold settle_kill. destruct (kills m !! k) as [op |]; [| reflexivity].
  now destruct (resolved op).
Qed.

Lemma effects_notify_exit pane m : effects (notify_exit pane m) = effects m.
Proof.
  unfold notify_exit. induction (seq 0 (length (kills m))) as [| k ks IH]; cbn.
  - reflexivity.
  - destruct (kills _ !! k) as [op |]; [| exact IH].
    destruct (listening op && _); [| exact IH].
    now rewrite effects_settle_kill.
Qed.

Lemma objects_settle_kill k b m : objects (settle_kill k b m) = objects m.
Proof.
  unfold settle_kill. destruct (kills m !! k) as [op |]; [| reflexivity].
  now destruct (resolved op).
Qed.

Lemma objects_notify_exit pane m : objects (notify_exit pane m) = objects m.
Proof.
  unfold notify_exit. induction (seq 0 (length (kills m))) as [| k ks IH]; cbn.
  - reflexivity.
  - destruct (kills _ !! k) as [op |]; [| exact IH].
    destruct (listening op && _); [| exact IH].
    now rewrite objects_settle_kill.
Qed.

(** [closeSessionHistory] only touches the history. *)
Lemma closeSessionHistory_effects r e m :
  exists hs, effects (closeSessionHistory r e m) = effects m ++ hs /\
             forallb is_history hs = true.
Proof.
  unfold closeSessionHistory. destruct (objects m !! r) as [s |].
  - destruct (deleteHistoryOnExit s), (historyWriter s); cbn.
    + rewrite <- app_assoc. eexists. split; reflexivity.
    + eexists. split; reflexivity.
    + eexists. split; reflexivity.
    + exists []. now rewrite app_nil_r.
  - exists []. now rewrite app_nil_r.
Qed.

Lemma filter_history_nil (f : Effect -> bool) hs :
  (forall e, is_history e = true -> f e = false) ->
  forallb is_history hs = true -> List.filter f hs = [].
Proof.
  intros Hf. induction hs as [| h hs IH]; cbn; [reflexivity |].
  intros H. apply andb_true_iff in H as [Hh Hhs].
  rewrite (Hf h Hh). now apply IH.
Qed.

Lemma closeSessionHistory_filter (f : Effect -> bool) r e m :
  (forall x, is_history x = true -> f x = false) ->
  List.filter f (effects (closeSessionHistory r e m))
  = List.filter f (effects m).
Proof.
  intros Hf. destruct (closeSessionHistory_effects r e m) as (hs & -> & Hhs).
  rewrite List.filter_app, (filter_history_nil f hs Hf Hhs). apply app_nil_r.
Qed.

Lemma history_not_spawn e : is_history e = true -> is_spawn e = false.
Proof. now destruct e. Qed.

Lemma history_not_exit e : is_history e = true -> is_exit e = false.
Proof. now destruct e. Qed.

Lemma closeSessionHistory_objects_length r e m :
  length (objects (closeSessionHistory r e m)) = length (objects m).
Proof.
  unfold closeSessionHistory. destruct (objects m !! r) as [s |]; [| reflexivity].
  destruct (deleteHistoryOnExit s), (historyWriter s); cbn;
    rewrite ?length_alter; reflexivity.
Qed.

Section Fallback.

Variable FALLBACK_SHELL : string.
Variable defaultShell : string.
Variable SHELL_CRASH_THRESHOLD_MS : Z.

(** The exits the fallback policy is for. *)
Definition crashed_young (session : TerminalSession) (exitCode now : Z) : bool :=
  negb (isPersistentBackend session)
  && Z.ltb (now - startTime session) SHELL_CRASH_THRESHOLD_MS
  && negb (Z.eqb exitCode 0)
  && negb (usedFallback session).

Lemma report_exit_effects r pane exitCode signal now m :
  exists pre,
    effects (report_exit r pane exitCode signal now m)
    = pre ++ [Emit_exit pane exitCode signal] /\
    List.filter is_spawn pre = List.filter is_spawn (effects m).
Proof.
  unfold report_exit, emit_exit. cbn -[notify_exit closeSessionHistory].
  rewrite effects_notify_exit. cbn -[closeSessionHistory].
  eexists. split; [reflexivity |].
  rewrite List.filter_app. cbn. rewrite app_nil_r.
  apply closeSessionHistory_filter, history_not_spawn.
Qed.

Lemma report_exit_objects_length r pane exitCode signal now m :
  length (objects (report_exit r pane exitCode signal now m))
  = length (objects m).
Proof.
  unfold report_exit, emit_exit. cbn -[notify_exit closeSessionHistory].
  rewrite objects_notify_exit. cbn -[closeSessionHistory].
  apply closeSessionHistory_objects_length.
Qed.

(** C9, amended: a session without persistent backend that exits with a
    non-zero code before the crash threshold and has not used the fallback
    shell is respawned with the fallback shell, its scrollback handed over
    as [existingScrollback]; no exit event is emitted when that spawn
    succeeds, and the exit is reported as usual when it throws.  No other
    exit spawns anything. *)
Theorem fallback_respawn (m : TerminalManager) (r : nat)
    (session : TerminalSession) (params : CreateSessionParams)
    (exitCode : Z) (signal : option Z) (now : Z) (disk : list N)
    (spawned : option nat) :
  objects m !! r = Some session ->
  let m' := onExit FALLBACK_SHELL defaultShell SHELL_CRASH_THRESHOLD_MS
              r params exitCode signal now disk spawned m in
  (crashed_young session exitCode now = true ->
   forall p, spawned = Some p ->
     sessions m' !! params_paneId params = Some (length (objects m)) /\
     (exists new,
        objects m' !! length (objects m) = Some new /\
        pty new = p /\ isAlive new = true /\
        shell new = FALLBACK_SHELL /\ usedFallback new = true /\
        scrollback new
        = fst (recoverScrollback (or_null (scrollback session)) disk) /\
        (scrollback session <> [] ->
         scrollback new
         = Sanitizer.sanitizeTerminalScrollback (scrollback session))) /\
     List.filter is_exit (effects m') = List.filter is_exit (effects m) /\
     List.filter is_spawn (effects m')
     = List.filter is_spawn (effects m) ++ [Pty_spawn p FALLBACK_SHELL]) /\
  (crashed_young session exitCode now = true ->
   spawned = None ->
   (exists pre, effects m'
                = pre ++ [Emit_exit (params_paneId params) exitCode signal]) /\
   List.filter is_spawn (effects m') = List.filter is_spawn (effects m)) /\
  (crashed_young session exitCode now = false ->
   List.filter is_spawn (effects m') = List.filter is_spawn (effects m) /\
   length (objects m') = length (objects m)).
Proof.
  intros Hobj m'. subst m'. unfold onExit, crashed_young. cbn zeta.
  assert (Hobj' : objects (update r (set_isAlive false) m) !! r
                  = Some (set_isAlive false session))
    by (cbn; now rewrite list_lookup_alter_eq, Hobj).
  rewrite Hobj'. cbn [isPersistentBackend isExpectedDetach startTime
                      usedFallback scrollback set_isAlive].
  set (m1 := update r (set_isAlive false) m).
  assert (Hlen1 : length (objects m1) = length (objects m))
    by (cbn; apply length_alter).
  assert (Heff1 : effects m1 = effects m) by reflexivity.
  destruct (isPersistentBackend session) eqn:Hpers; cbn [negb andb].
  { (* persistent backend: never a respawn *)
    split; [discriminate |]. split; [discriminate |]. intros _.
    destruct (isExpectedDetach session).
    - split; [now rewrite Heff1 | exact Hlen1].
    - unfold emit_exit. rewrite effects_notify_exit, objects_notify_exit.
      cbn -[closeSessionHistory]. rewrite !List.filter_app.
      cbn -[closeSessionHistory]. rewrite !app_nil_r.
      rewrite (closeSessionHistory_filter is_spawn) by apply history_not_spawn.
      split; [now rewrite Heff1 |].
      now rewrite closeSessionHistory_objects_length. }
  destruct (Z.ltb (now - startTime session) SHELL_CRASH_THRESHOLD_MS
            && negb (Z.eqb exitCode 0)) eqn:Hquick; cbn [andb].
  2: { split; [discriminate |]. split; [discriminate |]. intros _.
       destruct (report_exit_effects r (params_paneId params) exitCode signal
                   now m1) as (pre & Hpre & Hfil).
       split; [| now rewrite report_exit_objects_length].
       rewrite Hpre, List.filter_app. cbn. now rewrite app_nil_r, Hfil, Heff1. }
  destruct (usedFallback session) eqn:Hused; cbn [negb].
  { split; [discriminate |]. split; [discriminate |]. intros _.
    destruct (report_exit_effects r (params_paneId params) exitCode signal
                now m1) as (pre & Hpre & Hfil).
    split; [| now rewrite report_exit_objects_length].
    rewrite Hpre, List.filter_app. cbn. now rewrite app_nil_r, Hfil, Heff1. }
  set (m2 := delete_session (params_paneId params)
               (closeSessionHistory r (Some exitCode) m1)).
  assert (Hlen2 : length (objects m2) = length (objects m))
    by (cbn; now rewrite closeSessionHistory_objects_length).
  assert (Hsp2 : List.filter is_spawn (effects m2)
                 = List.filter is_spawn (effects m)).
  { cbn. rewrite (closeSessionHistory_filter is_spawn)
      by apply history_not_spawn. now rewrite Heff1. }
  assert (Hex2 : List.filter is_exit (effects m2)
                 = List.filter is_exit (effects m)).
  { cbn. rewrite (closeSessionHistory_filter is_exit)
      by apply history_not_exit. now rewrite Heff1. }
  clearbody m2. split; [| split; [| discriminate]].
  - intros _ p ->. unfold doCreateSession, createSession, with_fallback.
    cbn [useFallbackShell existingScrollback params_paneId params_cols
         params_rows params_workspaceId].
    destruct (recoverScrollback (or_null (scrollback session)) disk)
      as [recovered was] eqn:Hrec.
    cbn. rewrite lookup_insert_eq, Hlen2.
    split; [reflexivity |]. split.
    + eexists. split.
      * rewrite <- Hlen2. apply list_lookup_middle. reflexivity.
      * cbn. repeat split.
        intros Hne. unfold recoverScrollback in Hrec.
        destruct (scrollback session) as [| c tl]; [contradiction |].
        cbn in Hrec. now injection Hrec as <- _.
    + rewrite !List.filter_app. cbn. rewrite app_nil_r.
      split; [exact Hex2 | now rewrite Hsp2].
  - intros _ ->. unfold doCreateSession, createSession.
    destruct (recoverScrollback _ disk) as [recovered was].
    destruct (report_exit_effects r (params_paneId params) exitCode signal
                now m2) as (pre & Hpre & Hfil).
    split; [now exists pre |].
    rewrite Hpre, List.filter_app. cbn. rewrite app_nil_r. congruence.
Qed.

End Fallback.

(** A shell spawned at time 0 for pane [p1], without persistent backend. *)
Definition plain_session : TerminalSession :=
  {| pty := 1; paneId := "p1"; workspaceId := "w1"; cols := 80; rows := 24;
     lastActive := 0; scrollback := Sanitizer.str "hi"; isAlive := true;
     wasRecovered := false; shell := "/bin/zsh"; startTime := 0;
     usedFallback := false; isPersistentBackend := false;
     isExpectedDetach := false; deleteHistoryOnExit := false;
     historyWriter := true |}.

Definition young_manager : TerminalManager :=
  set_exitHandlers [(1, (0, params_p1))]
    (set_sessions {[ "p1"%string := 0 ]}
       (set_objects [plain_session] new_TerminalManager)).

Lemma fallback_respawn_witness :
  sessions (onExit "/bin/sh" "/bin/zsh" 1000 0 params_p1 1 None 150 []
              (Some 2) young_manager) !! "p1"%string = Some 1 /\
  List.filter is_exit
    (effects (onExit "/bin/sh" "/bin/zsh" 1000 0 params_p1 1 None 150 []
                (Some 2) young_manager)) = [] /\
  List.filter is_spawn
    (effects (onExit "/bin/sh" "/bin/zsh" 1000 0 params_p1 1 None 150 []
                (Some 2) young_manager)) = [Pty_spawn 2 "/bin/sh"].
Proof.
  destruct (fallback_respawn "/bin/sh" "/bin/zsh" 1000 young_manager 0
              plain_session params_p1 1 None 150 [] (Some 2) eq_refl)
    as (Hok & _ & _).
  destruct (Hok eq_refl 2 eq_refl) as (Hs & _ & He & Hp).
  split; [exact Hs |]. split; [exact He | exact Hp].
Defined.

(** C9, as stated, fails: the exit qualifies for the fallback, the
    fallback shell cannot be spawned either, and the exit event goes out. *)
Lemma fallback_failure_emits_exit :
  crashed_young 1000 plain_session 1 150 = true /\
  effects (onExit "/bin/sh" "/bin/zsh" 1000 0 params_p1 1 None 150 [] None
             young_manager)
  = [History_close "p1" (Some 1%Z); Ports_remove "p1"; Emit_exit "p1" 1 None].
Proof. vm_compute. split; reflexivity. Qed.

(** *** Escalating kill *)

Lemma kills_update r f m : kills (update r f m) = kills m.
Proof. reflexivity. Qed.

Lemma kills_closeSessionHistory r e m :
  kills (closeSessionHistory r e m) = kills m.
Proof.
  unfold closeSessionHistory. destruct (objects m !! r) as [s |]; [| reflexivity].
  now destruct (deleteHistoryOnExit s), (historyWriter s).
Qed.

Lemma settle_kill_resolves k b m op :
  kills m !! k = Some op -> resolved op = None ->
  exists op', kills (settle_kill k b m) !! k = Some op' /\
              resolved op' = Some b /\ listening op' = false.
Proof.
  intros Hk Hr. unfold settle_kill. rewrite Hk, Hr. cbn.
  exists {| kill_paneId := kill_paneId op; kill_session := kill_session op;
            resolved := Some b; listening := false |}.
  split; [| split; reflexivity].
  apply list_lookup_insert_eq. now apply lookup_lt_Some in Hk.
Qed.

(** After 2 s: a session that still counts as alive gets SIGKILL and half
    a second more. *)
Lemma sigterm_timeout_escalates k now m op s :
  kills m !! k = Some op -> resolved op = None ->
  objects m !! kill_session op = Some s -> isAlive s = true ->
  on_sigterm_timeout k now m
  = set_timers (timers m ++ [((now + 500)%Z, Sigkill_timeout k)])
      (effect (Pty_kill (pty s) (Some "SIGKILL"%string)) m).
Proof.
  intros Hk Hr Hs Ha. unfold on_sigterm_timeout.
  rewrite Hk, Hr, Hs. cbn. now rewrite Ha.
Qed.

(** After 2.5 s: the kill is resolved as failed, and a session that still
    counts as alive is dropped from the registry. *)
Lemma sigkill_timeout_forces k m op :
  kills m !! k = Some op -> resolved op = None ->
  let m' := on_sigkill_timeout k m in
  (exists op', kills m' !! k = Some op' /\ resolved op' = Some false) /\
  (forall s, objects m !! kill_session op = Some s -> isAlive s = true ->
             sessions m' !! kill_paneId op = None).
Proof.
  intros Hk Hr. cbn zeta. unfold on_sigkill_timeout. rewrite Hk, Hr. cbn.
  split.
  - destruct (default false (isAlive <$> objects m !! kill_session op)).
    + destruct (settle_kill_resolves k false
                  (closeSessionHistory (kill_session op) None
                     (delete_session (kill_paneId op)
                        (update (kill_session op) (set_isAlive false) m))) op)
        as (op' & H1 & H2 & _); [| assumption | now exists op'].
      now rewrite kills_closeSessionHistory.
    + destruct (settle_kill_resolves k false m op Hk Hr) as (op' & H1 & H2 & _).
      now exists op'.
  - intros s Hs Ha. rewrite Hs. cbn. rewrite Ha.
    unfold settle_kill. rewrite kills_closeSessionHistory. cbn.
    rewrite Hk, Hr. cbn.
    unfold closeSessionHistory. cbn.
    rewrite list_lookup_alter_eq, Hs. cbn.
    destruct (deleteHistoryOnExit s), (historyWriter s); cbn;
      apply lookup_delete_eq.
Qed.

(** An exit event resolves a kill that is listening for it as killed. *)
Lemma exit_event_resolves pane code sig m k op :
  kills m !! k = Some op -> resolved op = None -> listening op = true ->
  kill_paneId op = pane ->
  (forall j op', j <> k -> kills m !! j = Some op' -> listening op' = false) ->
  exists op', kills (emit_exit pane code sig m) !! k = Some op' /\
              resolved op' = Some true.
Proof.
  intros Hk Hr Hl Hp Hothers. unfold emit_exit, notify_exit.
  set (m0 := effect _ m).
  assert (Hk0 : kills m0 !! k = Some op) by exact Hk.
  assert (Hin : k ∈ seq 0 (length (kills m0)))
    by (apply elem_of_seq; apply lookup_lt_Some in Hk0; lia).
  assert (Hothers0 : forall j op', j <> k -> kills m0 !! j = Some op' ->
                                   listening op' = false) by exact Hothers.
  clearbody m0. revert Hin.
  generalize (seq 0 (length (kills m0))) as ks.
  assert (Hkeep : forall ks, k ∉ ks ->
            foldr (fun k m =>
                     match kills m !! k with
                     | Some op =>
                         if listening op && bool_decide (kill_paneId op = pane)
                         then settle_kill k true m else m
                     | None => m
                     end) m0 ks = m0).
  { induction ks as [| j ks IH]; intros Hn; cbn; [reflexivity |].
    apply not_elem_of_cons in Hn as [Hne Hn]. rewrite (IH Hn).
    destruct (kills m0 !! j) as [op' |] eqn:Ej; [| reflexivity].
    now rewrite (Hothers0 j op' (not_eq_sym Hne) Ej). }
  induction ks as [| j ks IH]; intros Hin; [now apply elem_of_nil in Hin |].
  cbn. destruct (decide (k ∈ ks)) as [Hks | Hks].
  - destruct (IH Hks) as (op' & Hop' & Hres).
    set (m1 := foldr _ m0 ks) in *.
    destruct (decide (j = k)) as [-> | Hne].
    + rewrite Hop'. destruct (listening op' && _).
      * unfold settle_kill. rewrite Hop', Hres. now exists op'.
      * now exists op'.
    + destruct (kills m1 !! j) as [opj |] eqn:Ej; [| now exists op'].
      destruct (listening opj && _); [| now exists op'].
      unfold settle_kill. rewrite Ej.
      destruct (resolved opj); [now exists op' |]. cbn.
      exists op'. split; [| assumption].
      now rewrite list_lookup_insert_ne.
  - apply elem_of_cons in Hin as [<- | Hin]; [| contradiction].
    rewrite (Hkeep ks Hks), Hk0, Hl, Hp, bool_decide_eq_true_2 by reflexivity.
    cbn. destruct (settle_kill_resolves k true m0 op Hk0 Hr) as (op' & H1 & H2 & _).
    now exists op'.
Qed.

(** The shell of [p1] is 100 ms old when its workspace is killed; it exits
    with code 1 at 150 ms, which the fallback policy answers with a
    respawn and no exit event; the SIGTERM timer fires at 2100 ms. *)
Definition kill_meets_fallback : TerminalManager * list nat :=
  let '(m1, ks) := killByWorkspaceId "w1" 100 (fun _ => false) young_manager in
  let m2 := pty_exit "/bin/sh" "/bin/zsh" 1000 1 1 None 150 [] (Some 2) m1 in
  (fire 0 2100 m2, ks).

(** C8, on the failing input: the kill that [killByWorkspaceId] awaits is
    still unresolved after its timer has fired, no timer is left to
    resolve it, no SIGKILL was sent, and the respawned session is alive in
    the registry. *)
Theorem kill_stays_pending_after_silent_exit :
  snd kill_meets_fallback = [0] /\
  killByWorkspaceId_result (snd kill_meets_fallback) (fst kill_meets_fallback)
  = None /\
  kills (fst kill_meets_fallback)
  = [{| kill_paneId := "p1"; kill_session := 0; resolved := None;
        listening := true |}] /\
  timers (fst kill_meets_fallback) = [] /\
  (forall i now, fire i now (fst kill_meets_fallback) = fst kill_meets_fallback) /\
  List.filter (fun e => match e with Pty_kill _ _ => true | _ => false end)
    (effects (fst kill_meets_fallback)) = [Pty_kill 1 None] /\
  isAlive <$> (snd <$> get_session "p1" (fst kill_meets_fallback)) = Some true.
Proof.
  assert (Ht : timers (fst kill_meets_fallback) = []) by (vm_compute; reflexivity).
  split; [vm_compute; reflexivity |].
  split; [vm_compute; reflexivity |].
  split; [vm_compute; reflexivity |].
  split; [exact Ht |].
  split; [| split; vm_compute; reflexivity].
  intros i now. unfold fire. now rewrite Ht.
Qed.

(** A shell that ignores SIGTERM and dies of SIGKILL at 2150 ms. *)
Definition kill_ignoring_sigterm : TerminalManager * list nat :=
  let '(m1, ks) := killByWorkspaceId "w1" 100 (fun _ => false) young_manager in
  let m2 := fire 0 2100 m1 in
  (pty_exit "/bin/sh" "/bin/zsh" 1000 1 0 (Some 9%Z) 2150 [] None m2, ks).

Example ignoring_sigterm_is_killed :
  killByWorkspaceId_result (snd kill_ignoring_sigterm)
    (fst kill_ignoring_sigterm) = Some (1, 0) /\
  List.filter (fun e => match e with Pty_kill _ _ => true | _ => false end)
    (effects (fst kill_ignoring_sigterm))
  = [Pty_kill 1 None; Pty_kill 1 (Some "SIGKILL"%string)].
Proof. split; vm_compute; reflexivity. Qed.

(** A process that outlives SIGKILL as well: both timers fire. *)
Definition kill_unkillable : TerminalManager * list nat :=
  let '(m1, ks) := killByWorkspaceId "w1" 100 (fun _ => false) young_manager in
  (fire 0 2600 (fire 0 2100 m1), ks).

Example unkillable_is_forced :
  killByWorkspaceId_result (snd kill_unkillable) (fst kill_unkillable)
  = Some (0, 1) /\
  sessions (fst kill_unkillable) !! "p1"%string = None /\
  timers (fst kill_unkillable) = [].
Proof. split; [| split]; vm_compute; reflexivity. Qed.

End ManagerFacts.

(** ** Invariants of the attach scheduler *)
Module SchedulerInvariants.
Import Scheduler SchedulerFacts.

Lemma insert_sorted_perm ts x l : insert_sorted ts x l ≡ₚ x :: l.
Proof.
  induction l as [| y l IH]; cbn; [reflexivity |].
  destruct (Z.leb _ _); [reflexivity |].
  rewrite IH. apply Permutation_swap.
Qed.

Lemma sort_perm ts l : sort ts l ≡ₚ l.
Proof.
  unfold sort. induction l as [| x l IH]; cbn; [reflexivity |].
  now rewrite insert_sorted_perm, IH.
Qed.

(** Queued tasks are distinct, exist, were not started, and unless they
    are cancelled they are the task their pane maps to; started tasks
    are distinct and exist. *)
Record queue_ok (s : State) : Prop := {
  queue_nodup : NoDup (queue s);
  queue_fresh : forall r, r ∈ queue s -> r ∉ started s;
  queue_valid : forall r, r ∈ queue s -> r < length (tasks s);
  queue_current : forall r t,
    r ∈ queue s -> tasks s !! r = Some t -> canceled t = false ->
    pendingByPaneId s !! paneId t = Some r;
  started_nodup : NoDup (started s);
  started_valid : forall r, r ∈ started s -> r < length (tasks s)
}.

Lemma queue_ok_init : queue_ok init.
Proof.
  split; cbn; try apply NoDup_nil_2;
    try (intros r H; now apply elem_of_nil in H).
  intros r t H. now apply elem_of_nil in H.
Qed.

Lemma queue_ok_pump s : queue_ok s -> queue_ok (pump s).
Proof.
  apply pump_preserves.
  - intros s0 r q' [Hnd Hfr Hv Hcur Hsnd Hsv] _ Hsort _.
    assert (Hsub : forall x, x ∈ q' -> x ∈ queue s0).
    { intros x Hx. apply (sort_elem (tasks s0)). rewrite Hsort. now right. }
    split; cbn; auto.
    rewrite <- (sort_perm (tasks s0)), Hsort in Hnd.
    now apply NoDup_cons in Hnd as [_ Hnd].
  - intros s0 r q' task [Hnd Hfr Hv Hcur Hsnd Hsv] _ Hsort Htask Hc Hcurrent.
    assert (Hsub : forall x, x ∈ r :: q' -> x ∈ queue s0).
    { intros x Hx. apply (sort_elem (tasks s0)). now rewrite Hsort. }
    rewrite <- (sort_perm (tasks s0)), Hsort in Hnd.
    apply NoDup_cons in Hnd as [Hr Hnd].
    assert (Hrq : r ∈ queue s0) by (apply Hsub; now left).
    split; cbn.
    + exact Hnd.
    + intros x Hx. rewrite elem_of_app, list_elem_of_singleton.
      intros [Hin | ->]; [| contradiction].
      apply (Hfr x); [apply Hsub; now right | assumption].
    + intros x Hx. apply Hv, Hsub. now right.
    + intros x t Hx. apply Hcur, Hsub. now right.
    + apply NoDup_app. split; [assumption |]. split.
      * intros x Hx Hx'. apply list_elem_of_singleton in Hx' as ->.
        now apply (Hfr r).
      * apply NoDup_singleton.
    + intros x. rewrite elem_of_app, list_elem_of_singleton.
      intros [Hin | ->]; [now apply Hsv | now apply Hv].
  - intros s0 r [Hnd Hfr Hv Hcur Hsnd Hsv] Hst _.
    assert (Hq : queue (finish r s0) = queue s0) by apply queue_finish.
    assert (Hs : started (finish r s0) = started s0)
      by (unfold finish, clear_if_current; now destruct (is_current _ _ _)).
    assert (Ht : tasks (finish r s0) = tasks s0)
      by (unfold finish, clear_if_current; now destruct (is_current _ _ _)).
    split; rewrite ?Hq, ?Hs, ?Ht; auto.
    intros x t Hx Hxt Hc. specialize (Hcur x t Hx Hxt Hc).
    unfold finish, clear_if_current.
    destruct (is_current _ _ _) eqn:Hic; cbn; [| exact Hcur].
    apply bool_decide_eq_true in Hic.
    destruct (decide (default EmptyString (paneId <$> tasks s0 !! r) = paneId t))
      as [Heq | Hne].
    + rewrite Heq in Hic. assert (x = r) as -> by congruence.
      now destruct (Hfr r Hx).
    + now rewrite lookup_delete_ne.
Qed.

Lemma replace_existing_unmaps p s :
  pendingByPaneId (replace_existing p s) !! p = None.
Proof.
  unfold replace_existing.
  destruct (pendingByPaneId s !! p) eqn:E; cbn; [apply lookup_delete_eq | exact E].
Qed.

Lemma queue_ok_cancel_flag r0 s :
  queue_ok s -> queue_ok (set_tasks (alter cancel_task r0 (tasks s)) s).
Proof.
  intros [Hnd Hfr Hv Hcur Hsnd Hsv].
  split; cbn; rewrite ?length_alter; auto.
  intros x t Hx Hxt Hc. rewrite lookup_cancel_task in Hxt.
  destruct (decide (r0 = x)) as [-> | Hne].
  - destruct (tasks s !! x); [| discriminate]. now injection Hxt as <-.
  - now apply Hcur.
Qed.

Lemma queue_ok_replace_existing p s :
  queue_ok s -> queue_ok (replace_existing p s).
Proof.
  intros H. unfold replace_existing.
  destruct (pendingByPaneId s !! p) as [r0 |] eqn:E; [| assumption].
  destruct (queue_ok_cancel_flag r0 s H) as [Hnd Hfr Hv Hcur Hsnd Hsv].
  split; cbn in *; auto.
  intros x t Hx Hxt Hc.
  pose proof (Hcur x t Hx Hxt Hc) as Hm.
  destruct (decide (p = paneId t)) as [-> | Hne]; [| now rewrite lookup_delete_ne].
  assert (x = r0) as -> by congruence.
  rewrite list_lookup_alter_eq in Hxt.
  destruct (tasks s !! r0); [| discriminate]. now injection Hxt as <-.
Qed.

Lemma queue_ok_enqueue p prio k now s :
  pendingByPaneId s !! p = None ->
  queue_ok s -> queue_ok (enqueue p prio k now s).
Proof.
  intros Hnone [Hnd Hfr Hv Hcur Hsnd Hsv]. unfold enqueue. apply queue_ok_pump.
  split; cbn; rewrite ?length_app; cbn.
  - apply NoDup_app. split; [assumption |]. split; [| apply NoDup_singleton].
    intros x Hx Hx'. apply list_elem_of_singleton in Hx' as ->.
    apply Hv in Hx. lia.
  - intros x. rewrite elem_of_app, list_elem_of_singleton.
    intros [Hx | ->]; [now apply Hfr |].
    intros Hin. apply Hsv in Hin. lia.
  - intros x. rewrite elem_of_app, list_elem_of_singleton.
    intros [Hx | ->]; [apply Hv in Hx |]; lia.
  - intros x t. rewrite elem_of_app, list_elem_of_singleton.
    intros [Hx | ->] Hxt Hc.
    + rewrite lookup_app_l in Hxt by now apply Hv.
      pose proof (Hcur x t Hx Hxt Hc) as Hm.
      destruct (decide (p = paneId t)) as [-> | Hne]; [congruence |].
      now rewrite lookup_insert_ne.
    + rewrite list_lookup_middle in Hxt by reflexivity.
      injection Hxt as <-. cbn. apply lookup_insert_eq.
  - assumption.
  - intros x Hx. apply Hsv in Hx. lia.
Qed.

Lemma queue_ok_cancel r0 s : queue_ok s -> queue_ok (cancel r0 s).
Proof.
  intros H. unfold cancel. destruct (tasks s !! r0) as [t0 |] eqn:E; [| assumption].
  destruct (queue_ok_cancel_flag r0 s H) as [Hnd Hfr Hv Hcur Hsnd Hsv].
  unfold clear_if_current. destruct (is_current _ _ _) eqn:Hic; [| now split].
  apply bool_decide_eq_true in Hic.
  split; cbn in *; auto.
  intros x t Hx Hxt Hc.
  pose proof (Hcur x t Hx Hxt Hc) as Hm.
  destruct (decide (paneId t0 = paneId t)) as [Heq | Hne];
    [| now rewrite lookup_delete_ne].
  rewrite Heq in Hic. assert (x = r0) as -> by congruence.
  rewrite list_lookup_alter_eq, E in Hxt. now injection Hxt as <-.
Qed.

Lemma queue_ok_step e s : queue_ok s -> queue_ok (step e s).
Proof.
  intros H. destruct e as [p prio k now | r | r]; cbn [step].
  - apply queue_ok_enqueue; [apply replace_existing_unmaps |].
    now apply queue_ok_replace_existing.
  - now apply queue_ok_cancel.
  - destruct (bool_decide (r ∈ started s)) eqn:Hst; [| assumption].
    apply bool_decide_eq_true in Hst. unfold done.
    apply queue_ok_pump.
    (* the bookkeeping of the completion callback *)
    destruct H as [Hnd Hfr Hv Hcur Hsnd Hsv].
    assert (Hq : queue (finish r s) = queue s) by apply queue_finish.
    assert (Hs : started (finish r s) = started s)
      by (unfold finish, clear_if_current; now destruct (is_current _ _ _)).
    assert (Ht : tasks (finish r s) = tasks s)
      by (unfold finish, clear_if_current; now destruct (is_current _ _ _)).
    split; rewrite ?Hq, ?Hs, ?Ht; auto.
    intros x t Hx Hxt Hc. specialize (Hcur x t Hx Hxt Hc).
    unfold finish, clear_if_current.
    destruct (is_current _ _ _) eqn:Hic; cbn; [| exact Hcur].
    apply bool_decide_eq_true in Hic.
    destruct (decide (default EmptyString (paneId <$> tasks s !! r) = paneId t))
      as [Heq | Hne].
    + rewrite Heq in Hic. assert (x = r) as -> by congruence.
      now destruct (Hfr r Hx).
    + now rewrite lookup_delete_ne.
Qed.

Lemma queue_ok_exec es : forall s, queue_ok s -> queue_ok (exec es s).
Proof.
  induction es as [| e es IH]; intros s H; cbn; [assumption |].
  now apply IH, queue_ok_step.
Qed.

(** *** What follows for every reachable state *)

(** X1: The run callback of a task is invoked at most once, whatever is
    scheduled, cancelled or completed (even if completion callbacks are
    called repeatedly). *)
Theorem run_called_at_most_once (es : list Event) :
  NoDup (started (exec es init)).
Proof. apply started_nodup, queue_ok_exec, queue_ok_init. Qed.

(** X2: Two queued tasks for the same pane cannot both be uncancelled: at most
    one request per pane is waiting to run. *)
Theorem one_waiting_request_per_pane (es : list Event) (r1 r2 : nat)
    (t1 t2 : AttachTask) :
  r1 ∈ queue (exec es init) -> r2 ∈ queue (exec es init) ->
  tasks (exec es init) !! r1 = Some t1 ->
  tasks (exec es init) !! r2 = Some t2 ->
  canceled t1 = false -> canceled t2 = false ->
  paneId t1 = paneId t2 ->
  r1 = r2.
Proof.
  intros H1 H2 Ht1 Ht2 Hc1 Hc2 Hp.
  pose proof (queue_ok_exec es init queue_ok_init) as Hok.
  pose proof (queue_current _ Hok r1 t1 H1 Ht1 Hc1) as Hm1.
  pose proof (queue_current _ Hok r2 t2 H2 Ht2 Hc2) as Hm2.
  rewrite Hp in Hm1. congruence.
Qed.

(** Pane D asks twice while the cap is full: both requests are queued,
    the first one cancelled. *)
Definition twice_queued : list Event :=
  resubmission ++ [Schedule "D" 0 CompletesLater 4].

Definition second_request : AttachTask :=
  {| paneId := "D"; priority := 0; enqueuedAt := 4; canceled := false;
     run := CompletesLater |}.

Lemma one_waiting_request_per_pane_witness :
  queue (exec twice_queued init) = [3; 4] /\
  (canceled <$> tasks (exec twice_queued init) !! 3) = Some true /\
  tasks (exec twice_queued init) !! 4 = Some second_request /\
  4 = 4.
Proof.
  assert (H4 : 4 ∈ queue (exec twice_queued init)).
  { vm_compute. apply elem_of_cons. right. apply elem_of_cons. now left. }
  assert (Ht : tasks (exec twice_queued init) !! 4 = Some second_request)
    by (vm_compute; reflexivity).
  split; [vm_compute; reflexivity |].
  split; [vm_compute; reflexivity |].
  split; [exact Ht |].
  exact (one_waiting_request_per_pane twice_queued 4 4 second_request
           second_request H4 H4 Ht Ht eq_refl eq_refl eq_refl).
Defined.

Lemma idle_or_full_step e s : may_pump s = false -> may_pump (step e s) = false.
Proof.
  intros H. destruct e as [p prio k now | r | r]; cbn [step].
  - apply pump_exits.
  - unfold cancel. destruct (tasks s !! r); [| assumption].
    unfold clear_if_current. now destruct (is_current _ _ _).
  - destruct (bool_decide _); [apply pump_exits | assumption].
Qed.

Lemma idle_or_full_exec es : forall s,
  may_pump s = false -> may_pump (exec es s) = false.
Proof.
  induction es as [| e es IH]; intros s H; cbn; [assumption |].
  now apply IH, idle_or_full_step.
Qed.

(** X3: A task waits in the queue only while three attaches are in flight:
    whenever the counter is below the cap the queue is empty. *)
Theorem queue_waits_only_at_cap (es : list Event) :
  queue (exec es init) = [] \/ inFlight (exec es init) = 3%Z.
Proof.
  pose proof (idle_or_full_exec es init eq_refl) as Hidle.
  pose proof (within_cap_exec es init) as Hcap.
  unfold within_cap, MAX_CONCURRENT_ATTACHES in Hcap.
  destruct Hcap as [_ Hle]; [cbn; lia |].
  unfold may_pump, MAX_CONCURRENT_ATTACHES in Hidle.
  apply andb_false_iff in Hidle as [Hlt | Hq].
  - right. apply Z.ltb_ge in Hlt. lia.
  - left. apply Nat.ltb_ge in Hq. destruct (queue (exec es init)); [reflexivity |].
    cbn in Hq. lia.
Qed.

(** The comparator orders by priority, then by enqueue time. *)
Lemma compare_tasks_le a b :
  (compare_tasks a b <= 0)%Z <->
  (priority a < priority b)%Z \/
  (priority a = priority b /\ (enqueuedAt a <= enqueuedAt b)%Z).
Proof.
  unfold compare_tasks. destruct (Z.eqb_spec (priority a - priority b) 0); lia.
Qed.

Lemma sort_head_least ts l : forall r q',
  (forall x, x ∈ l -> is_Some (ts !! x)) ->
  sort ts l = r :: q' ->
  forall y, y ∈ l -> (compare_refs ts r y <= 0)%Z.
Proof.
  unfold sort. induction l as [| x l IH]; intros r q' Hv Hs y Hy; cbn in Hs;
    [discriminate |].
  assert (Hvl : forall z, z ∈ l -> is_Some (ts !! z))
    by (intros z Hz; apply Hv; now right).
  destruct (Hv x) as [tx Htx]; [now left |].
  destruct (foldr (insert_sorted ts) [] l) as [| h q0] eqn:E.
  - assert (l = []) as ->.
    { apply (f_equal length) in E. fold (sort ts l) in E.
      rewrite sort_length in E. now destruct l. }
    cbn in Hs. injection Hs as <- <-.
    apply list_elem_of_singleton in Hy as ->.
    unfold compare_refs. rewrite Htx. apply compare_tasks_le. lia.
  - specialize (IH h q0 Hvl eq_refl).
    destruct (Hvl h) as [th Hth].
    { apply (sort_elem ts). unfold sort. rewrite E. now left. }
    cbn in Hs. destruct (Z.leb (compare_refs ts x h) 0) eqn:Hle.
    + injection Hs as <- <-. apply Z.leb_le in Hle.
      apply elem_of_cons in Hy as [-> | Hy].
      * unfold compare_refs. rewrite Htx. apply compare_tasks_le. lia.
      * specialize (IH y Hy). destruct (Hvl y Hy) as [ty Hty].
        unfold compare_refs in *. rewrite Htx, Hth in Hle.
        rewrite Hth, Hty in IH. rewrite Htx, Hty.
        apply compare_tasks_le in Hle, IH. apply compare_tasks_le. lia.
    + injection Hs as <- <-. apply Z.leb_gt in Hle.
      apply elem_of_cons in Hy as [-> | Hy]; [| now apply IH].
      unfold compare_refs in *. rewrite Htx, Hth in Hle. rewrite Hth, Htx.
      apply compare_tasks_le.
      assert (Hn : ~ (compare_tasks tx th <= 0)%Z) by lia.
      rewrite compare_tasks_le in Hn. lia.
Qed.

(** X4: The task [pump] takes from the queue has the lowest priority number
    of all queued tasks and, among those, the earliest enqueue time. *)
Theorem dequeued_task_is_most_urgent (es : list Event) (r : nat)
    (q' : list nat) (tr : AttachTask) :
  sort (tasks (exec es init)) (queue (exec es init)) = r :: q' ->
  tasks (exec es init) !! r = Some tr ->
  forall y ty,
    y ∈ queue (exec es init) -> tasks (exec es init) !! y = Some ty ->
    (priority tr <= priority ty)%Z /\
    (priority tr = priority ty -> (enqueuedAt tr <= enqueuedAt ty)%Z).
Proof.
  intros Hsort Htr y ty Hy Hty.
  pose proof (queue_ok_exec es init queue_ok_init) as Hok.
  assert (Hv : forall x, x ∈ queue (exec es init) ->
                         is_Some (tasks (exec es init) !! x))
    by (intros x Hx; apply lookup_lt_is_Some; now apply (queue_valid _ Hok)).
  pose proof (sort_head_least _ _ r q' Hv Hsort y Hy) as Hle.
  unfold compare_refs in Hle. rewrite Htr, Hty in Hle.
  apply compare_tasks_le in Hle. lia.
Qed.

(** The cap is full; an urgent request for pane E arrives after an
    ordinary one for pane D. *)
Definition urgent_behind : list Event :=
  resubmission ++ [Schedule "E" (-1) CompletesLater 9].

Definition urgent_request : AttachTask :=
  {| paneId := "E"; priority := -1; enqueuedAt := 9; canceled := false;
     run := CompletesLater |}.

Definition ordinary_request : AttachTask :=
  {| paneId := "D"; priority := 0; enqueuedAt := 3; canceled := false;
     run := CompletesLater |}.

Lemma dequeued_task_is_most_urgent_witness :
  queue (exec urgent_behind init) = [3; 4] /\
  sort (tasks (exec urgent_behind init)) (queue (exec urgent_behind init))
  = [4; 3] /\
  (priority urgent_request <= priority ordinary_request)%Z /\
  (priority urgent_request = priority ordinary_request ->
   (enqueuedAt urgent_request <= enqueuedAt ordinary_request)%Z).
Proof.
  assert (H3 : 3 ∈ queue (exec urgent_behind init)).
  { vm_compute. apply elem_of_cons. now left. }
  assert (Hs : sort (tasks (exec urgent_behind init))
                 (queue (exec urgent_behind init)) = [4; 3])
    by (vm_compute; reflexivity).
  split; [vm_compute; reflexivity |].
  split; [exact Hs |].
  exact (dequeued_task_is_most_urgent urgent_behind 4 [3] urgent_request Hs
           ltac:(vm_compute; reflexivity) 3 ordinary_request H3
           ltac:(vm_compute; reflexivity)).
Defined.

End SchedulerInvariants.

(** ** Invariants of the session lifecycle *)
Module LifecycleInvariants.
Import Lifecycle LifecycleFacts.

(** Following the [onStateChange] callbacks of a trace from state [cur]:
    every callback has to name the state reached so far as its previous
    state and a different one as its new state. *)
Fixpoint replay (cur : SessionState) (tr : list Effect) : option SessionState :=
  match tr with
  | [] => Some cur
  | StateChange n p :: tr' =>
      if bool_decide (p = cur) && negb (bool_decide (n = p))
      then replay n tr' else None
  | _ :: tr' => replay cur tr'
  end.

(** Attaches in flight on behalf of [ensureAttached]. *)
Definition via_ensure (f : Frame) : bool :=
  match f with
  | DoAttach_sessionExists _ _ v | DoAttach_attachSession _ _ v => v
  | _ => false
  end.

Definition in_flight (fs : list Frame) : nat :=
  length (List.filter via_ensure fs).
Arguments in_flight : simpl never.

(** Events other than the settling of an awaited promise. *)
Definition quiet (e : Event) : bool :=
  match e with Resume _ _ => false | _ => true end.

(** A property kept by each assignment and callback the methods are made
    of is kept by every event. *)
Section StepInduction.

Variable P : SessionLifecycle -> Prop.

Hypothesis P_ptyProcess : forall v l, P l -> P (set_ptyProcess v l).
Hypothesis P_attachPromise : forall v l, P l -> P (set_attachPromise v l).
Hypothesis P_retry_reset : forall l, P l -> P (set_retryCount 0 l).
Hypothesis P_retry_count : forall l,
  P l -> retryCount l < MAX_RETRIES -> P (set_retryCount (S (retryCount l)) l).
Hypothesis P_lastDimensions : forall v l, P l -> P (set_lastDimensions v l).
Hypothesis P_disposed : forall v l, P l -> P (set_disposed v l).
Hypothesis P_frames : forall v l, P l -> P (set_frames v l).
Hypothesis P_wired : forall v l, P l -> P (set_wired v l).
Hypothesis P_emit : forall e l,
  P l -> (forall n p, e <> StateChange n p) -> P (emit e l).
Hypothesis P_transition : forall st l, P l -> P (transition st l).

Ltac primitive :=
  first
    [ assumption
    | apply P_transition | apply P_ptyProcess | apply P_attachPromise
    | apply P_retry_reset | apply P_lastDimensions | apply P_disposed
    | apply P_frames | apply P_wired
    | apply P_emit; [| intros ? ?; discriminate]
    | apply P_retry_count; [| now apply Nat.ltb_lt] ].

Lemma step_preserves e l : P l -> P (step e l).
Proof.
  intros HP.
  destruct e; unfold step, ensureAttached, write, resize, detach, close,
    retry, ensureAttached, resume, onExit, onExit_after_sessionExists,
    onExit_after_delay, doAttach_after_sessionExists,
    doAttach_after_attachSession, doAttach_catch, doAttach, settle,
    wireHandlers, try_resize, kill_pty, suspend;
    cbn zeta;
    repeat first [ progress cbn [fst snd] | case_match | primitive
                 | progress simplify_eq ].
Qed.

Lemma run_preserves es : forall l, P l -> P (run es l).
Proof.
  induction es as [| e es IH]; intros l HP; cbn; [assumption |].
  now apply IH, step_preserves.
Qed.

End StepInduction.

Lemma retryCount_transition st l : retryCount (transition st l) = retryCount l.
Proof. unfold transition. now destruct (bool_decide _). Qed.

(** X5: The retry counter never exceeds [MAX_RETRIES], whatever the owner
    calls, the backend answers and the PTYs do. *)
Theorem retryCount_bounded (es : list Event) :
  retryCount (run es new_SessionLifecycle) <= MAX_RETRIES.
Proof.
  apply (run_preserves (fun l => retryCount l <= MAX_RETRIES));
    try (intros; cbn; unfold MAX_RETRIES in *; lia).
  intros st l H. now rewrite retryCount_transition.
Qed.

Lemma replay_snoc tr : forall cur e,
  replay cur (tr ++ [e]) =
  match replay cur tr with
  | Some c => replay c [e]
  | None => None
  end.
Proof.
  induction tr as [| x tr IH]; intros cur e; cbn [app replay].
  - now destruct (replay cur [e]).
  - destruct x; try apply IH.
    destruct (bool_decide _ && _); [apply IH | reflexivity].
Qed.

(** X6: The [onStateChange] callbacks tell the whole story: each one reports
    a change away from the state reported before, and the state last
    reported is the one [getState] returns. *)
Theorem callbacks_track_state (es : list Event) :
  replay disconnected (trace (run es new_SessionLifecycle))
  = Some (state (run es new_SessionLifecycle)).
Proof.
  apply (run_preserves
           (fun l => replay disconnected (trace l) = Some (state l)));
    try (intros; assumption); try reflexivity.
  - intros e l H He. cbn. rewrite replay_snoc, H.
    destruct e; try reflexivity. now destruct (He new prev).
  - intros st l H. unfold transition.
    destruct (bool_decide (state l = st)) eqn:E; [assumption |].
    cbn. rewrite replay_snoc, H. cbn.
    rewrite bool_decide_eq_true_2 by reflexivity. cbn.
    destruct (bool_decide (st = state l)) eqn:E'; [| reflexivity].
    apply bool_decide_eq_true in E'. apply bool_decide_eq_false in E.
    congruence.
Qed.

(** *** Single flight *)

Lemma in_flight_snoc fs f :
  in_flight (fs ++ [f]) = in_flight fs + (if via_ensure f then 1 else 0).
Proof.
  unfold in_flight. rewrite List.filter_app, length_app. cbn.
  now destruct (via_ensure f).
Qed.

Lemma in_flight_delete : forall fs i f,
  fs !! i = Some f ->
  in_flight (delete i fs) + (if via_ensure f then 1 else 0) = in_flight fs.
Proof.
  unfold in_flight. induction fs as [| x fs IH]; intros i f Hi; [discriminate |].
  destruct i as [| i]; cbn in *.
  - injection Hi as ->. destruct (via_ensure f); cbn; lia.
  - specialize (IH i f Hi).
    destruct (via_ensure x); cbn; [exact (f_equal S IH) | exact IH].
Qed.

(** At most one attach runs for [ensureAttached], and only while
    [attachPromise] is set. *)
Definition single_flight (l : SessionLifecycle) : Prop :=
  in_flight (frames l) <= (if attachPromise l then 1 else 0).

Lemma frames_transition st l : frames (transition st l) = frames l.
Proof. unfold transition. now destruct (bool_decide _). Qed.

Lemma attachPromise_transition st l :
  attachPromise (transition st l) = attachPromise l.
Proof. unfold transition. now destruct (bool_decide _). Qed.

Lemma frames_try_resize c r l : frames (try_resize c r l) = frames l.
Proof. unfold try_resize. now destruct (ptyProcess l). Qed.

Lemma attachPromise_try_resize c r l :
  attachPromise (try_resize c r l) = attachPromise l.
Proof. unfold try_resize. now destruct (ptyProcess l). Qed.

Lemma frames_kill_pty l : frames (kill_pty l) = frames l.
Proof. unfold kill_pty. now destruct (ptyProcess l). Qed.

Lemma attachPromise_kill_pty l : attachPromise (kill_pty l) = attachPromise l.
Proof. unfold kill_pty. now destruct (ptyProcess l). Qed.

Lemma frames_wireHandlers c r l : frames (wireHandlers c r l) = frames l.
Proof. unfold wireHandlers. now destruct (ptyProcess l). Qed.

Lemma attachPromise_wireHandlers c r l :
  attachPromise (wireHandlers c r l) = attachPromise l.
Proof. unfold wireHandlers. now destruct (ptyProcess l). Qed.

Lemma frames_settle v l : frames (settle v l) = frames l.
Proof. now destruct v. Qed.

Lemma attachPromise_settle v l :
  attachPromise (settle v l) = (if v then false else attachPromise l).
Proof. now destruct v. Qed.

Create Rewrite HintDb single_flight_db.
Hint Rewrite in_flight_snoc frames_transition attachPromise_transition
  frames_try_resize attachPromise_try_resize frames_kill_pty
  attachPromise_kill_pty frames_wireHandlers attachPromise_wireHandlers
  frames_settle attachPromise_settle : single_flight_db.

(** Projections through the assignments, then arithmetic. *)
Ltac flight :=
  repeat (autorewrite with single_flight_db;
          cbn [frames attachPromise set_state set_ptyProcess set_attachPromise
               set_retryCount set_lastDimensions set_disposed set_frames
               set_wired emit suspend via_ensure]);
  try lia.

Lemma single_flight_doAttach c r v l :
  in_flight (frames (doAttach c r v l))
  = in_flight (frames l) + (if v then 1 else 0) /\
  attachPromise (doAttach c r v l) = attachPromise l.
Proof. unfold doAttach, suspend. flight. now split. Qed.

Lemma single_flight_ensureAttached c r l :
  single_flight l -> single_flight (fst (ensureAttached c r l)).
Proof.
  unfold single_flight, ensureAttached. intros H.
  destruct (disposed l); [exact H |].
  cbn [attachPromise set_lastDimensions].
  destruct (attachPromise l) eqn:Hap; cbn [fst]; flight; rewrite ?Hap; flight.
  destruct (bool_decide _ && _); cbn [fst]; flight; rewrite ?Hap; flight.
  destruct (single_flight_doAttach c r true
              (set_attachPromise true (set_lastDimensions (c, r) l)))
    as [-> ->].
  flight.
Qed.

Lemma single_flight_resume i a l :
  single_flight l -> single_flight (resume i a l).
Proof.
  unfold single_flight, resume. intros H.
  destruct (frames l !! i) as [f |] eqn:Hf; [| exact H].
  pose proof (in_flight_delete _ _ _ Hf) as Hd.
  set (l0 := set_frames (delete i (frames l)) l).
  assert (Hf0 : in_flight (frames l0) + (if via_ensure f then 1 else 0)
                <= (if attachPromise l0 then 1 else 0))
    by (unfold l0; cbn [frames attachPromise set_frames]; lia).
  clearbody l0. clear Hd Hf H.
  destruct f as [c r v | c r v | c r | c r ms]; cbn [via_ensure] in Hf0.
  - unfold doAttach_after_sessionExists, doAttach_catch, suspend.
    destruct a as [[|] | p | e |]; flight;
      destruct v; destruct (attachPromise l0); flight.
  - unfold doAttach_after_attachSession, doAttach_catch.
    destruct a as [b | p | e |]; flight;
      destruct v; destruct (attachPromise l0); flight.
  - unfold onExit_after_sessionExists, suspend.
    destruct a as [[|] | p | e |]; cbn [negb]; flight.
    destruct (Nat.ltb _ _); flight.
  - unfold onExit_after_delay.
    destruct (negb (disposed l0)); [| lia].
    destruct (single_flight_doAttach c r false l0) as [-> ->]. lia.
Qed.

Lemma single_flight_step e l : single_flight l -> single_flight (step e l).
Proof.
  intros H. destruct e as [c r | d | c r | | | | i a | p d | p]; cbn [step].
  - now apply single_flight_ensureAttached.
  - unfold write. destruct (ptyProcess l); [| exact H].
    destruct (bool_decide _); exact H.
  - unfold single_flight, resize in *.
    destruct (bool_decide _); flight.
  - unfold single_flight, detach in *.
    destruct (disposed l); flight.
  - unfold single_flight, close in *. flight.
  - unfold retry. destruct (disposed l) eqn:Hd; [exact H |].
    destruct (negb _); [exact H |].
    apply single_flight_ensureAttached. exact H.
  - now apply single_flight_resume.
  - destruct (lookup_wired p (wired l)); [| exact H].
    destruct (disposed l); exact H.
  - destruct (lookup_wired p (wired l)) as [[c r] |]; [| exact H].
    unfold single_flight, onExit in *.
    cbn [disposed state set_ptyProcess set_wired].
    destruct (disposed l || _); flight.
Qed.

(** X7: However often [ensureAttached] and [retry] are called while the
    backend has not answered, one attach at most is in flight for them. *)
Theorem ensureAttached_is_single_flight (es : list Event) :
  in_flight (frames (run es new_SessionLifecycle)) <= 1.
Proof.
  assert (H : single_flight (run es new_SessionLifecycle)).
  { generalize new_SessionLifecycle, (le_n 0 : single_flight new_SessionLifecycle).
    induction es as [| e es IH]; intros l Hl; cbn; [exact Hl |].
    now apply IH, single_flight_step. }
  unfold single_flight in H.
  destruct (attachPromise (run es new_SessionLifecycle)); lia.
Qed.

(** *** A closed instance is inert *)

Lemma quiet_step_inert e l :
  shut l -> quiet e = true ->
  trace (step e l) = trace l /\ frames (step e l) = frames l.
Proof.
  intros (Hd & Hs & Hp) Hq.
  destruct l as [st p0 ap rc dims d0 fs w tr]. cbn in Hd, Hs, Hp. subst.
  destruct e as [c r | d | c r | | | | i a | p d | p]; try discriminate;
    unfold step, ensureAttached, write, resize, detach, close, retry,
      onExit, kill_pty, try_resize, transition;
    cbn; repeat case_match; now split.
Qed.

(** X8: After [close()], calls of any method, data from a PTY and exits of a
    PTY have no effect to the outside: no callback, no call to the
    backend, no signal, no timer; and the instance stays closed. *)
Theorem closed_instance_is_inert (es : list Event) (l : SessionLifecycle) :
  forallb quiet es = true ->
  trace (run es (close l)) = trace (close l) /\
  frames (run es (close l)) = frames (close l) /\
  state (run es (close l)) = closed /\
  ptyProcess (run es (close l)) = None.
Proof.
  intros Hq.
  assert (H : forall l0, shut l0 ->
            trace (run es l0) = trace l0 /\ frames (run es l0) = frames l0 /\
            shut (run es l0)).
  { induction es as [| e es IH]; intros l0 Hl0;
      [split; [reflexivity | split; [reflexivity | exact Hl0]] |].
    change (run (e :: es) l0) with (run es (step e l0)).
    cbn in Hq. apply andb_true_iff in Hq as [He Hes].
    destruct (quiet_step_inert e l0 Hl0 He) as [Ht Hf].
    assert (Hs : shut (step e l0)).
    { apply shut_is_stable; [assumption |]. destruct e; try exact I. discriminate. }
    destruct (IH Hes (step e l0) Hs) as (Ht' & Hf' & Hs').
    split; [congruence |]. split; [congruence | exact Hs']. }
  destruct (H (close l) (close_shuts l)) as (Ht & Hf & _ & Hst & Hp).
  split; [exact Ht |]. split; [exact Hf |]. split; [exact Hst | exact Hp].
Qed.

Lemma closed_instance_is_inert_witness :
  trace (run [Call_ensureAttached 80 24; Call_write [10%N]; Call_retry;
              PtyData 1 [10%N]; PtyExit 1; Call_detach]
           (close (run attach_ok new_SessionLifecycle)))
  = trace (close (run attach_ok new_SessionLifecycle)) /\
  state (run [Call_ensureAttached 80 24; Call_write [10%N]; Call_retry;
              PtyData 1 [10%N]; PtyExit 1; Call_detach]
           (close (run attach_ok new_SessionLifecycle))) = closed.
Proof.
  destruct (closed_instance_is_inert
              [Call_ensureAttached 80 24; Call_write [10%N]; Call_retry;
               PtyData 1 [10%N]; PtyExit 1; Call_detach]
              (run attach_ok new_SessionLifecycle) eq_refl)
    as (Ht & _ & Hs & _).
  split; [exact Ht | exact Hs].
Defined.

End LifecycleInvariants.

(** ** More about the sanitizer *)
Module SanitizerMore.
Import Sanitizer SanitizerFacts.

(** [s'] is reached from [s] by consuming [k] code units; a capture made on
    the way is a subsequence of what was consumed. *)
Definition reaches (s s' : mstate) : Prop :=
  exists k,
    pos s' = pos s + k /\ rest s' = drop k (rest s) /\ k <= length (rest s) /\
    (cap s' = cap s \/
     exists c, cap s' = Some c /\ c `sublist_of` take k (rest s)).

Lemma reaches_refl s : reaches s s.
Proof. exists 0. repeat split; [lia | lia | now left]. Qed.

Lemma reaches_trans s1 s2 s3 : reaches s1 s2 -> reaches s2 s3 -> reaches s1 s3.
Proof.
  intros (k1 & Hp1 & Hr1 & Hk1 & Hc1) (k2 & Hp2 & Hr2 & Hk2 & Hc2).
  rewrite Hr1 in Hk2. rewrite length_drop in Hk2.
  exists (k1 + k2). repeat split.
  - lia.
  - rewrite Hr2, Hr1, drop_drop. reflexivity.
  - lia.
  - destruct Hc2 as [Hc2 | (c & Hc2 & Hl2)].
    + rewrite Hc2. destruct Hc1 as [Hc1 | (c & Hc1 & Hl1)]; [now left |].
      right. exists c. split; [assumption |].
      rewrite <- take_take_drop. now apply sublist_inserts_r.
    + right. exists c. split; [assumption |].
      rewrite <- take_take_drop. apply sublist_inserts_l. now rewrite <- Hr1.
Qed.

Lemma reaches_eat s x tl : rest s = x :: tl -> reaches s (eat s tl).
Proof.
  intros H. exists 1. cbn. rewrite H. cbn. rewrite drop_0.
  repeat split; [lia | lia | now left].
Qed.

Lemma reaches_capture s s' : reaches s s' -> reaches s (capture s s').
Proof.
  intros (k & Hp & Hr & Hk & _). exists k. cbn.
  repeat split; try assumption.
  right. eexists. split; [reflexivity |].
  replace (pos s' - pos s) with k by lia. reflexivity.
Qed.

Lemma matches_reaches r : forall s s', In s' (matches r s) -> reaches s s'.
Proof.
  induction r as [c | p | | | | r1 IH1 r2 IH2 | r1 IH1 r2 IH2
                 | r IH lo hi | r IH | r IH]; intros s s' Hin; cbn in Hin.
  - destruct (rest s) as [| x tl] eqn:E; [destruct Hin |].
    destruct (N.eqb x c); [| destruct Hin].
    destruct Hin as [<- | []]. eapply reaches_eat; eassumption.
  - destruct (rest s) as [| x tl] eqn:E; [destruct Hin |].
    destruct (p x); [| destruct Hin].
    destruct Hin as [<- | []]. eapply reaches_eat; eassumption.
  - destruct (Nat.eqb (pos s) 0); [| destruct Hin].
    destruct Hin as [<- | []]. apply reaches_refl.
  - destruct (rest s); [| destruct Hin].
    destruct Hin as [<- | []]. apply reaches_refl.
  - destruct Hin as [<- | []]. apply reaches_refl.
  - apply in_flat_map in Hin as (s1 & H1 & H2).
    eapply reaches_trans; eauto.
  - apply in_app_or in Hin as [H | H]; eauto.
  - remember (length (rest s)) as fuel eqn:Hfuel. clear Hfuel.
    revert lo hi s s' Hin.
    induction fuel as [| fuel IHf]; intros lo hi s s' Hin.
    + destruct (Nat.eqb lo 0); [| destruct Hin].
      destruct Hin as [<- | []]. apply reaches_refl.
    + apply in_app_or in Hin as [Hin | Hin].
      * destruct (hi_is_zero hi); [destruct Hin |].
        apply in_flat_map in Hin as (s1 & H1 & H2).
        match type of H2 with
        | In _ (if ?b then _ else _) => destruct b; [| destruct H2]
        end.
        eapply reaches_trans; [apply IH; eassumption |].
        eapply IHf; eassumption.
      * destruct (Nat.eqb lo 0); [| destruct Hin].
        destruct Hin as [<- | []]. apply reaches_refl.
  - apply in_map_iff in Hin as (s1 & <- & H1).
    apply reaches_capture. auto.
  - destruct (matches r s); [destruct Hin |].
    destruct Hin as [<- | []]. apply reaches_refl.
Qed.

Lemma exec_reaches r p l s' :
  exec r p l = Some s' ->
  reaches {| pos := p; rest := l; cap := None |} s'.
Proof.
  unfold exec. intros H. apply matches_reaches with (r := r).
  destruct (matches r _) as [| a m]; [discriminate |].
  cbn in H. injection H as ->. now left.
Qed.

(** A replacement that only uses code units of the capture, in order. *)
Definition inner_repl (repl : option (list char) -> list char) : Prop :=
  forall c, repl c `sublist_of` match c with Some t => t | None => [] end.

Lemma empty_repl_inner : inner_repl empty_repl.
Proof. intros c. apply sublist_nil_l. Qed.

Lemma group1_repl_inner : inner_repl group1_repl.
Proof. intros [t |]; reflexivity. Qed.

Lemma exec_repl_sublist r repl p l s' :
  inner_repl repl ->
  exec r p l = Some s' ->
  exists k, pos s' = p + k /\ k <= length l /\
            repl (cap s') `sublist_of` take k l.
Proof.
  intros Hrepl E.
  apply exec_reaches in E as (k & Hp & _ & Hk & Hc). cbn in Hp, Hk, Hc.
  exists k. split; [assumption |]. split; [assumption |].
  specialize (Hrepl (cap s')).
  destruct Hc as [Hc | (t & Hc & Ht)]; rewrite Hc in *.
  - apply sublist_nil_r in Hrepl. rewrite Hrepl. apply sublist_nil_l.
  - now transitivity t.
Qed.

Lemma replace_from_sublist r repl :
  inner_repl repl ->
  forall l p skip,
    skip <= length l ->
    replace_from r repl p skip l `sublist_of` drop skip l.
Proof.
  intros Hrepl. induction l as [| c tl IH]; intros p skip Hskip;
    cbn [replace_from].
  - cbn in Hskip. assert (skip = 0) as -> by lia. cbn.
    destruct (exec r p []) as [s' |] eqn:E; [| reflexivity].
    destruct (exec_repl_sublist _ _ _ _ _ Hrepl E) as (k & _ & _ & Hr).
    now rewrite take_nil in Hr.
  - cbn [length] in Hskip. destruct skip as [| k].
    + cbn [drop]. destruct (exec r p (c :: tl)) as [s' |] eqn:E.
      * destruct (exec_repl_sublist _ _ _ _ _ Hrepl E) as (k & Hp & Hk & Hr).
        replace (pos s' - p) with k by lia.
        destruct k as [| k].
        -- cbn in Hr. apply sublist_nil_r in Hr. rewrite Hr. cbn.
           apply sublist_skip. apply (IH (S p) 0). lia.
        -- rewrite <- (take_drop (S k) (c :: tl)) at 1.
           apply sublist_app; [exact Hr |]. cbn [drop].
           apply (IH (S p) k). cbn in Hk. lia.
      * apply sublist_skip. apply (IH (S p) 0). lia.
    + cbn [drop]. apply (IH (S p) k). lia.
Qed.

Lemma replace_sublist r repl l :
  inner_repl repl -> replace r repl l `sublist_of` l.
Proof.
  intros H. unfold replace.
  apply (replace_from_sublist r repl H l 0 0). lia.
Qed.

Lemma fold_replace_sublist ps : forall l,
  fold_left (fun acc pattern => replace pattern empty_repl acc) ps l
  `sublist_of` l.
Proof.
  induction ps as [| r ps IH]; intros l; cbn [fold_left]; [reflexivity |].
  etransitivity; [apply IH |]. apply replace_sublist, empty_repl_inner.
Qed.

Lemma sanitize_sublist (x : list char) :
  sanitizeTerminalScrollback x `sublist_of` x.
Proof.
  unfold sanitizeTerminalScrollback.
  destruct x as [| c tl]; [reflexivity |].
  destruct (negb (has_marker (c :: tl))); [reflexivity |].
  etransitivity; [apply replace_sublist, group1_repl_inner |].
  apply fold_replace_sublist.
Qed.

(** X9: The sanitizer only deletes: its result is a subsequence of the input,
    so it never inserts, alters or reorders a code unit. *)
Theorem sanitize_only_deletes (x : list char) :
  sanitizeTerminalScrollback x `sublist_of` x /\
  (forall c, c ∈ sanitizeTerminalScrollback x -> c ∈ x).
Proof.
  split; [apply sanitize_sublist |].
  intros c Hc. eapply sublist_subseteq; [apply sanitize_sublist | exact Hc].
Qed.

(** *** The fast path *)

Lemma includes_single c l :
  includes [c] l = false <-> Forall (fun x => x <> c) l.
Proof.
  induction l as [| x tl IH]; cbn.
  - split; [constructor | reflexivity].
  - rewrite andb_true_r, orb_false_iff, IH, Forall_cons, N.eqb_neq.
    split; intros [H1 H2]; split; congruence.
Qed.

Lemma includes_tail n x tl : includes n (x :: tl) = false -> includes n tl = false.
Proof. cbn. now intros [_ H]%orb_false_iff. Qed.

Lemma includes_head n l : includes n l = false -> starts_with n l = false.
Proof. destruct l; cbn; now intros [H _]%orb_false_iff. Qed.

Lemma includes_drop n k : forall l,
  includes n l = false -> includes n (drop k l) = false.
Proof.
  induction k as [| k IH]; intros [| x tl] H; cbn [drop]; try assumption.
  apply IH. eapply includes_tail, H.
Qed.

Lemma flat_map_nil {A B} (f : A -> list B) l :
  (forall x, In x l -> f x = []) -> flat_map f l = [].
Proof.
  induction l as [| a l IH]; intros H; cbn; [reflexivity |].
  rewrite (H a) by now left. apply IH. intros x Hx. apply H. now right.
Qed.

(** [r] cannot match where the code unit [c] does not occur any more. *)
Definition needs (c : char) (r : regex) : Prop :=
  forall s, includes [c] (rest s) = false -> matches r s = [].

Lemma needs_chr c : needs c (Chr c).
Proof.
  intros s H. cbn. destruct (rest s) as [| x tl]; [reflexivity |].
  apply includes_single, Forall_cons in H as [H _].
  apply N.eqb_neq in H. now rewrite H.
Qed.

Lemma needs_seq_l c r1 r2 : needs c r1 -> needs c (Seq r1 r2).
Proof. intros H s Hs. cbn. now rewrite (H s Hs). Qed.

Lemma needs_seq_r c r1 r2 : needs c r2 -> needs c (Seq r1 r2).
Proof.
  intros H s Hs. cbn. apply flat_map_nil. intros s1 H1. apply H.
  apply matches_reaches in H1 as (k & _ & -> & _). now apply includes_drop.
Qed.

Lemma needs_rep c r lo hi : needs c r -> lo <> 0 -> needs c (Rep r lo hi).
Proof.
  intros H Hlo s Hs. cbn.
  apply Nat.eqb_neq in Hlo.
  destruct (length (rest s)); rewrite Hlo; [reflexivity |].
  rewrite (H s Hs). cbn. now destruct (hi_is_zero hi).
Qed.

Lemma needs_exec c r p l :
  needs c r -> includes [c] l = false -> exec r p l = None.
Proof.
  intros H Hl. unfold exec.
  now rewrite (H {| pos := p; rest := l; cap := None |} Hl).
Qed.

Lemma needs_unmatched c r : needs c r -> forall l p,
  includes [c] l = false -> unmatched r p l = true.
Proof.
  intros H. induction l as [| x tl IH]; intros p Hl; cbn [unmatched];
    rewrite (needs_exec c r p _ H Hl); [reflexivity |].
  apply IH. eapply includes_tail, Hl.
Qed.

Lemma needs_esc_csi_report fin : needs ESC (csi_report CSI_RAW fin).
Proof. apply needs_seq_l, needs_seq_l, needs_chr. Qed.

Lemma needs_esc_mouse_sgr : needs ESC (mouse_sgr CSI_RAW).
Proof. apply needs_seq_l, needs_seq_l, needs_chr. Qed.

Lemma needs_semi_payload_run : needs (code ";") MOUSE_SGR_PAYLOAD_RUN.
Proof.
  apply needs_rep; [| discriminate].
  apply needs_seq_r, needs_seq_l, needs_chr.
Qed.

Lemma needs_semi_da_payload : needs (code ";") DA_PAYLOAD.
Proof.
  do 3 apply needs_seq_r. apply needs_seq_l.
  apply needs_rep; [| discriminate].
  apply needs_seq_l, needs_chr.
Qed.

Lemma two_chars a b r' r s :
  starts_with [a; b] (rest s) = false ->
  matches (Seq (Seq (Chr a) (Seq (Chr b) r')) r) s = [].
Proof.
  destruct s as [p l c]. cbn. destruct l as [| x [| y tl]]; cbn.
  - reflexivity.
  - now destruct (N.eqb x a).
  - rewrite (N.eqb_sym a x), (N.eqb_sym b y), andb_true_r.
    destruct (N.eqb x a); cbn; [intros ->; reflexivity | reflexivity].
Qed.

(** The caret-escaped patterns match only at a ["^["]. *)
Lemma caret_matches r s :
  starts_with (str "^[") (rest s) = false -> matches (Seq CSI_CARET r) s = [].
Proof. exact (two_chars 94%N 91%N (Seq (Chr 91%N) Eps) r s). Qed.

Lemma caret_exec r p l :
  includes (str "^[") l = false -> exec (Seq CSI_CARET r) p l = None.
Proof.
  intros Hl. unfold exec. rewrite caret_matches; [reflexivity |].
  now apply includes_head.
Qed.

Lemma caret_unmatched r : forall l p,
  includes (str "^[") l = false -> unmatched (Seq CSI_CARET r) p l = true.
Proof.
  induction l as [| x tl IH]; intros p Hl; cbn [unmatched];
    rewrite (caret_exec r p _ Hl); [reflexivity |].
  apply IH. eapply includes_tail, Hl.
Qed.

Lemma marker_free_artifact_free data :
  has_marker data = false -> artifact_free data = true.
Proof.
  unfold has_marker. intros [[He Hc]%orb_false_iff Hs]%orb_false_iff.
  unfold artifact_free, PATTERNS. cbn [forallb].
  repeat (apply andb_true_iff; split); try reflexivity.
  - apply (needs_unmatched ESC), He. apply needs_esc_csi_report.
  - apply caret_unmatched, Hc.
  - apply (needs_unmatched ESC), He. apply needs_esc_csi_report.
  - apply caret_unmatched, Hc.
  - apply (needs_unmatched ESC), He. apply needs_esc_csi_report.
  - apply caret_unmatched, Hc.
  - apply (needs_unmatched ESC), He. apply needs_esc_mouse_sgr.
  - apply caret_unmatched, Hc.
  - apply (needs_unmatched (code ";")), Hs. apply needs_semi_payload_run.
  - apply (needs_unmatched (code ";")), Hs. apply needs_semi_da_payload.
Qed.

(** X10: The fast path is an optimisation only: on a text without an escape, a
    caret-escaped escape or a semicolon, the ten replacements that it skips
    would leave the text as it is. *)
Theorem fast_path_skips_nothing (data : list char) :
  has_marker data = false ->
  replace DA_PAYLOAD group1_repl
    (fold_left (fun acc pattern => replace pattern empty_repl acc)
       PATTERNS data) = data.
Proof.
  intros H. apply marker_free_artifact_free in H.
  unfold artifact_free in H. apply andb_true_iff in H as [Hps Hda].
  rewrite (fold_replace_unmatched PATTERNS data Hps).
  now apply replace_unmatched.
Qed.

Lemma fast_path_skips_nothing_witness :
  has_marker (str "ls -la") = false /\
  replace DA_PAYLOAD group1_repl
    (fold_left (fun acc pattern => replace pattern empty_repl acc)
       PATTERNS (str "ls -la")) = str "ls -la".
Proof.
  split; [reflexivity |].
  apply (fast_path_skips_nothing (str "ls -la")). reflexivity.
Defined.

(** *** Removal of a device-attributes response *)

(** The match that the engine reports for [r] at [s]. *)
Definition first (r : regex) (s s' : mstate) : Prop :=
  head (matches r s) = Some s'.

Lemma first_seq r1 r2 s s1 s2 :
  first r1 s s1 -> first r2 s1 s2 -> first (Seq r1 r2) s s2.
Proof.
  unfold first. cbn [matches].
  destruct (matches r1 s) as [| a l]; [discriminate |].
  cbn. intros [= ->]. destruct (matches r2 s1); [discriminate |].
  cbn. auto.
Qed.

Lemma first_chr c s tl : rest s = c :: tl -> first (Chr c) s (eat s tl).
Proof. intros H. unfold first. cbn. now rewrite H, N.eqb_refl. Qed.

Lemma first_eps s : first Eps s s.
Proof. reflexivity. Qed.

Lemma rep_cls_step p lo hi s x tl :
  rest s = x :: tl -> p x = true ->
  matches (Rep (Cls p) lo hi) s
  = (if hi_is_zero hi then []
     else matches (Rep (Cls p) (pred lo) (dec_hi hi)) (eat s tl))
    ++ (if Nat.eqb lo 0 then [s] else []).
Proof.
  intros H Hp. destruct s as [n l c]. cbn [rest] in H. subst l.
  cbn [matches rest length]. rewrite Hp. cbn [flat_map rest eat length app].
  rewrite app_nil_r.
  assert (Nat.ltb (length tl) (S (length tl)) = true) as ->
    by (apply Nat.ltb_lt; lia).
  reflexivity.
Qed.

Lemma rep_cls_stop p lo hi s :
  match rest s with [] => True | x :: _ => p x = false end ->
  matches (Rep (Cls p) lo hi) s = if Nat.eqb lo 0 then [s] else [].
Proof.
  intros H. destruct s as [n [| x tl] c]; [reflexivity |].
  cbn [rest] in H. cbn [matches rest length]. rewrite H. cbn [flat_map].
  now destruct (hi_is_zero hi).
Qed.

Lemma rep_none r s : matches (Rep r 0 (Some 0)) s = [s].
Proof. cbn. now destruct (length (rest s)). Qed.

Lemma first_star_cls p ps : forall s x tl,
  forallb p ps = true -> p x = false -> rest s = ps ++ x :: tl ->
  first (Star (Cls p)) s
    {| pos := pos s + length ps; rest := x :: tl; cap := cap s |}.
Proof.
  unfold first, Star.
  induction ps as [| y ps IH]; intros s x tl Hps Hx Hs.
  - rewrite rep_cls_stop by (now rewrite Hs). cbn.
    destruct s as [n l c]. cbn in *. now rewrite Nat.add_0_r, Hs.
  - cbn in Hps, Hs. apply andb_true_iff in Hps as [Hy Hps].
    rewrite (rep_cls_step p 0 None s y (ps ++ x :: tl) Hs Hy). cbn [hi_is_zero].
    specialize (IH (eat s (ps ++ x :: tl)) x tl Hps Hx eq_refl).
    cbn [pred dec_hi].
    destruct (matches (Rep (Cls p) 0 None) (eat s (ps ++ x :: tl)));
      [discriminate |].
    cbn in *. rewrite IH. do 2 f_equal. lia.
Qed.

Lemma first_opt_cls_yes p s x tl :
  rest s = x :: tl -> p x = true -> first (Opt (Cls p)) s (eat s tl).
Proof.
  intros H Hp. unfold first, Opt.
  rewrite (rep_cls_step p 0 (Some 1) s x tl H Hp). cbn [hi_is_zero pred dec_hi].
  now rewrite rep_none.
Qed.

Lemma first_opt_cls_no p s :
  match rest s with [] => True | x :: _ => p x = false end ->
  first (Opt (Cls p)) s s.
Proof. intros H. unfold first, Opt. now rewrite rep_cls_stop. Qed.

Lemma digit_or_semi_not_intro x :
  digit_or_semi x = true -> one_of "?>" x = false.
Proof.
  unfold digit_or_semi, digit, one_of. cbn.
  rewrite orb_true_iff, andb_true_iff, !N.leb_le, N.eqb_eq.
  intros H. rewrite orb_false_r. apply orb_false_iff.
  split; apply N.eqb_neq; lia.
Qed.

(** The private-marker byte of a report: none, [?] or [>]. *)
Definition is_intro (intro : list char) : Prop :=
  intro = [] \/ intro = str "?" \/ intro = str ">".

Lemma first_da_response intro ps t2 s :
  is_intro intro -> forallb digit_or_semi ps = true ->
  rest s = ESC :: code "[" :: intro ++ ps ++ code "c" :: t2 ->
  first DA_RESPONSE_RAW s
    {| pos := pos s + (3 + length intro + length ps); rest := t2;
       cap := cap s |}.
Proof.
  intros Hi Hps Hs. unfold DA_RESPONSE_RAW, csi_report, CSI_RAW.
  set (s1 := eat s (code "[" :: intro ++ ps ++ code "c" :: t2)).
  set (s2 := eat s1 (intro ++ ps ++ code "c" :: t2)).
  set (s3 := {| pos := pos s2 + length intro; rest := ps ++ code "c" :: t2;
                cap := cap s |}).
  set (s4 := {| pos := pos s3 + length ps; rest := code "c" :: t2;
                cap := cap s |}).
  apply first_seq with (s1 := s2).
  { apply first_seq with (s1 := s1); now apply first_chr. }
  apply first_seq with (s1 := s3).
  { destruct Hi as [-> | [-> | ->]].
    - replace s3 with s2
        by (unfold s3; cbn; now rewrite Nat.add_0_r).
      apply first_opt_cls_no. cbn.
      destruct ps as [| y ps]; [reflexivity |].
      cbn in Hps. apply andb_true_iff in Hps as [Hy _].
      now apply digit_or_semi_not_intro.
    - replace s3 with (eat s2 (ps ++ code "c" :: t2))
        by (unfold s3, eat; cbn; f_equal; lia).
      now apply first_opt_cls_yes with (x := code "?").
    - replace s3 with (eat s2 (ps ++ code "c" :: t2))
        by (unfold s3, eat; cbn; f_equal; lia).
      now apply first_opt_cls_yes with (x := code ">"). }
  apply first_seq with (s1 := s4).
  { apply (first_star_cls digit_or_semi ps s3 (code "c") t2); auto. }
  unfold lit. cbn [str fold_right].
  apply first_seq with (s1 := eat s4 t2); [now apply first_chr |].
  unfold first. cbn [matches head]. f_equal.
  unfold eat, s4, s3, s2, s1, eat. cbn [pos rest cap]. f_equal. lia.
Qed.

Lemma replace_from_skip r repl a : forall p b,
  replace_from r repl p (length a) (a ++ b)
  = replace_from r repl (p + length a) 0 b.
Proof.
  induction a as [| x a IH]; intros p b; cbn [length app].
  - now rewrite Nat.add_0_r.
  - cbn [replace_from]. rewrite IH.
    now replace (p + S (length a)) with (S p + length a) by lia.
Qed.

Lemma replace_from_prefix r repl :
  (forall p x tl, x <> ESC -> exec r p (x :: tl) = None) ->
  forall t1 p l,
    Forall (fun x => x <> ESC) t1 ->
    replace_from r repl p 0 (t1 ++ l)
    = t1 ++ replace_from r repl (p + length t1) 0 l.
Proof.
  intros Hr. induction t1 as [| x t1 IH]; intros p l Ht; cbn [length app].
  - now rewrite Nat.add_0_r.
  - apply Forall_cons in Ht as [Hx Ht]. cbn [replace_from].
    rewrite (Hr p x _ Hx), (IH (S p) l Ht).
    now replace (p + S (length t1)) with (S p + length t1) by lia.
Qed.

Lemma raw_exec_head r p x tl :
  x <> ESC -> exec (Seq CSI_RAW r) p (x :: tl) = None.
Proof.
  intros Hx. unfold exec, CSI_RAW. cbn.
  apply N.eqb_neq in Hx. now rewrite Hx.
Qed.

Lemma replace_da_response t1 t2 intro ps :
  Forall (fun x => x <> ESC) (t1 ++ t2) ->
  is_intro intro -> forallb digit_or_semi ps = true ->
  replace DA_RESPONSE_RAW empty_repl
    (t1 ++ ESC :: code "[" :: intro ++ ps ++ code "c" :: t2)
  = t1 ++ t2.
Proof.
  intros [H1 H2]%Forall_app Hi Hps. unfold replace.
  rewrite replace_from_prefix; [| apply raw_exec_head | assumption].
  f_equal.
  remember (code "[" :: intro ++ ps ++ code "c" :: t2) as tail eqn:Etail.
  assert (Hf : first DA_RESPONSE_RAW
                 {| pos := 0 + length t1; rest := ESC :: tail; cap := None |}
                 {| pos := 0 + length t1 + (3 + length intro + length ps);
                    rest := t2; cap := None |}).
  { subst tail. now apply (first_da_response intro ps t2). }
  unfold first in Hf. cbn [replace_from]. unfold exec. rewrite Hf.
  cbn [pos cap empty_repl app].
  replace (0 + length t1 + (3 + length intro + length ps) - (0 + length t1))
    with (S (length (code "[" :: intro ++ ps ++ [code "c"])))
    by (cbn [length]; rewrite !length_app; cbn [length]; lia).
  cbv beta iota. subst tail.
  replace (code "[" :: intro ++ ps ++ code "c" :: t2)
    with ((code "[" :: intro ++ ps ++ [code "c"]) ++ t2)
    by (cbn [app]; now rewrite <- !app_assoc).
  rewrite replace_from_skip. apply replace_unmatched.
  apply (needs_unmatched ESC); [apply needs_esc_csi_report |].
  now apply includes_single.
Qed.

(** X11: A device-attributes response [ESC [ [?>] params c] is cut out of
    a text that has no other marker around it, whatever its parameters. *)
Theorem da_response_removed (t1 t2 intro ps : list char) :
  has_marker (t1 ++ t2) = false ->
  is_intro intro ->
  forallb digit_or_semi ps = true ->
  sanitizeTerminalScrollback
    (t1 ++ ESC :: code "[" :: intro ++ ps ++ code "c" :: t2)
  = t1 ++ t2.
Proof.
  intros Hm Hi Hps.
  assert (He : Forall (fun x => x <> ESC) (t1 ++ t2)).
  { apply includes_single. unfold has_marker in Hm.
    now apply orb_false_iff in Hm as [[H _]%orb_false_iff _]. }
  unfold sanitizeTerminalScrollback.
  destruct (t1 ++ ESC :: code "[" :: intro ++ ps ++ code "c" :: t2)
    as [| c0 tl0] eqn:E; [now destruct t1 |].
  assert (Hin : has_marker (c0 :: tl0) = true).
  { rewrite <- E. unfold has_marker.
    destruct (includes [ESC] _) eqn:Ei; [reflexivity |].
    apply includes_single, Forall_app in Ei as [_ Ei].
    apply Forall_cons in Ei as [Ei _]. congruence. }
  rewrite Hin. cbn [negb]. rewrite <- E. clear E Hin.
  apply marker_free_artifact_free in Hm. unfold artifact_free in Hm.
  apply andb_true_iff in Hm as [Hpat Hda].
  change PATTERNS with (DA_RESPONSE_RAW :: List.tl PATTERNS) in *.
  remember (List.tl PATTERNS) as others eqn:Eo.
  cbn [fold_left forallb] in *.
  apply andb_true_iff in Hpat as [_ Hpat].
  rewrite (replace_da_response t1 t2 intro ps He Hi Hps).
  rewrite fold_replace_unmatched by exact Hpat.
  now apply replace_unmatched.
Qed.

Lemma da_response_removed_witness :
  sanitizeTerminalScrollback
    (str "$ " ++ ESC :: code "[" :: str ">" ++ str "0;276;0" ++ code "c"
       :: str "hi")
  = str "$ " ++ str "hi".
Proof.
  apply (da_response_removed (str "$ ") (str "hi") (str ">") (str "0;276;0")).
  - reflexivity.
  - right. right. reflexivity.
  - reflexivity.
Defined.

(** *** Repeated sanitizing *)





(** *** Device-attributes responses spliced into a text *)












End SanitizerMore.

(** ** Invariants of the terminal manager *)
Module ManagerInvariants.
Import Manager ManagerFacts.

(** What [cleanup] leaves of the armed timers and of the kill it settles. *)
Definition disarm (k : nat) (ts : list (Z * TimerAction))
    : list (Z * TimerAction) :=
  filter (fun t => snd t <> Sigterm_timeout k /\ snd t <> Sigkill_timeout k) ts.

Definition settled (op : KillOp) (b : bool) : KillOp :=
  {| kill_paneId := kill_paneId op; kill_session := kill_session op;
     resolved := Some b; listening := false |}.

(** The value the promise of kill [k] has resolved with, if it has. *)
Definition outcome (ks : list KillOp) (k : nat) : option bool :=
  ks !! k ≫= resolved.

Definition unresolved (ks : list KillOp) (k : nat) : Prop :=
  exists op, ks !! k = Some op /\ resolved op = None.

(** The kill a timer belongs to is still unresolved. *)
Definition armable (ks : list KillOp) (a : TimerAction) : Prop :=
  match a with
  | Sigterm_timeout k | Sigkill_timeout k => unresolved ks k
  | Session_cleanup _ => True
  end.

Section Run.

Variable FALLBACK_SHELL : string.
Variable defaultShell : string.
Variable SHELL_CRASH_THRESHOLD_MS : Z.

(** Calls of the manager's methods and the callbacks it registered. *)
Inductive Event :=
| Fire (i : nat) (now : Z)
| PtyExit (p : nat) (exitCode : Z) (signal : option Z) (now : Z)
    (disk : list N) (spawned : option nat)
| KillWorkspace (ws : string) (now : Z) (killThrows : nat -> bool)
| Write (pane : string) (data : list N) (now : Z)
| Resize (pane : string) (c r : Z) (now : Z)
| CreateOrAttach (params : CreateSessionParams) (now : Z)
| AfterRetry (params : CreateSessionParams) (r : nat) (reattached : bool)
    (now : Z)
| Finally (params : CreateSessionParams)
| CreateSession (params : CreateSessionParams) (now : Z) (disk : list N)
    (spawned : option nat)
| OfLifecycle (pane : string) (e : Lifecycle.Event).

Definition step (e : Event) (m : TerminalManager) : TerminalManager :=
  match e with
  | Fire i now => fire i now m
  | PtyExit p exitCode signal now disk spawned =>
      pty_exit FALLBACK_SHELL defaultShell SHELL_CRASH_THRESHOLD_MS
        p exitCode signal now disk spawned m
  | KillWorkspace ws now killThrows =>
      fst (killByWorkspaceId ws now killThrows m)
  | Write pane data now =>
      match write pane data now m with
      | inl m' => m'
      | inr _ => m
      end
  | Resize pane c r now => resize pane c r now m
  | CreateOrAttach params now => fst (createOrAttach params now m)
  | AfterRetry params r reattached now =>
      fst (createOrAttach_after_retry params r reattached now m)
  | Finally params => createOrAttach_finally params m
  | CreateSession params now disk spawned =>
      match doCreateSession FALLBACK_SHELL defaultShell
              params now disk spawned m with
      | Some (m', _) => m'
      | None => m
      end
  | OfLifecycle pane e => lifecycle_event pane e m
  end.

Fixpoint run (es : list Event) (m : TerminalManager) : TerminalManager :=
  match es with
  | [] => m
  | e :: es' => run es' (step e m)
  end.

(** A property of the kills and the armed timers that [cleanup], a new
    kill, arming a timer of an unresolved kill and a timer going off
    preserve holds after every step. *)
Section KillInduction.

Variable P : list KillOp -> list (Z * TimerAction) -> Prop.

Hypothesis P_settle : forall ks ts k op b,
  ks !! k = Some op -> resolved op = None ->
  P ks ts -> P (<[k := settled op b]> ks) (disarm k ts).
Hypothesis P_append : forall ks ts op, P ks ts -> P (ks ++ [op]) ts.
Hypothesis P_arm : forall ks ts due a,
  armable ks a -> P ks ts -> P ks (ts ++ [(due, a)]).
Hypothesis P_disarm : forall ks ts i, P ks ts -> P ks (delete i ts).

Definition holds (m : TerminalManager) : Prop := P (kills m) (timers m).

Lemma holds_settle_kill k b m : holds m -> holds (settle_kill k b m).
Proof.
  unfold holds, settle_kill. intros H.
  destruct (kills m !! k) as [op |] eqn:E; [| exact H].
  destruct (resolved op) eqn:R; [exact H |].
  exact (P_settle _ _ k op b E R H).
Qed.

Lemma holds_notify_exit pane m : holds m -> holds (notify_exit pane m).
Proof.
  unfold notify_exit. generalize (seq 0 (length (kills m))) as js.
  induction js as [| j js IH]; intros H; cbn; [exact H |].
  specialize (IH H). set (m' := foldr _ m js) in *. clearbody m'.
  destruct (kills m' !! j) as [op |]; [| exact IH].
  destruct (listening op && _); [| exact IH].
  now apply holds_settle_kill.
Qed.

Lemma holds_emit_exit pane exitCode signal m :
  holds m -> holds (emit_exit pane exitCode signal m).
Proof. intros H. unfold emit_exit. now apply holds_notify_exit. Qed.

Lemma holds_handle pane st prev m :
  holds m -> holds (handleLifecycleStateChange pane st prev m).
Proof.
  intros H. unfold handleLifecycleStateChange.
  destruct (get_session pane m) as [[r s] |];
    destruct st, prev; cbn zeta iota;
    repeat case_match;
    first [exact H | apply holds_emit_exit; exact H].
Qed.

Lemma holds_deliver pane es : forall m, holds m -> holds (deliver pane es m).
Proof.
  unfold deliver. induction es as [| e es IH]; intros m H; cbn; [exact H |].
  apply IH. destruct e; try exact H. now apply holds_handle.
Qed.

Lemma holds_with_lifecycle {A} pane
    (f : Lifecycle.SessionLifecycle -> Lifecycle.SessionLifecycle * A) m :
  holds m -> holds (fst (with_lifecycle pane f m)).
Proof.
  intros H. unfold with_lifecycle.
  destruct (lifecycles m !! pane) as [l |]; [| exact H].
  destruct (f l) as [l' a]. cbn [fst]. apply holds_deliver. exact H.
Qed.

Lemma holds_write pane data now m m' :
  write pane data now m = inl m' -> holds m -> holds m'.
Proof.
  unfold write. intros E H.
  repeat case_match; simplify_eq; exact H.
Qed.

Lemma holds_resize pane c r now m : holds m -> holds (resize pane c r now m).
Proof. intros H. unfold resize. repeat case_match; exact H. Qed.

Lemma holds_answer_existing params r now m :
  holds m -> holds (fst (answer_existing params r now m)).
Proof.
  intros H. unfold answer_existing. cbn [fst].
  destruct (params_cols params), (params_rows params);
    first [apply holds_resize; exact H | exact H].
Qed.

Lemma holds_createOrAttach params now m :
  holds m -> holds (fst (createOrAttach params now m)).
Proof.
  intros H. unfold createOrAttach.
  destruct (pendingSessions m !! params_paneId params); [exact H |].
  destruct (get_session (params_paneId params) m) as [[r s] |]; [| exact H].
  destruct (isAlive s).
  - destruct (lifecycles m !! params_paneId params) as [l |].
    + destruct (bool_decide _).
      * cbn [fst]. now apply holds_with_lifecycle.
      * pose proof (holds_answer_existing params r now m H) as Ha.
        now destruct (answer_existing params r now m).
    + pose proof (holds_answer_existing params r now m H) as Ha.
      now destruct (answer_existing params r now m).
  - destruct (isExpectedDetach s); exact H.
Qed.

Lemma holds_after_retry params r reattached now m :
  holds m -> holds (fst (createOrAttach_after_retry params r reattached now m)).
Proof.
  intros H. unfold createOrAttach_after_retry.
  apply holds_answer_existing. repeat case_match; exact H.
Qed.

Lemma kills_timers_closeSessionHistory r e m :
  kills (closeSessionHistory r e m) = kills m /\
  timers (closeSessionHistory r e m) = timers m.
Proof.
  unfold closeSessionHistory.
  destruct (objects m !! r) as [s |]; [| now split].
  now destruct (deleteHistoryOnExit s), (historyWriter s).
Qed.

Lemma holds_closeSessionHistory r e m :
  holds m -> holds (closeSessionHistory r e m).
Proof.
  unfold holds. now destruct (kills_timers_closeSessionHistory r e m) as [-> ->].
Qed.

Lemma holds_report_exit r pane exitCode signal now m :
  holds m -> holds (report_exit r pane exitCode signal now m).
Proof.
  intros H. unfold report_exit.
  apply (P_arm _ _ _ (Session_cleanup pane) I).
  apply holds_emit_exit.
  exact (holds_closeSessionHistory r (Some exitCode) m H).
Qed.

Lemma holds_doCreateSession params now disk spawned m m' res :
  doCreateSession FALLBACK_SHELL defaultShell params now disk spawned m
  = Some (m', res) ->
  holds m -> holds m'.
Proof.
  unfold doCreateSession. intros E H.
  destruct (createSession _ _ _ _ _ _); simplify_eq. exact H.
Qed.

Lemma holds_onExit r params exitCode signal now disk spawned m :
  holds m ->
  holds (onExit FALLBACK_SHELL defaultShell SHELL_CRASH_THRESHOLD_MS
           r params exitCode signal now disk spawned m).
Proof.
  intros H. unfold onExit. cbn zeta.
  destruct (objects (update r (set_isAlive false) m) !! r) as [s |];
    [| exact H].
  destruct (isPersistentBackend s && isExpectedDetach s); [exact H |].
  destruct (isPersistentBackend s).
  { apply holds_emit_exit.
    exact (holds_closeSessionHistory r (Some exitCode)
               (update r (set_isAlive false) m) H). }
  destruct (_ && negb (usedFallback s)).
  - destruct (doCreateSession _ _ _ _ _ _ _) as [[m' res] |] eqn:E.
    + eapply holds_doCreateSession; [exact E |].
      exact (holds_closeSessionHistory r (Some exitCode)
               (update r (set_isAlive false) m) H).
    + apply holds_report_exit.
      exact (holds_closeSessionHistory r (Some exitCode)
               (update r (set_isAlive false) m) H).
  - now apply holds_report_exit.
Qed.

Lemma holds_pty_exit p exitCode signal now disk spawned m :
  holds m ->
  holds (pty_exit FALLBACK_SHELL defaultShell SHELL_CRASH_THRESHOLD_MS
           p exitCode signal now disk spawned m).
Proof.
  intros H. unfold pty_exit.
  destruct (list_find _ _) as [[i [q [r params]]] |]; [| exact H].
  now apply holds_onExit.
Qed.

Lemma holds_killSessionWithTimeout pane r now killThrows m :
  holds m -> holds (fst (killSessionWithTimeout pane r now killThrows m)).
Proof.
  intros H. unfold killSessionWithTimeout.
  destruct (objects m !! r) as [s |]; [| exact H].
  destruct (negb (isAlive s)); cbn [fst].
  - unfold holds. cbn [kills timers set_kills delete_session set_sessions].
    destruct (kills_timers_closeSessionHistory r None
                (update r (set_deleteHistoryOnExit true) m)) as [-> ->].
    apply P_append. exact H.
  - set (op := {| kill_paneId := pane; kill_session := r; resolved := None;
                  listening := true |}).
    assert (H1 : holds
              (set_timers
                 (timers m ++ [((now + 2000)%Z, Sigterm_timeout (length (kills m)))])
                 (set_kills (kills m ++ [op])
                    (update r (set_deleteHistoryOnExit true) m)))).
    { unfold holds. cbn. apply P_arm; [| apply P_append; exact H].
      exists op. split; [| reflexivity].
      now apply list_lookup_middle. }
    destruct killThrows; cbn [fst]; [| exact H1].
    apply holds_settle_kill, holds_closeSessionHistory. exact H1.
Qed.

Lemma holds_on_sigterm_timeout k now m :
  holds m -> holds (on_sigterm_timeout k now m).
Proof.
  intros H. unfold on_sigterm_timeout.
  destruct (kills m !! k) as [op |] eqn:E; [| exact H].
  destruct (bool_decide (is_Some (resolved op))) eqn:R; [exact H |].
  destruct (negb _); cbn [orb]; [exact H |].
  unfold holds. cbn. apply P_arm; [| exact H].
  exists op. split; [exact E |].
  apply bool_decide_eq_false in R. destruct (resolved op); [| reflexivity].
  exfalso. apply R. eauto.
Qed.

Lemma holds_on_sigkill_timeout k m :
  holds m -> holds (on_sigkill_timeout k m).
Proof.
  intros H. unfold on_sigkill_timeout.
  destruct (kills m !! k) as [op |]; [| exact H].
  destruct (bool_decide _); [exact H |].
  apply holds_settle_kill.
  destruct (default false _); [| exact H].
  now apply holds_closeSessionHistory.
Qed.

Lemma holds_fire i now m : holds m -> holds (fire i now m).
Proof.
  intros H. unfold fire.
  destruct (timers m !! i) as [[due action] |]; [| exact H].
  destruct (Z.ltb now due); [exact H |].
  assert (H1 : holds (set_timers (delete i (timers m)) m))
    by (apply P_disarm; exact H).
  destruct action.
  - now apply holds_on_sigterm_timeout.
  - now apply holds_on_sigkill_timeout.
  - exact H1.
Qed.

Lemma holds_killByWorkspaceId ws now killThrows m :
  holds m -> holds (fst (killByWorkspaceId ws now killThrows m)).
Proof.
  intros H. unfold killByWorkspaceId.
  destruct (List.filter _ _) as [| e l]; [exact H |].
  assert (Hfold : forall l0 acc,
            holds (fst acc) ->
            holds (fst (fold_left
                          (fun '(m, ks) '(pane, r) =>
                             let p := default 0 (pty <$> objects m !! r) in
                             let '(m, k) :=
                               killSessionWithTimeout pane r now
                                 (killThrows p) m in
                             (m, ks ++ [k])) l0 acc))).
  { clear H e l. intros l.
    induction l as [| [pane r] l IH]; intros [m0 ks] H; [exact H |].
    cbn [fold_left]. apply IH. cbn zeta.
    pose proof (holds_killSessionWithTimeout pane r now
                  (killThrows (default 0 (pty <$> objects m0 !! r))) m0 H)
      as Hk.
    now destruct (killSessionWithTimeout pane r now _ m0). }
  apply Hfold. exact H.
Qed.

Lemma step_holds e m : holds m -> holds (step e m).
Proof.
  intros H. destruct e; cbn [step].
  - now apply holds_fire.
  - now apply holds_pty_exit.
  - now apply holds_killByWorkspaceId.
  - destruct (write pane data now m) as [m' |] eqn:E; [| exact H].
    eapply holds_write; eassumption.
  - now apply holds_resize.
  - now apply holds_createOrAttach.
  - now apply holds_after_retry.
  - exact H.
  - destruct (doCreateSession _ _ _ _ _ _ _) as [[m' res] |] eqn:E;
      [| exact H].
    eapply holds_doCreateSession; eassumption.
  - unfold lifecycle_event. now apply holds_with_lifecycle.
Qed.

Lemma run_holds es : forall m, holds m -> holds (run es m).
Proof.
  induction es as [| e es IH]; intros m H; [exact H |].
  cbn [run]. apply IH, step_holds, H.
Qed.

End KillInduction.

(** X12: Once a kill has resolved, its outcome never changes: whatever timers
    fire, processes exit or calls are made afterwards, the promise
    [killSessionWithTimeout] returned keeps the value it resolved with. *)
Theorem kill_outcome_is_final (m : TerminalManager) (k : nat) (b : bool)
    (es : list Event) :
  outcome (kills m) k = Some b -> outcome (kills (run es m)) k = Some b.
Proof.
  intros H.
  apply (run_holds (fun ks _ => outcome ks k = Some b)); [| | | | exact H];
    clear; unfold outcome.
  - intros ks ts j op b' Hj Hr H.
    destruct (decide (j = k)) as [-> | Hne].
    + rewrite Hj in H. cbn in H. congruence.
    + now rewrite list_lookup_insert_ne.
  - intros ks ts op H.
    destruct (ks !! k) as [o |] eqn:E; [| discriminate].
    now rewrite (lookup_app_l_Some _ _ _ _ E).
  - auto.
  - auto.
Qed.

(** X13: Every escalation timer that is armed belongs to a kill that is still
    unresolved: [cleanup] leaves no timer of the kill it settles behind. *)
Theorem no_timer_outlives_its_kill (m : TerminalManager) (es : list Event) :
  timers m = [] ->
  Forall (fun t => armable (kills (run es m)) (snd t)) (timers (run es m)).
Proof.
  intros H.
  apply (run_holds (fun ks ts => Forall (fun t => armable ks (snd t)) ts));
    [| | | | unfold holds; rewrite H; constructor]; clear.
  - intros ks ts k op b Hk Hr H. unfold disarm.
    apply Forall_forall. intros [due a] [[H1 H2] Hin]%list_elem_of_filter.
    rewrite Forall_forall in H. specialize (H _ Hin). cbn in *.
    destruct a as [j | j | pane]; [| | exact I];
      destruct H as (op' & Hj & Hr'); exists op'; (split; [| assumption]);
      rewrite list_lookup_insert_ne; congruence.
  - intros ks ts op H. eapply Forall_impl; [exact H |].
    intros [due a] Ha. cbn in *.
    destruct a as [j | j | pane]; [| | exact I];
      destruct Ha as (op' & Hj & Hr'); exists op'; (split; [| assumption]);
      now apply lookup_app_l_Some.
  - intros ks ts due a Ha H. apply Forall_app. split; [exact H |].
    now constructor.
  - intros ks ts i H. now apply Forall_delete.
Qed.

End Run.

Lemma kill_outcome_is_final_witness :
  outcome (kills (fst kill_unkillable)) 0 = Some false /\
  outcome
    (kills (run "/bin/sh" "/bin/zsh" 1000
              [PtyExit 1 0 None 3000 [] None; Fire 0 9000;
               KillWorkspace "w1" 9500 (fun _ => false)]
              (fst kill_unkillable))) 0 = Some false.
Proof.
  split; [reflexivity |].
  apply (kill_outcome_is_final "/bin/sh" "/bin/zsh" 1000
           (fst kill_unkillable) 0 false).
  reflexivity.
Defined.

Lemma no_timer_outlives_its_kill_witness :
  Forall
    (fun t =>
       armable
         (kills (run "/bin/sh" "/bin/zsh" 1000
                   [KillWorkspace "w1" 100 (fun _ => false); Fire 0 2100]
                   young_manager)) (snd t))
    (timers (run "/bin/sh" "/bin/zsh" 1000
               [KillWorkspace "w1" 100 (fun _ => false); Fire 0 2100]
               young_manager)).
Proof.
  apply (no_timer_outlives_its_kill "/bin/sh" "/bin/zsh" 1000 young_manager).
  reflexivity.
Defined.

(** *** Recovery of the scrollback *)

Lemma bounded_length (text : list N) :
  (Z.of_nat (length (bounded text)) <= MAX_SCROLLBACK_CHARS)%Z.
Proof.
  unfold bounded, MAX_SCROLLBACK_CHARS. rewrite length_drop. lia.
Qed.

(** X14: Without a scrollback handed over, what is recovered comes from the
    transcript on disk: it is a subsequence of it, at most
    [MAX_SCROLLBACK_CHARS] code units long, and counts as recovered exactly
    when the transcript is not empty. *)
Theorem disk_recovery_is_bounded (existing : option (list N))
    (disk : list N) :
  truthy existing = false ->
  fst (recoverScrollback existing disk) `sublist_of` disk /\
  (Z.of_nat (length (fst (recoverScrollback existing disk)))
   <= MAX_SCROLLBACK_CHARS)%Z /\
  snd (recoverScrollback existing disk) = negb (bool_decide (disk = [])).
Proof.
  intros H. unfold recoverScrollback. rewrite H.
  destruct disk as [| c tl]; [now cbn |].
  cbn [truthy fst snd].
  pose proof (SanitizerMore.sanitize_sublist (bounded (c :: tl))) as Hs.
  split; [| split; [| reflexivity]].
  - etransitivity; [exact Hs |]. unfold bounded. apply sublist_drop.
  - apply sublist_length in Hs.
    etransitivity; [apply Nat2Z.inj_le, Hs | apply bounded_length].
Qed.

Lemma disk_recovery_is_bounded_witness :
  fst (recoverScrollback None (Sanitizer.str "ls")) `sublist_of`
    Sanitizer.str "ls" /\
  (Z.of_nat (length (fst (recoverScrollback None (Sanitizer.str "ls"))))
   <= MAX_SCROLLBACK_CHARS)%Z /\
  snd (recoverScrollback None (Sanitizer.str "ls"))
  = negb (bool_decide (Sanitizer.str "ls" = [])).
Proof.
  apply (disk_recovery_is_bounded None (Sanitizer.str "ls")). reflexivity.
Defined.

(** *** Killing a workspace *)

(** The registry entries [killByWorkspaceId] selects. *)
Definition in_workspace (ws : string) (m : TerminalManager)
    : list (string * nat) :=
  List.filter
    (fun e => match objects m !! snd e with
              | Some s => bool_decide (workspaceId s = ws)
              | None => false
              end)
    (map_to_list (sessions m)).

Lemma kills_started now killThrows (l : list (string * nat)) :
  forall (acc : TerminalManager * list nat),
    length (snd (fold_left
                   (fun '(m, ks) '(pane, r) =>
                      let p := default 0 (pty <$> objects m !! r) in
                      let '(m, k) :=
                        killSessionWithTimeout pane r now (killThrows p) m in
                      (m, ks ++ [k])) l acc))
    = length (snd acc) + length l.
Proof.
  induction l as [| [pane r] l IH]; intros [m ks]; cbn [fold_left].
  - cbn. lia.
  - cbn zeta. destruct (killSessionWithTimeout pane r now _ m) as [m' k].
    rewrite IH. cbn [snd length]. rewrite length_app. cbn. lia.
Qed.

(** X15: Every session registered for the workspace is counted once in what
    [killByWorkspaceId] returns, as killed or as failed. *)
Theorem every_workspace_session_is_counted (ws : string) (now : Z)
    (killThrows : nat -> bool) (m m' : TerminalManager)
    (killed failed : nat) :
  killByWorkspaceId_result (snd (killByWorkspaceId ws now killThrows m)) m'
  = Some (killed, failed) ->
  killed + failed = length (in_workspace ws m).
Proof.
  intros H.
  assert (Hks : length (snd (killByWorkspaceId ws now killThrows m))
                = length (in_workspace ws m)).
  { unfold killByWorkspaceId, in_workspace.
    destruct (List.filter _ _) as [| e l] eqn:E; [reflexivity |].
    now rewrite kills_started. }
  unfold killByWorkspaceId_result in H.
  destruct (forallb _ _); [| discriminate].
  injection H as <- <-. rewrite length_map in *.
  pose proof (List.filter_length_le
                (fun o : option bool => bool_decide (o = Some true))
                (map (fun k => kills m' !! k ≫= resolved)
                   (snd (killByWorkspaceId ws now killThrows m)))) as Hle.
  rewrite length_map in Hle. lia.
Qed.

Lemma every_workspace_session_is_counted_witness :
  0 + 1 = length (in_workspace "w1" young_manager).
Proof.
  apply (every_workspace_session_is_counted "w1" 100 (fun _ => false)
           young_manager (fst kill_unkillable) 0 1).
  vm_compute. reflexivity.
Defined.

(** *** The fallback shell *)

Section FallbackOnce.

Variable FALLBACK_SHELL : string.
Variable defaultShell : string.
Variable SHELL_CRASH_THRESHOLD_MS : Z.

Lemma exitHandlers_closeSessionHistory r e m :
  exitHandlers (closeSessionHistory r e m) = exitHandlers m.
Proof.
  unfold closeSessionHistory.
  destruct (objects m !! r) as [s |]; [| reflexivity].
  now destruct (deleteHistoryOnExit s), (historyWriter s).
Qed.

(** The session a fallback respawn registers, and its exit handler. *)
Lemma respawned m r session params exitCode signal now disk p' :
  objects m !! r = Some session ->
  crashed_young SHELL_CRASH_THRESHOLD_MS session exitCode now = true ->
  let m1 := onExit FALLBACK_SHELL defaultShell SHELL_CRASH_THRESHOLD_MS
              r params exitCode signal now disk (Some p') m in
  exists new,
    exitHandlers m1
    = exitHandlers m
      ++ [(p', (length (objects m),
                with_fallback params (scrollback session)))] /\
    objects m1 !! length (objects m) = Some new /\
    isPersistentBackend new = false /\ usedFallback new = true.
Proof.
  intros Hobj Hy. unfold crashed_young in Hy.
  apply andb_true_iff in Hy as [Hy Hused].
  apply andb_true_iff in Hy as [Hy Hcode].
  apply andb_true_iff in Hy as [Hpers Hquick].
  apply negb_true_iff in Hpers.
  cbn zeta. unfold onExit. cbn zeta.
  assert (Hobj' : objects (update r (set_isAlive false) m) !! r
                  = Some (set_isAlive false session))
    by (cbn; now rewrite list_lookup_alter_eq, Hobj).
  rewrite Hobj'.
  cbn [isPersistentBackend isExpectedDetach startTime usedFallback scrollback
       set_isAlive].
  rewrite Hpers, Hquick, Hcode, Hused. cbn [andb].
  set (m0 := delete_session (params_paneId params)
               (closeSessionHistory r (Some exitCode)
                  (update r (set_isAlive false) m))).
  assert (Hlen : length (objects m0) = length (objects m)).
  { subst m0. cbn. rewrite closeSessionHistory_objects_length. cbn.
    apply length_alter. }
  assert (Hh : exitHandlers m0 = exitHandlers m).
  { subst m0. cbn. now rewrite exitHandlers_closeSessionHistory. }
  clearbody m0.
  unfold doCreateSession, createSession, with_fallback.
  cbn [useFallbackShell existingScrollback params_paneId params_cols
       params_rows params_workspaceId].
  destruct (recoverScrollback (or_null (scrollback session)) disk)
    as [recovered was].
  cbn. rewrite Hh, Hlen. eexists. split; [reflexivity |].
  split; [rewrite <- Hlen; now apply list_lookup_middle |].
  split; reflexivity.
Qed.

(** X16: The fallback shell is not replaced in its turn: when the shell that a
    fallback respawn started exits, however early and with whatever code,
    nothing is spawned and the exit is reported. *)
Theorem fallback_shell_is_not_replaced (m : TerminalManager) (r : nat)
    (session : TerminalSession) (params : CreateSessionParams)
    (exitCode : Z) (signal : option Z) (now : Z) (disk : list N) (p' : nat)
    (exitCode' : Z) (signal' : option Z) (now' : Z) (disk' : list N)
    (spawned' : option nat) :
  objects m !! r = Some session ->
  crashed_young SHELL_CRASH_THRESHOLD_MS session exitCode now = true ->
  Forall (fun h => fst h <> p') (exitHandlers m) ->
  let m1 := onExit FALLBACK_SHELL defaultShell SHELL_CRASH_THRESHOLD_MS
              r params exitCode signal now disk (Some p') m in
  let m2 := pty_exit FALLBACK_SHELL defaultShell SHELL_CRASH_THRESHOLD_MS
              p' exitCode' signal' now' disk' spawned' m1 in
  List.filter is_spawn (effects m2) = List.filter is_spawn (effects m1) /\
  exists pre,
    effects m2 = pre ++ [Emit_exit (params_paneId params) exitCode' signal'].
Proof.
  intros Hobj Hy Hfresh. cbn zeta.
  destruct (respawned m r session params exitCode signal now disk p' Hobj Hy)
    as (new & Hh & Hnew & Hpers & Hused).
  set (m1 := onExit _ _ _ r params exitCode signal now disk (Some p') m) in *.
  clearbody m1. unfold pty_exit.
  assert (Hfind : list_find (fun e => fst e = p') (exitHandlers m1)
                  = Some (length (exitHandlers m),
                          (p', (length (objects m),
                                with_fallback params (scrollback session))))).
  { rewrite Hh. apply list_find_app_Some. right.
    split; [lia |]. split.
    - apply list_find_None. eapply Forall_impl; [exact Hfresh |]. auto.
    - rewrite Nat.sub_diag. cbn. rewrite decide_True by reflexivity.
      reflexivity. }
  rewrite Hfind. unfold onExit. cbn zeta.
  set (m1' := set_exitHandlers _ m1).
  assert (Hnew' : objects (update (length (objects m)) (set_isAlive false) m1')
                    !! length (objects m)
                  = Some (set_isAlive false new))
    by (cbn; now rewrite list_lookup_alter_eq, Hnew).
  rewrite Hnew'.
  cbn [isPersistentBackend isExpectedDetach startTime usedFallback scrollback
       set_isAlive].
  rewrite Hpers, Hused. cbn [andb negb]. rewrite andb_false_r.
  destruct (report_exit_effects (length (objects m))
              (params_paneId (with_fallback params (scrollback session)))
              exitCode' signal' now'
              (update (length (objects m)) (set_isAlive false) m1'))
    as (pre & Hpre & Hfil).
  rewrite Hpre. split.
  - rewrite List.filter_app. cbn. now rewrite app_nil_r, Hfil.
  - now exists pre.
Qed.

End FallbackOnce.

Lemma fallback_shell_is_not_replaced_witness :
  exists pre,
    effects
      (pty_exit "/bin/sh" "/bin/zsh" 1000 2 1 None 200 [] (Some 3)
         (onExit "/bin/sh" "/bin/zsh" 1000 0 params_p1 1 None 150 []
            (Some 2) young_manager))
    = pre ++ [Emit_exit "p1" 1 None].
Proof.
  apply (fallback_shell_is_not_replaced "/bin/sh" "/bin/zsh" 1000
           young_manager 0 plain_session params_p1 1 None 150 [] 2
           1 None 200 [] (Some 3)).
  - reflexivity.
  - reflexivity.
  - repeat constructor. discriminate.
Defined.

(** *** The cleanup timer of an exited session *)

Section Cleanup.

Variable FALLBACK_SHELL : string.
Variable defaultShell : string.

(** X17: The timer [setupExitHandler] arms when it reports an exit deletes the
    registry entry of the pane, whichever session it holds by then: a
    session created for the pane in the meantime is dropped from the
    registry while its process is alive, and writes to the pane are
    refused. *)
Theorem cleanup_timer_drops_recreated_session (m : TerminalManager)
    (r : nat) (params : CreateSessionParams) (exitCode : Z)
    (signal : option Z) (now now1 t : Z) (disk : list N) (p' : nat)
    (m2 : TerminalManager) (res : SessionResult) :
  let pane := params_paneId params in
  let m1 := report_exit r pane exitCode signal now m in
  doCreateSession FALLBACK_SHELL defaultShell params now1 disk (Some p') m1
  = Some (m2, res) ->
  (now + 5000 <= t)%Z ->
  let m3 := fire (length (timers m1) - 1) t m2 in
  (exists new,
     get_session pane m2 = Some (length (objects m1), new) /\
     objects m3 !! length (objects m1) = Some new /\
     isAlive new = true /\ pty new = p') /\
  sessions m3 !! pane = None /\
  forall data now2, write pane data now2 m3 = inr (Session_not_found pane).
Proof.
  cbn zeta. intros Hcreate Ht.
  set (pane := params_paneId params) in *.
  set (m1 := report_exit r pane exitCode signal now m) in *.
  assert (Htimers : exists ts,
            timers m1 = ts ++ [((now + 5000)%Z, Session_cleanup pane)])
    by (eexists; reflexivity).
  destruct Htimers as (ts & Hts). clearbody m1.
  unfold doCreateSession, createSession in Hcreate.
  destruct (recoverScrollback (existingScrollback params) disk)
    as [recovered was].
  injection Hcreate as <- <-.
  set (new := {| pty := p'; paneId := params_paneId params;
                 workspaceId := params_workspaceId params;
                 cols := or_default (params_cols params) DEFAULT_COLS;
                 rows := or_default (params_rows params) DEFAULT_ROWS;
                 lastActive := now1; scrollback := recovered; isAlive := true;
                 wasRecovered := was;
                 shell := if useFallbackShell params then FALLBACK_SHELL
                          else defaultShell;
                 startTime := now1; usedFallback := useFallbackShell params;
                 isPersistentBackend := false; isExpectedDetach := false;
                 deleteHistoryOnExit := false; historyWriter := true |}).
  set (m2 := set_sessions _ _).
  assert (Hfire : fire (length (timers m1) - 1) t m2
                  = delete_session pane
                      (set_timers (delete (length (timers m1) - 1) (timers m2))
                         m2)).
  { unfold fire.
    assert (timers m2 !! (length (timers m1) - 1)
            = Some ((now + 5000)%Z, Session_cleanup pane)) as ->.
    { change (timers m2) with (timers m1). rewrite Hts, length_app. cbn.
      replace (length ts + 1 - 1) with (length ts) by lia.
      now apply list_lookup_middle. }
    now rewrite (proj2 (Z.ltb_ge t (now + 5000)%Z) Ht). }
  rewrite Hfire.
  assert (Hobj : objects m2 !! length (objects m1) = Some new)
    by (subst m2; cbn; now apply list_lookup_middle).
  split; [| split].
  - exists new. split; [| split; [exact Hobj | split; reflexivity]].
    unfold get_session.
    assert (sessions m2 !! pane = Some (length (objects m1))) as ->
      by (subst m2 pane; cbn; apply lookup_insert_eq).
    now rewrite Hobj.
  - cbn [sessions delete_session set_sessions]. apply lookup_delete_eq.
  - intros data now2. unfold write, get_session.
    cbn [sessions delete_session set_sessions].
    now rewrite lookup_delete_eq.
Qed.

End Cleanup.

Lemma cleanup_timer_drops_recreated_session_witness :
  sessions
    (fire 0 5200
       (default new_TerminalManager
          (fst <$> doCreateSession "/bin/sh" "/bin/zsh" params_p1 1000 []
                     (Some 2)
                     (report_exit 0 "p1" 0 None 200 young_manager))))
    !! "p1"%string = None.
Proof.
  destruct (doCreateSession "/bin/sh" "/bin/zsh" params_p1 1000 [] (Some 2)
              (report_exit 0 "p1" 0 None 200 young_manager))
    as [[m2 res] |] eqn:E; [| discriminate].
  cbn [fmap option_fmap option_map default fst].
  destruct (cleanup_timer_drops_recreated_session "/bin/sh" "/bin/zsh"
              young_manager 0 params_p1 0 None 200 1000 5200 [] 2 m2 res E)
    as (_ & H & _); [lia |].
  exact H.
Defined.

End ManagerInvariants.

(** ** Terminal output (session.ts) *)
Module SessionData.
Import Sanitizer.

Definition OSC7_BUFFER_SIZE : nat := 4096.

(** [s.slice(-n)] for a positive [n] *)
Definition slice_last (n : nat) (s : list char) : list char :=
  drop (length s - n) s.

(** [cmds.join(sep)] *)
Fixpoint join (sep : list char) (cmds : list (list char)) : list char :=
  match cmds with
  | [] => []
  | [c] => c
  | c :: tl => c ++ sep ++ join sep tl
  end.

(** What [processTerminalChunk] reads and writes of a session, and the
    calls it makes: [written] to the history writer, [scanned] to the port
    manager, [batched] to the data batcher, [clears] counts the calls of
    [onClearScrollback]. *)
Record SessionData := {
  scrollback : list char;
  cwd : list char;
  historyWriter : bool;
  written : list (list char);
  cwdUpdates : list (list char);
  clears : nat;
  scanned : list (list char);
  batched : list (list char)
}.

(** The closure of the [onData] callback [setupDataHandler] installs;
    [scheduled] holds the command strings of the 100 ms timeouts set. *)
Record DataHandler := {
  session : SessionData;
  osc7Buffer : list char;
  commandsSent : bool;
  scheduled : list (list char)
}.

Section Chunks.

(** Imported from [../terminal-escape-filter] and [shared/parse-cwd]. *)
Variable containsClearScrollbackSequence : list char -> bool.
Variable extractContentAfterClear : list char -> list char.
Variable parseCwd : list char -> option (list char).

Definition processTerminalChunk (s : SessionData) (data : list char)
    (osc7 : list char) : SessionData * list char :=
  let cleared := containsClearScrollbackSequence data in
  let dataToStore := if cleared then extractContentAfterClear data else data in
  let sanitizedDataToStore := sanitizeTerminalScrollback dataToStore in
  let newOsc7Buffer := slice_last OSC7_BUFFER_SIZE (osc7 ++ data) in
  let newCwd :=
    match parseCwd newOsc7Buffer with
    | Some (c :: tl) =>
        if bool_decide (c :: tl = cwd s) then None else Some (c :: tl)
    | _ => None
    end in
  ({| scrollback :=
        (if cleared then [] else scrollback s) ++ sanitizedDataToStore;
      cwd := default (cwd s) newCwd;
      historyWriter := historyWriter s;
      written :=
        if historyWriter s then written s ++ [sanitizedDataToStore]
        else written s;
      cwdUpdates :=
        match newCwd with
        | Some c => if historyWriter s then cwdUpdates s ++ [c]
                    else cwdUpdates s
        | None => cwdUpdates s
        end;
      clears := if cleared then S (clears s) else clears s;
      scanned := scanned s ++ [sanitizedDataToStore];
      batched := batched s ++ [data] |},
   newOsc7Buffer).

(** [initialCommandString] of [setupDataHandler] *)
Definition initialCommandString (initialCommands : option (list (list char)))
    (wasRecovered : bool) : option (list char) :=
  match initialCommands with
  | Some (c :: tl) =>
      if negb wasRecovered
      then Some (join (str " && ") (c :: tl) ++ [10%N])
      else None
  | _ => None
  end.

Definition setupDataHandler (s : SessionData) : DataHandler :=
  {| session := s; osc7Buffer := []; commandsSent := false; scheduled := [] |}.

(** The callback of [session.pty.onData]. *)
Definition onData (initialCommands : option (list (list char)))
    (wasRecovered : bool) (data : list char) (h : DataHandler) : DataHandler :=
  let '(s, newOsc7Buffer) :=
    processTerminalChunk (session h) data (osc7Buffer h) in
  match initialCommandString initialCommands wasRecovered with
  | Some cmd =>
      if commandsSent h
      then {| session := s; osc7Buffer := newOsc7Buffer;
              commandsSent := true; scheduled := scheduled h |}
      else {| session := s; osc7Buffer := newOsc7Buffer;
              commandsSent := true; scheduled := scheduled h ++ [cmd] |}
  | None =>
      {| session := s; osc7Buffer := newOsc7Buffer;
         commandsSent := commandsSent h; scheduled := scheduled h |}
  end.

(** The PTY delivers [chunks] one after the other. *)
Definition feed (initialCommands : option (list (list char)))
    (wasRecovered : bool) (chunks : list (list char)) (h : DataHandler)
    : DataHandler :=
  fold_left (fun h data => onData initialCommands wasRecovered data h)
    chunks h.

Lemma slice_last_app n a b :
  slice_last n (slice_last n a ++ b) = slice_last n (a ++ b).
Proof.
  unfold slice_last. rewrite !length_app, length_drop, !drop_app, drop_drop,
    length_drop.
  f_equal; f_equal; lia.
Qed.

Lemma slice_last_length n a : length (slice_last n a) <= n.
Proof. unfold slice_last. rewrite length_drop. lia. Qed.

Lemma osc7Buffer_onData cmds was data h :
  osc7Buffer (onData cmds was data h)
  = slice_last OSC7_BUFFER_SIZE (osc7Buffer h ++ data).
Proof.
  unfold onData, processTerminalChunk. cbn zeta.
  destruct (initialCommandString cmds was); [| reflexivity].
  now destruct (commandsSent h).
Qed.

Lemma osc7Buffer_feed cmds was chunks : forall h,
  length (osc7Buffer h) <= OSC7_BUFFER_SIZE ->
  osc7Buffer (feed cmds was chunks h)
  = slice_last OSC7_BUFFER_SIZE (osc7Buffer h ++ concat chunks).
Proof.
  unfold feed.
  induction chunks as [| d chunks IH]; intros h Hlen; cbn [fold_left concat].
  - rewrite app_nil_r. unfold slice_last.
    now replace (length (osc7Buffer h) - OSC7_BUFFER_SIZE) with 0 by lia.
  - rewrite IH, osc7Buffer_onData.
    + now rewrite slice_last_app, app_assoc.
    + rewrite osc7Buffer_onData. apply slice_last_length.
Qed.

(** X18: The OSC 7 buffer of a data handler is the end of the PTY's output so
    far: its last [OSC7_BUFFER_SIZE] code units, however the output was cut
    into chunks. *)
Theorem osc7Buffer_is_end_of_stream (s : SessionData)
    (initialCommands : option (list (list char))) (wasRecovered : bool)
    (chunks : list (list char)) :
  let h := feed initialCommands wasRecovered chunks (setupDataHandler s) in
  osc7Buffer h = slice_last OSC7_BUFFER_SIZE (concat chunks) /\
  length (osc7Buffer h) <= OSC7_BUFFER_SIZE.
Proof.
  cbn zeta. rewrite osc7Buffer_feed by (cbn; lia).
  cbn [setupDataHandler osc7Buffer app].
  split; [reflexivity | apply slice_last_length].
Qed.

Lemma scheduled_onData cmds was data h :
  (commandsSent h = false -> scheduled h = []) ->
  let h' := onData cmds was data h in
  (commandsSent h' = false -> scheduled h' = []) /\
  (scheduled h' = scheduled h \/
   commandsSent h = false /\
   exists cmd, initialCommandString cmds was = Some cmd /\
               scheduled h' = [cmd]) /\
  (forall cmd, initialCommandString cmds was = Some cmd ->
               commandsSent h' = true /\
               (commandsSent h = false -> scheduled h' = [cmd])).
Proof.
  intros Hinv. unfold onData, processTerminalChunk. cbn zeta.
  destruct (initialCommandString cmds was) as [cmd |].
  - destruct (commandsSent h) eqn:E; cbn.
    + split; [discriminate |]. split; [now left |].
      intros c _. split; [reflexivity | discriminate].
    + rewrite (Hinv eq_refl). cbn.
      split; [discriminate |]. split.
      * right. split; [reflexivity |]. now exists cmd.
      * intros c [= <-]. now split.
  - cbn. split; [exact Hinv |]. split; [now left |]. discriminate.
Qed.

(** X19: Initial commands are scheduled at most once, with the first chunk of
    output, as one line joined with [&&]; a recovered session and a session
    without initial commands schedule nothing. *)
Theorem initial_commands_sent_at_most_once (s : SessionData)
    (initialCommands : option (list (list char))) (wasRecovered : bool)
    (chunks : list (list char)) :
  let h := feed initialCommands wasRecovered chunks (setupDataHandler s) in
  match initialCommandString initialCommands wasRecovered, chunks with
  | Some cmd, _ :: _ => scheduled h = [cmd]
  | _, _ => scheduled h = []
  end /\
  (wasRecovered = true -> scheduled h = []).
Proof.
  cbn zeta.
  assert (Hgen : forall chunks h,
            (commandsSent h = false -> scheduled h = []) ->
            let h' := feed initialCommands wasRecovered chunks h in
            (commandsSent h' = false -> scheduled h' = []) /\
            match initialCommandString initialCommands wasRecovered with
            | Some cmd =>
                if commandsSent h then scheduled h' = scheduled h
                else match chunks with
                     | [] => scheduled h' = []
                     | _ :: _ => scheduled h' = [cmd]
                     end
            | None => scheduled h' = scheduled h
            end).
  { clear chunks. unfold feed.
    induction chunks as [| d chunks IH]; intros h Hinv; cbn [fold_left].
    - split; [exact Hinv |].
      destruct (initialCommandString _ _); [| reflexivity].
      destruct (commandsSent h) eqn:E; [reflexivity | now apply Hinv].
    - destruct (scheduled_onData initialCommands wasRecovered d h Hinv)
        as (Hinv' & Hstep & Hcmd).
      destruct (IH _ Hinv') as (Hinv'' & Hrest).
      split; [exact Hinv'' |].
      destruct (initialCommandString initialCommands wasRecovered)
        as [cmd |] eqn:Ecmd.
      + destruct (Hcmd cmd eq_refl) as [Hsent Hfirst].
        rewrite Hsent in Hrest. rewrite Hrest.
        destruct (commandsSent h) eqn:E.
        * destruct Hstep as [Hs | [Hs _]]; [exact Hs | discriminate].
        * now apply Hfirst.
      + rewrite Hrest.
        destruct Hstep as [Hs | (_ & cmd & Hc & _)]; [exact Hs | discriminate]. }
  destruct (Hgen chunks (setupDataHandler s) (fun _ => eq_refl))
    as [_ Hmain].
  cbn [setupDataHandler commandsSent scheduled] in Hmain.
  split.
  - destruct (initialCommandString initialCommands wasRecovered) as [cmd |];
      [| now destruct chunks].
    now destruct chunks.
  - intros ->. unfold initialCommandString in Hmain.
    destruct initialCommands as [[| c tl] |]; exact Hmain.
Qed.

Lemma scrollback_onData cmds was data h :
  containsClearScrollbackSequence data = false ->
  scrollback (session (onData cmds was data h))
  = scrollback (session h) ++ sanitizeTerminalScrollback data.
Proof.
  intros Hc. unfold onData, processTerminalChunk. cbn zeta. rewrite Hc.
  destruct (initialCommandString cmds was); [| reflexivity].
  now destruct (commandsSent h).
Qed.

Lemma concat_sublist (ls ls' : list (list char)) :
  Forall2 sublist ls ls' -> concat ls `sublist_of` concat ls'.
Proof.
  induction 1 as [| x y l l' Hxy _ IH]; cbn; [reflexivity |].
  now apply sublist_app.
Qed.

(** X20: As long as no chunk carries a clear-scrollback sequence, the stored
    scrollback grows by the chunks, each sanitized on its own: what is added
    is a subsequence of the PTY's output. *)
Theorem scrollback_grows_by_sanitized_chunks
    (initialCommands : option (list (list char))) (wasRecovered : bool)
    (chunks : list (list char)) (h : DataHandler) :
  Forall (fun data => containsClearScrollbackSequence data = false) chunks ->
  let h' := feed initialCommands wasRecovered chunks h in
  scrollback (session h')
  = scrollback (session h) ++ concat (map sanitizeTerminalScrollback chunks) /\
  concat (map sanitizeTerminalScrollback chunks) `sublist_of` concat chunks.
Proof.
  intros Hc. cbn zeta. split.
  - revert h. unfold feed.
    induction Hc as [| d chunks Hd _ IH]; intros h; cbn [fold_left map concat].
    + now rewrite app_nil_r.
    + rewrite IH, scrollback_onData by exact Hd. now rewrite app_assoc.
  - apply concat_sublist. clear. induction chunks as [| d chunks IH]; cbn.
    + constructor.
    + constructor; [apply SanitizerMore.sanitize_sublist | exact IH].
Qed.

End Chunks.

Lemma scrollback_grows_by_sanitized_chunks_witness :
  Forall (fun data => (fun _ : list char => false) data = false)
    [str "a;b"; str "cd"] /\
  scrollback
    (session
       (feed (fun _ => false) (fun d => d) (fun _ => None) None false
          [str "a;b"; str "cd"]
          (setupDataHandler
             {| scrollback := str "$ "; cwd := []; historyWriter := true;
                written := []; cwdUpdates := []; clears := 0; scanned := [];
                batched := [] |})))
  = str "$ " ++ concat (map sanitizeTerminalScrollback [str "a;b"; str "cd"]).
Proof.
  split; [repeat constructor |].
  apply (scrollback_grows_by_sanitized_chunks
           (fun _ => false) (fun d => d) (fun _ => None) None false
           [str "a;b"; str "cd"]).
  repeat constructor.
Defined.

End SessionData.

(** ** Closing a terminal *)
Module ManagerClosing.
Import Manager ManagerFacts.

(** [kill] after [await processPersistence.killSession(...)]; [r] is the
    session object the call holds.  The manager's OSC 7 buffers are left
    out of the model. *)
Definition kill_after_killSession (pane : string) (r : nat)
    (m : TerminalManager) : TerminalManager :=
  match objects m !! r with
  | None => m
  | Some session =>
      if isAlive session && negb (isExpectedDetach session)
      then effect (Pty_kill (pty session) None) m
      else
        let m := effect (Ports_remove pane) m in
        let m := closeSessionHistory r None m in
        delete_session pane m
  end.

(** [kill] up to [await processPersistence.killSession(...)], which only a
    session with a persistent backend reaches: the result then names the
    session object the call goes on with.  The lifecycle calls back into
    the manager while it closes. *)
Definition kill (pane : string) (deleteHistory : bool) (m : TerminalManager)
    : TerminalManager * option nat :=
  match get_session pane m with
  | None => (m, None)
  | Some (r, session) =>
      let m :=
        if deleteHistory then update r (set_deleteHistoryOnExit true) m
        else m in
      let m :=
        match lifecycles m !! pane with
        | Some _ =>
            let m :=
              fst (with_lifecycle pane (fun l => (Lifecycle.close l, tt)) m) in
            set_lifecycles (delete pane (lifecycles m)) m
        | None => m
        end in
      if isPersistentBackend session then (m, Some r)
      else (kill_after_killSession pane r m, None)
  end.

(** [kill] run to its end, nothing else happening while it waits for the
    backend. *)
Definition kill_to_end (pane : string) (deleteHistory : bool)
    (m : TerminalManager) : TerminalManager :=
  match kill pane deleteHistory m with
  | (m, Some r) => kill_after_killSession pane r m
  | (m, None) => m
  end.

Definition is_pty_kill (e : Effect) : bool :=
  match e with Pty_kill _ _ => true | _ => false end.

Lemma history_not_pty_kill e : is_history e = true -> is_pty_kill e = false.
Proof. now destruct e. Qed.

Lemma deliver_close pane l m :
  Lifecycle.state l <> Lifecycle.closed ->
  deliver pane
    (drop (length (Lifecycle.trace l)) (Lifecycle.trace (Lifecycle.close l))) m
  = handleLifecycleStateChange pane Lifecycle.closed (Lifecycle.state l) m.
Proof.
  intros Hst. unfold Lifecycle.close, Lifecycle.transition.
  cbn [Lifecycle.state Lifecycle.set_disposed].
  rewrite bool_decide_eq_false_2 by exact Hst.
  unfold Lifecycle.kill_pty. cbn.
  destruct (Lifecycle.ptyProcess l); cbn.
  - rewrite <- app_assoc, drop_app_length. reflexivity.
  - rewrite drop_app_length. reflexivity.
Qed.

Lemma handle_closed pane prev m r s :
  get_session pane m = Some (r, s) ->
  handleLifecycleStateChange pane Lifecycle.closed prev m
  = emit_exit pane 0 None (update r (set_isAlive false) m).
Proof.
  intros H. unfold handleLifecycleStateChange. rewrite H.
  now destruct prev.
Qed.

Lemma frame_notify_exit pane m :
  sessions (notify_exit pane m) = sessions m /\
  lifecycles (notify_exit pane m) = lifecycles m.
Proof.
  unfold notify_exit. induction (seq 0 (length (kills m))) as [| k ks IH]; cbn.
  - now split.
  - destruct (kills _ !! k) as [op |]; [| exact IH].
    destruct (listening op && _); [| exact IH].
    unfold settle_kill. destruct (kills _ !! k) as [op' |]; [| exact IH].
    now destruct (resolved op').
Qed.

Lemma frame_closeSessionHistory r e m :
  sessions (closeSessionHistory r e m) = sessions m /\
  lifecycles (closeSessionHistory r e m) = lifecycles m /\
  forall r', isAlive <$> objects (closeSessionHistory r e m) !! r'
             = isAlive <$> objects m !! r'.
Proof.
  unfold closeSessionHistory. destruct (objects m !! r) as [s |] eqn:E;
    [| now repeat split].
  assert (Halter : forall r', isAlive <$> alter (set_historyWriter false) r
                                            (objects m) !! r'
                              = isAlive <$> objects m !! r').
  { intros r'. destruct (decide (r = r')) as [<- | Hne].
    - rewrite list_lookup_alter_eq, E. reflexivity.
    - now rewrite list_lookup_alter_ne. }
  destruct (deleteHistoryOnExit s), (historyWriter s); cbn;
    repeat split; auto.
Qed.

(** X21: Killing a terminal that has a lifecycle closes it through the
    lifecycle: the lifecycle's callback marks the session dead and emits
    the exit event, once; the manager sends no signal of its own, and the
    session and the lifecycle leave the registry. *)
Theorem kill_closes_through_lifecycle (pane : string) (deleteHistory : bool)
    (m : TerminalManager) (r : nat) (s : TerminalSession)
    (l : Lifecycle.SessionLifecycle) :
  get_session pane m = Some (r, s) ->
  lifecycles m !! pane = Some l ->
  Lifecycle.state l <> Lifecycle.closed ->
  let m' := kill_to_end pane deleteHistory m in
  sessions m' !! pane = None /\
  lifecycles m' !! pane = None /\
  isAlive <$> objects m' !! r = Some false /\
  List.filter is_exit (effects m')
  = List.filter is_exit (effects m) ++ [Emit_exit pane 0 None] /\
  List.filter is_pty_kill (effects m')
  = List.filter is_pty_kill (effects m).
Proof.
  intros Hs Hl Hst. cbn zeta. unfold kill_to_end, kill. rewrite Hs.
  set (m0 := if deleteHistory then update r (set_deleteHistoryOnExit true) m
             else m).
  set (s0 := if deleteHistory then set_deleteHistoryOnExit true s else s).
  assert (Hs0 : get_session pane m0 = Some (r, s0)).
  { subst m0 s0. destruct deleteHistory; [| exact Hs].
    now apply get_session_update. }
  assert (Hl0 : lifecycles m0 !! pane = Some l)
    by (subst m0; now destruct deleteHistory).
  assert (He0 : effects m0 = effects m)
    by (subst m0; now destruct deleteHistory).
  clearbody m0 s0. cbn zeta. rewrite Hl0.
  unfold with_lifecycle. rewrite Hl0. cbn [fst].
  rewrite deliver_close by exact Hst.
  set (m1 := set_lifecycles _ m0).
  assert (Hs1 : get_session pane m1 = Some (r, s0)) by exact Hs0.
  assert (He1 : effects m1 = effects m) by exact He0.
  clearbody m1. rewrite (handle_closed pane _ m1 r s0 Hs1).
  set (m2 := emit_exit pane 0 None (update r (set_isAlive false) m1)).
  assert (Ho2 : objects m2 !! r = Some (set_isAlive false s0)).
  { subst m2. unfold emit_exit. rewrite objects_notify_exit. cbn.
    rewrite list_lookup_alter_eq.
    now rewrite (get_session_object pane m1 r s0 Hs1). }
  assert (He2 : effects m2 = effects m ++ [Emit_exit pane 0 None]).
  { subst m2. unfold emit_exit. rewrite effects_notify_exit. cbn.
    now rewrite He1. }
  clearbody m2.
  set (m3 := set_lifecycles (delete pane (lifecycles m2)) m2).
  assert (Hfinal :
    (if isPersistentBackend s
     then kill_after_killSession pane r m3
     else kill_after_killSession pane r m3)
    = delete_session pane
        (closeSessionHistory r None (effect (Ports_remove pane) m3))).
  { unfold kill_after_killSession.
    assert (objects m3 !! r = Some (set_isAlive false s0)) as -> by exact Ho2.
    now destruct (isPersistentBackend s). }
  assert (Hgoal :
    (let (m4, o) :=
       if isPersistentBackend s then (m3, Some r)
       else (kill_after_killSession pane r m3, None) in
     match o with
     | Some r0 => kill_after_killSession pane r0 m4
     | None => m4
     end)
    = delete_session pane
        (closeSessionHistory r None (effect (Ports_remove pane) m3))).
  { rewrite <- Hfinal. now destruct (isPersistentBackend s). }
  rewrite Hgoal. clear Hgoal Hfinal.
  destruct (frame_closeSessionHistory r None (effect (Ports_remove pane) m3))
    as (Hses & Hlif & Halive).
  split; [apply lookup_delete_eq |].
  split; [cbn [lifecycles delete_session set_sessions]; rewrite Hlif;
          apply lookup_delete_eq |].
  split.
  { cbn [objects delete_session set_sessions]. rewrite Halive.
    cbn. now rewrite Ho2. }
  cbn [effects delete_session set_sessions].
  rewrite !closeSessionHistory_filter
    by first [apply history_not_exit | apply history_not_pty_kill].
  subst m3. cbn [effects effect set_lifecycles].
  rewrite He2, !List.filter_app. cbn.
  now rewrite !app_nil_r.
Qed.

Lemma kill_closes_through_lifecycle_witness :
  sessions (kill_to_end "p1" false attached_manager) !! "p1"%string = None /\
  List.filter is_exit (effects (kill_to_end "p1" false attached_manager))
  = List.filter is_exit (effects attached_manager) ++ [Emit_exit "p1" 0 None] /\
  List.filter is_pty_kill (effects (kill_to_end "p1" false attached_manager))
  = List.filter is_pty_kill (effects attached_manager).
Proof.
  assert (Hs : get_session "p1" attached_manager
               = Some (0, persistent_session "p1" 1))
    by (vm_compute; reflexivity).
  assert (Hl : lifecycles attached_manager !! "p1"%string
               = Some (Lifecycle.run LifecycleFacts.attach_ok
                         Lifecycle.new_SessionLifecycle))
    by (vm_compute; reflexivity).
  assert (Hst : Lifecycle.state (Lifecycle.run LifecycleFacts.attach_ok
                                   Lifecycle.new_SessionLifecycle)
                <> Lifecycle.closed)
    by (vm_compute; discriminate).
  pose proof (kill_closes_through_lifecycle "p1" false attached_manager 0
                (persistent_session "p1" 1) _ Hs Hl Hst)
    as (H1 & _ & _ & H4 & H5).
  split; [exact H1 |]. split; [exact H4 | exact H5].
Defined.

End ManagerClosing.

(** ** Reconnecting *)
Module ManagerReconnect.
Import Manager ManagerFacts.

(** The callbacks [handleLifecycleStateChange] does not act on. *)
Definition harmless (e : Lifecycle.Effect) : bool :=
  match e with
  | Lifecycle.StateChange Lifecycle.failed _
  | Lifecycle.StateChange Lifecycle.closed _
  | Lifecycle.StateChange Lifecycle.connected Lifecycle.reconnecting => false
  | _ => true
  end.

Lemma deliver_harmless pane es : forall m,
  forallb harmless es = true -> deliver pane es m = m.
Proof.
  unfold deliver. induction es as [| e es IH]; intros m H; [reflexivity |].
  cbn in H. apply andb_true_iff in H as [He Hes]. cbn [fold_left].
  assert (Hstep : match e with
                  | Lifecycle.StateChange st prev =>
                      handleLifecycleStateChange pane st prev m
                  | _ => m
                  end = m).
  { destruct e as [st prev | | | | | | | |]; try reflexivity.
    unfold handleLifecycleStateChange.
    destruct st, prev; try discriminate; cbn;
      now destruct (get_session pane m) as [[? ?] |]. }
  rewrite Hstep. now apply IH.
Qed.

Lemma lifecycle_event_harmless pane e m l :
  lifecycles m !! pane = Some l ->
  forallb harmless
    (drop (length (Lifecycle.trace l)) (Lifecycle.trace (Lifecycle.step e l)))
  = true ->
  lifecycle_event pane e m
  = set_lifecycles (<[pane := Lifecycle.step e l]> (lifecycles m)) m.
Proof.
  intros Hl H. unfold lifecycle_event, with_lifecycle. rewrite Hl. cbn [fst].
  now apply deliver_harmless.
Qed.

(** A reconnect that succeeds: the back-off elapses, the backend still has
    the session and hands out the PTY [p2]. *)
Definition reattach (p2 : nat) : list Lifecycle.Event :=
  [ Lifecycle.Resume 0 Lifecycle.Elapsed;
    Lifecycle.Resume 0 (Lifecycle.Resolved_bool true);
    Lifecycle.Resume 0 (Lifecycle.Resolved_pty p2) ].

(** X22: After the PTY of a session exited and the lifecycle re-attached, the
    lifecycle is connected to the new PTY but the session object is as it
    was, its [pty] still the one that exited: the lifecycle reports
    [connected] coming from [connecting], and [handleLifecycleStateChange]
    refreshes the session only for [connected] coming from
    [reconnecting]. *)
Theorem reconnect_does_not_refresh_session_pty (m : TerminalManager)
    (pane : string) (r : nat) (s : TerminalSession)
    (l : Lifecycle.SessionLifecycle) (c rw delay : Z) (p2 : nat) :
  get_session pane m = Some (r, s) ->
  lifecycles m !! pane = Some l ->
  Lifecycle.state l = Lifecycle.reconnecting ->
  Lifecycle.disposed l = false ->
  Lifecycle.frames l = [Lifecycle.OnExit_delay c rw delay] ->
  let m' := fold_left (fun m e => lifecycle_event pane e m) (reattach p2) m in
  (exists l',
     lifecycles m' !! pane = Some l' /\
     Lifecycle.getState l' = Lifecycle.connected /\
     Lifecycle.getPty l' = Some p2) /\
  get_session pane m' = Some (r, s) /\
  effects m' = effects m.
Proof.
  intros Hs Hl Hst Hd Hf.
  destruct l as [st p ap rc dims d fs w tr]. cbn in Hst, Hd, Hf. subst.
  set (l0 := {| Lifecycle.state := Lifecycle.reconnecting;
                Lifecycle.ptyProcess := p; Lifecycle.attachPromise := ap;
                Lifecycle.retryCount := rc; Lifecycle.lastDimensions := dims;
                Lifecycle.disposed := false;
                Lifecycle.frames := [Lifecycle.OnExit_delay c rw delay];
                Lifecycle.wired := w; Lifecycle.trace := tr |}) in *.
  set (l1 := Lifecycle.step (Lifecycle.Resume 0 Lifecycle.Elapsed) l0).
  set (l2 := Lifecycle.step
               (Lifecycle.Resume 0 (Lifecycle.Resolved_bool true)) l1).
  set (l3 := Lifecycle.step
               (Lifecycle.Resume 0 (Lifecycle.Resolved_pty p2)) l2).
  assert (H1 : drop (length (Lifecycle.trace l0)) (Lifecycle.trace l1)
               = [Lifecycle.StateChange Lifecycle.connecting
                    Lifecycle.reconnecting;
                  Lifecycle.SessionExistsCall]).
  { change (Lifecycle.trace l1)
      with ((Lifecycle.trace l0
             ++ [Lifecycle.StateChange Lifecycle.connecting
                   Lifecycle.reconnecting])
            ++ [Lifecycle.SessionExistsCall]).
    rewrite <- app_assoc. apply drop_app_length. }
  assert (H2 : drop (length (Lifecycle.trace l1)) (Lifecycle.trace l2)
               = [Lifecycle.AttachSessionCall c rw]).
  { change (Lifecycle.trace l2)
      with (Lifecycle.trace l1 ++ [Lifecycle.AttachSessionCall c rw]).
    apply drop_app_length. }
  assert (H3 : drop (length (Lifecycle.trace l2)) (Lifecycle.trace l3)
               = [Lifecycle.PtyResize p2 c rw;
                  Lifecycle.StateChange Lifecycle.connected
                    Lifecycle.connecting]).
  { change (Lifecycle.trace l3)
      with ((Lifecycle.trace l2 ++ [Lifecycle.PtyResize p2 c rw])
            ++ [Lifecycle.StateChange Lifecycle.connected
                  Lifecycle.connecting]).
    rewrite <- app_assoc. apply drop_app_length. }
  cbn zeta. unfold reattach. cbn [fold_left].
  rewrite (lifecycle_event_harmless pane _ m l0 Hl) by (fold l1; now rewrite H1).
  fold l1. set (m1 := set_lifecycles _ m).
  assert (Hl1 : lifecycles m1 !! pane = Some l1) by apply lookup_insert_eq.
  rewrite (lifecycle_event_harmless pane _ m1 l1 Hl1)
    by (fold l2; now rewrite H2).
  fold l2. set (m2 := set_lifecycles _ m1).
  assert (Hl2 : lifecycles m2 !! pane = Some l2) by apply lookup_insert_eq.
  rewrite (lifecycle_event_harmless pane _ m2 l2 Hl2)
    by (fold l3; now rewrite H3).
  fold l3. split; [| split; [exact Hs | reflexivity]].
  exists l3. split; [apply lookup_insert_eq |]. split; reflexivity.
Qed.

Lemma reconnect_does_not_refresh_session_pty_witness :
  get_session "p1"
    (fold_left (fun m e => lifecycle_event "p1" e m) (reattach 2)
       reconnecting_manager)
  = Some (0, persistent_session "p1" 1) /\
  (Lifecycle.getPty <$>
     lifecycles
       (fold_left (fun m e => lifecycle_event "p1" e m) (reattach 2)
          reconnecting_manager) !! "p1"%string) = Some (Some 2).
Proof.
  assert (Hs : get_session "p1" reconnecting_manager
               = Some (0, persistent_session "p1" 1))
    by (vm_compute; reflexivity).
  assert (Hl : lifecycles reconnecting_manager !! "p1"%string
               = Some reconnecting_lifecycle)
    by (vm_compute; reflexivity).
  pose proof (reconnect_does_not_refresh_session_pty reconnecting_manager
                "p1" 0 (persistent_session "p1" 1) reconnecting_lifecycle
                80 24 100 2 Hs Hl eq_refl eq_refl eq_refl)
    as ((l' & Hl' & _ & Hp) & Hs' & _).
  split; [exact Hs' |]. rewrite Hl'. cbn. now rewrite Hp.
Defined.

End ManagerReconnect.

(** ** Detaching a lifecycle *)
Module LifecycleDetach.
Import Lifecycle LifecycleFacts.

(** [detach()], then the PTY it killed exits while the backend still has
    the session: the exit handler asks the backend, waits for the back-off
    and attaches again, and the backend hands out the PTY [p2]. *)
Definition reconnect_after_detach (p p2 : pty) : list Event :=
  [ Call_detach; PtyExit p; Resume 0 (Resolved_bool true); Resume 0 Elapsed;
    Resume 0 (Resolved_bool true); Resume 0 (Resolved_pty p2) ].

(** X23: [detach()] does not last: it leaves the instance disconnected and
    without PTY, but not disposed, so the exit of the PTY it killed runs
    the reconnect sequence of the exit handler and the instance ends
    connected to a new PTY. *)
Theorem detach_is_undone_by_pty_exit (l : SessionLifecycle) (p p2 : pty)
    (c rw : Z) :
  disposed l = false ->
  state l = connected ->
  ptyProcess l = Some p ->
  lookup_wired p (wired l) = Some (c, rw) ->
  frames l = [] ->
  retryCount l < MAX_RETRIES ->
  state (detach l) = disconnected /\
  ptyProcess (detach l) = None /\
  let l' := run (reconnect_after_detach p p2) l in
  state l' = connected /\ ptyProcess l' = Some p2 /\ disposed l' = false.
Proof.
  intros Hd Hst Hp Hw Hf Hrc.
  destruct l as [st p0 ap rc dims d fs w tr]. cbn in Hd, Hst, Hp, Hw, Hf, Hrc.
  subst. split; [reflexivity |]. split; [reflexivity |].
  cbn zeta. unfold reconnect_after_detach, run. cbn [fold_left].
  assert (Hlt : Nat.ltb rc MAX_RETRIES = true) by now apply Nat.ltb_lt.
  set (l0 := {| state := connected; ptyProcess := Some p; attachPromise := ap;
                retryCount := rc; lastDimensions := dims; disposed := false;
                frames := []; wired := w; trace := tr |}).
  set (l1 := step Call_detach l0).
  assert (E2 : step (PtyExit p) l1
               = suspend (OnExit_sessionExists c rw)
                   (emit SessionExistsCall (set_wired (unwire p w) l1))).
  { unfold step. change (wired l1) with w. rewrite Hw. reflexivity. }
  rewrite E2. clear E2.
  set (l2 := suspend _ _).
  set (delay := default 1000%Z (RETRY_DELAYS_MS !! (S rc - 1))).
  assert (E3 : step (Resume 0 (Resolved_bool true)) l2
               = suspend (OnExit_delay c rw delay)
                   (emit (SetTimeout delay)
                      (transition reconnecting
                         (set_retryCount (S rc) (set_frames [] l2))))).
  { unfold step, resume.
    change (frames l2 !! 0) with (Some (OnExit_sessionExists c rw)).
    cbv beta iota zeta. unfold onExit_after_sessionExists. cbn [negb].
    change (retryCount (set_frames (delete 0 (frames l2)) l2)) with rc.
    rewrite Hlt. reflexivity. }
  rewrite E3. clear E3.
  repeat split.
Qed.

Lemma detach_is_undone_by_pty_exit_witness :
  state (detach (run attach_ok new_SessionLifecycle)) = disconnected /\
  state (run (reconnect_after_detach 1 2) (run attach_ok new_SessionLifecycle))
  = connected /\
  ptyProcess
    (run (reconnect_after_detach 1 2) (run attach_ok new_SessionLifecycle))
  = Some 2.
Proof.
  destruct (detach_is_undone_by_pty_exit (run attach_ok new_SessionLifecycle)
              1 2 80 24) as (H1 & _ & H2 & H3 & _).
  - reflexivity.
  - reflexivity.
  - reflexivity.
  - reflexivity.
  - reflexivity.
  - apply Nat.ltb_lt. reflexivity.
  - split; [exact H1 |]. split; [exact H2 | exact H3].
Defined.

End LifecycleDetach.

(** ** Deduplication of createOrAttach *)
Module ManagerDedup.
Import Manager ManagerFacts ManagerInvariants.

(** The register of creations: the promises pending per pane and the
    creations started so far. *)
Definition reg (m : TerminalManager)
    : gmap string nat * list (CreateSessionParams * option nat) :=
  (pendingSessions m, creations m).

Lemma reg_settle_kill k b m : reg (settle_kill k b m) = reg m.
Proof.
  unfold settle_kill. destruct (kills m !! k) as [op |]; [| reflexivity].
  now destruct (resolved op).
Qed.

Lemma reg_notify_exit pane m : reg (notify_exit pane m) = reg m.
Proof.
  unfold notify_exit. induction (seq 0 (length (kills m))) as [| k ks IH]; cbn.
  - reflexivity.
  - destruct (kills _ !! k) as [op |]; [| exact IH].
    destruct (listening op && _); [| exact IH].
    now rewrite reg_settle_kill.
Qed.

Lemma reg_emit_exit pane exitCode signal m :
  reg (emit_exit pane exitCode signal m) = reg m.
Proof. unfold emit_exit. now rewrite reg_notify_exit. Qed.

Lemma reg_handle pane st prev m :
  reg (handleLifecycleStateChange pane st prev m) = reg m.
Proof.
  unfold handleLifecycleStateChange.
  destruct (get_session pane m) as [[r s] |];
    destruct st, prev; cbn zeta iota;
    repeat case_match; rewrite ?reg_emit_exit; reflexivity.
Qed.

Lemma reg_deliver pane es : forall m, reg (deliver pane es m) = reg m.
Proof.
  unfold deliver. induction es as [| e es IH]; intros m; cbn; [reflexivity |].
  rewrite IH. destruct e; try reflexivity. apply reg_handle.
Qed.

Lemma reg_with_lifecycle {A} pane
    (f : Lifecycle.SessionLifecycle -> Lifecycle.SessionLifecycle * A) m :
  reg (fst (with_lifecycle pane f m)) = reg m.
Proof.
  unfold with_lifecycle.
  destruct (lifecycles m !! pane) as [l |]; [| reflexivity].
  destruct (f l) as [l' a]. cbn [fst]. now rewrite reg_deliver.
Qed.

Lemma reg_write pane data now m m' :
  write pane data now m = inl m' -> reg m' = reg m.
Proof.
  unfold write. intros E. repeat case_match; simplify_eq; reflexivity.
Qed.

Lemma reg_resize pane c r now m : reg (resize pane c r now m) = reg m.
Proof. unfold resize. repeat case_match; reflexivity. Qed.

Lemma reg_answer_existing params r now m :
  reg (fst (answer_existing params r now m)) = reg m.
Proof.
  unfold answer_existing. cbn [fst].
  destruct (params_cols params), (params_rows params);
    rewrite ?reg_resize; reflexivity.
Qed.

Lemma reg_after_retry params r reattached now m :
  reg (fst (createOrAttach_after_retry params r reattached now m)) = reg m.
Proof.
  unfold createOrAttach_after_retry. rewrite reg_answer_existing.
  repeat case_match; reflexivity.
Qed.

Lemma reg_closeSessionHistory r e m : reg (closeSessionHistory r e m) = reg m.
Proof.
  unfold closeSessionHistory. destruct (objects m !! r) as [s |]; [| reflexivity].
  now destruct (deleteHistoryOnExit s), (historyWriter s).
Qed.

Lemma reg_report_exit r pane exitCode signal now m :
  reg (report_exit r pane exitCode signal now m) = reg m.
Proof.
  unfold report_exit.
  change (reg (emit_exit pane exitCode signal
                 (effect (Ports_remove pane)
                    (closeSessionHistory r (Some exitCode) m))) = reg m).
  rewrite reg_emit_exit. apply (reg_closeSessionHistory r (Some exitCode) m).
Qed.

Section Env.

Variable FALLBACK_SHELL : string.
Variable defaultShell : string.
Variable SHELL_CRASH_THRESHOLD_MS : Z.

Lemma reg_doCreateSession params now disk spawned m m' res :
  doCreateSession FALLBACK_SHELL defaultShell params now disk spawned m
  = Some (m', res) ->
  reg m' = reg m.
Proof.
  unfold doCreateSession. intros E.
  destruct (createSession _ _ _ _ _ _); simplify_eq. reflexivity.
Qed.

Lemma reg_onExit r params exitCode signal now disk spawned m :
  reg (onExit FALLBACK_SHELL defaultShell SHELL_CRASH_THRESHOLD_MS
         r params exitCode signal now disk spawned m) = reg m.
Proof.
  unfold onExit. cbn zeta.
  destruct (objects (update r (set_isAlive false) m) !! r) as [s |];
    [| reflexivity].
  destruct (isPersistentBackend s && isExpectedDetach s); [reflexivity |].
  destruct (isPersistentBackend s).
  { rewrite reg_emit_exit.
    apply (reg_closeSessionHistory r (Some exitCode)
             (update r (set_isAlive false) m)). }
  destruct (_ && negb (usedFallback s)).
  - destruct (doCreateSession _ _ _ _ _ _ _) as [[m' res] |] eqn:E.
    + rewrite (reg_doCreateSession _ _ _ _ _ _ _ E).
      apply (reg_closeSessionHistory r (Some exitCode)
               (update r (set_isAlive false) m)).
    + rewrite reg_report_exit.
      apply (reg_closeSessionHistory r (Some exitCode)
               (update r (set_isAlive false) m)).
  - now rewrite reg_report_exit.
Qed.

Lemma reg_pty_exit p exitCode signal now disk spawned m :
  reg (pty_exit FALLBACK_SHELL defaultShell SHELL_CRASH_THRESHOLD_MS
         p exitCode signal now disk spawned m) = reg m.
Proof.
  unfold pty_exit.
  destruct (list_find _ _) as [[i [q [r params]]] |]; [| reflexivity].
  now rewrite reg_onExit.
Qed.

End Env.

Lemma reg_killSessionWithTimeout pane r now killThrows m :
  reg (fst (killSessionWithTimeout pane r now killThrows m)) = reg m.
Proof.
  unfold killSessionWithTimeout.
  destruct (objects m !! r) as [s |]; [| reflexivity].
  destruct (negb (isAlive s)); cbn [fst].
  - apply (reg_closeSessionHistory r None
             (update r (set_deleteHistoryOnExit true) m)).
  - destruct killThrows; cbn [fst]; [| reflexivity].
    now rewrite reg_settle_kill, reg_closeSessionHistory.
Qed.

Lemma reg_on_sigterm_timeout k now m : reg (on_sigterm_timeout k now m) = reg m.
Proof. unfold on_sigterm_timeout. repeat case_match; reflexivity. Qed.

Lemma reg_on_sigkill_timeout k m : reg (on_sigkill_timeout k m) = reg m.
Proof.
  unfold on_sigkill_timeout.
  destruct (kills m !! k) as [op |]; [| reflexivity].
  destruct (bool_decide _); [reflexivity |].
  rewrite reg_settle_kill.
  destruct (default false _); [| reflexivity].
  now rewrite reg_closeSessionHistory.
Qed.

Lemma reg_fire i now m : reg (fire i now m) = reg m.
Proof.
  unfold fire.
  destruct (timers m !! i) as [[due action] |]; [| reflexivity].
  destruct (Z.ltb now due); [reflexivity |].
  destruct action.
  - now rewrite reg_on_sigterm_timeout.
  - now rewrite reg_on_sigkill_timeout.
  - reflexivity.
Qed.

Lemma reg_killByWorkspaceId ws now killThrows m :
  reg (fst (killByWorkspaceId ws now killThrows m)) = reg m.
Proof.
  unfold killByWorkspaceId.
  destruct (List.filter _ _) as [| e l]; [reflexivity |].
  assert (Hfold : forall l0 acc,
            reg (fst (fold_left
                        (fun '(m, ks) '(pane, r) =>
                           let p := default 0 (pty <$> objects m !! r) in
                           let '(m, k) :=
                             killSessionWithTimeout pane r now
                               (killThrows p) m in
                           (m, ks ++ [k])) l0 acc))
            = reg (fst acc)).
  { clear e l. intros l0.
    induction l0 as [| [pane r] l0 IH]; intros [m0 ks]; [reflexivity |].
    cbn [fold_left]. rewrite IH. cbn zeta.
    pose proof (reg_killSessionWithTimeout pane r now
                  (killThrows (default 0 (pty <$> objects m0 !! r))) m0)
      as Hk.
    now destruct (killSessionWithTimeout pane r now _ m0). }
  apply Hfold.
Qed.

Lemma reg_eq m m' :
  reg m' = reg m ->
  pendingSessions m' = pendingSessions m /\ creations m' = creations m.
Proof. unfold reg. now intros [= -> ->]. Qed.

(** The creations started for a pane. *)
Definition for_pane (pane : string) (c : CreateSessionParams * option nat)
    : bool :=
  bool_decide (params_paneId (fst c) = pane).

Definition started_for (pane : string) (m : TerminalManager)
    : list (CreateSessionParams * option nat) :=
  List.filter (for_pane pane) (creations m).

(** Every event but the [finally] of a [createOrAttach] for the pane. *)
Definition keeps_pending (pane : string) (e : Event) : bool :=
  match e with
  | Finally params => negb (bool_decide (params_paneId params = pane))
  | _ => true
  end.

Lemma createOrAttach_pending params now m promise :
  pendingSessions m !! params_paneId params = Some promise ->
  createOrAttach params now m = (m, Await_pending promise).
Proof. intros Hp. unfold createOrAttach. now rewrite Hp. Qed.

(** With nothing pending and no alive session, the call starts one
    creation and registers its promise for the pane. *)
Lemma createOrAttach_starts params now m :
  pendingSessions m !! params_paneId params = None ->
  (forall r s, get_session (params_paneId params) m = Some (r, s) ->
               isAlive s = false) ->
  snd (createOrAttach params now m) = Await_creation (length (creations m)) /\
  creations (fst (createOrAttach params now m))
  = creations m ++ [(params, fst <$> get_session (params_paneId params) m)] /\
  pendingSessions (fst (createOrAttach params now m))
  = <[params_paneId params := length (creations m)]> (pendingSessions m).
Proof.
  intros Hp Hdead. unfold createOrAttach. rewrite Hp.
  destruct (get_session (params_paneId params) m) as [[r s] |] eqn:Hs.
  - rewrite (Hdead r s eq_refl). now destruct (isExpectedDetach s).
  - repeat split.
Qed.

(** A call for another pane leaves the pane's promise and creations. *)
Lemma createOrAttach_other pane params now m :
  params_paneId params <> pane ->
  pendingSessions (fst (createOrAttach params now m)) !! pane
  = pendingSessions m !! pane /\
  started_for pane (fst (createOrAttach params now m)) = started_for pane m.
Proof.
  intros Hne.
  assert (Hsame : forall m', reg m' = reg m ->
            pendingSessions m' !! pane = pendingSessions m !! pane /\
            started_for pane m' = started_for pane m).
  { intros m' [Hp Hc]%reg_eq. unfold started_for. now rewrite Hp, Hc. }
  assert (Hnew : forall existing m0,
            reg m0 = reg m ->
            let m1 := set_creations (creations m0 ++ [(params, existing)]) m0 in
            let m2 := set_pendingSessions
                        (<[params_paneId params := length (creations m0)]>
                           (pendingSessions m1)) m1 in
            pendingSessions m2 !! pane = pendingSessions m !! pane /\
            started_for pane m2 = started_for pane m).
  { intros existing m0 [Hp Hc]%reg_eq. cbn. unfold started_for. cbn.
    rewrite lookup_insert_ne by exact Hne. rewrite Hp, Hc.
    split; [reflexivity |]. rewrite List.filter_app. cbn.
    unfold for_pane at 2. cbn.
    rewrite bool_decide_eq_false_2 by exact Hne. apply app_nil_r. }
  unfold createOrAttach.
  destruct (pendingSessions m !! params_paneId params); [now apply Hsame |].
  destruct (get_session (params_paneId params) m) as [[r s] |];
    [| exact (Hnew None m eq_refl)].
  destruct (isAlive s).
  - destruct (lifecycles m !! params_paneId params) as [l |].
    + destruct (bool_decide _).
      * cbn [fst]. apply Hsame, reg_with_lifecycle.
      * pose proof (reg_answer_existing params r now m) as Ha.
        destruct (answer_existing params r now m). now apply Hsame.
    + pose proof (reg_answer_existing params r now m) as Ha.
      destruct (answer_existing params r now m). now apply Hsame.
  - destruct (isExpectedDetach s).
    + exact (Hnew (Some r) (delete_session (params_paneId params) m) eq_refl).
    + exact (Hnew (Some r) m eq_refl).
Qed.

Section Pending.

Variable FALLBACK_SHELL : string.
Variable defaultShell : string.
Variable SHELL_CRASH_THRESHOLD_MS : Z.

Lemma step_keeps_pending pane promise e m :
  keeps_pending pane e = true ->
  pendingSessions m !! pane = Some promise ->
  pendingSessions
    (step FALLBACK_SHELL defaultShell SHELL_CRASH_THRESHOLD_MS e m) !! pane
  = Some promise /\
  started_for pane
    (step FALLBACK_SHELL defaultShell SHELL_CRASH_THRESHOLD_MS e m)
  = started_for pane m.
Proof.
  intros Hk Hp.
  assert (Hsame : forall m', reg m' = reg m ->
            pendingSessions m' !! pane = Some promise /\
            started_for pane m' = started_for pane m).
  { intros m' [Hp' Hc]%reg_eq. unfold started_for. now rewrite Hp', Hc. }
  destruct e; cbn [ManagerInvariants.step].
  - apply Hsame, reg_fire.
  - apply Hsame, reg_pty_exit.
  - apply Hsame, reg_killByWorkspaceId.
  - destruct (write pane0 data now m) as [m' |] eqn:E; [| now apply Hsame].
    eapply Hsame, reg_write, E.
  - apply Hsame, reg_resize.
  - destruct (decide (params_paneId params = pane)) as [<- | Hne].
    + rewrite (createOrAttach_pending params now m promise Hp). now apply Hsame.
    + destruct (createOrAttach_other pane params now m Hne) as [H1 H2].
      now rewrite H1, H2.
  - apply Hsame, reg_after_retry.
  - cbn in Hk. apply negb_true_iff, bool_decide_eq_false in Hk.
    unfold createOrAttach_finally, started_for. cbn.
    now rewrite lookup_delete_ne.
  - destruct (doCreateSession _ _ _ _ _ _ _) as [[m' res] |] eqn:E;
      [| now apply Hsame].
    eapply Hsame, reg_doCreateSession, E.
  - unfold lifecycle_event. apply Hsame, reg_with_lifecycle.
Qed.

Lemma run_keeps_pending pane promise es : forall m,
  forallb (keeps_pending pane) es = true ->
  pendingSessions m !! pane = Some promise ->
  pendingSessions
    (run FALLBACK_SHELL defaultShell SHELL_CRASH_THRESHOLD_MS es m) !! pane
  = Some promise /\
  started_for pane
    (run FALLBACK_SHELL defaultShell SHELL_CRASH_THRESHOLD_MS es m)
  = started_for pane m.
Proof.
  induction es as [| e es IH]; intros m Hk Hp; [now split |].
  cbn in Hk. apply andb_true_iff in Hk as [He Hes].
  destruct (step_keeps_pending pane promise e m He Hp) as [Hp1 Hc1].
  destruct (IH _ Hes Hp1) as [Hp2 Hc2].
  cbn [ManagerInvariants.run]. split; [exact Hp2 | now rewrite Hc2].
Qed.

(** C1, amended: a call that finds nothing pending and no alive session
    for the pane starts one creation and registers its promise; until the
    [finally] of that call, whatever else the manager is asked to do and
    whatever timers, processes and lifecycles do, every call for the pane
    awaits that same promise and starts no creation for the pane.  With an
    alive session and nothing pending the call answers [{isNew: false}]
    with the session's scrollback and recovery flag and starts no
    creation; it creates no process either unless the session's lifecycle
    is [failed], in which case [lifecycle.retry()] runs first. *)
Theorem createOrAttach_deduplicates (m : TerminalManager)
    (params : CreateSessionParams) (now : Z) :
  let pane := params_paneId params in
  (forall promise,
     pendingSessions m !! pane = Some promise ->
     createOrAttach params now m = (m, Await_pending promise)) /\
  (pendingSessions m !! pane = None ->
   (forall r s, get_session pane m = Some (r, s) -> isAlive s = false) ->
   let promise := length (creations m) in
   let m1 := fst (createOrAttach params now m) in
   snd (createOrAttach params now m) = Await_creation promise /\
   creations m1 = creations m ++ [(params, fst <$> get_session pane m)] /\
   pendingSessions m1 !! pane = Some promise /\
   forall es,
     forallb (keeps_pending pane) es = true ->
     let m' := run FALLBACK_SHELL defaultShell SHELL_CRASH_THRESHOLD_MS
                 es m1 in
     pendingSessions m' !! pane = Some promise /\
     started_for pane m'
     = started_for pane m ++ [(params, fst <$> get_session pane m)] /\
     forall params' now',
       params_paneId params' = pane ->
       createOrAttach params' now' m' = (m', Await_pending promise)) /\
  (forall r s,
     pendingSessions m !! pane = None ->
     get_session pane m = Some (r, s) ->
     isAlive s = true ->
     (forall l, lifecycles m !! pane = Some l ->
                Lifecycle.state l <> Lifecycle.failed) ->
     exists m',
       createOrAttach params now m
       = (m', Return_existing
                {| isNew := false; result_scrollback := scrollback s;
                   result_wasRecovered := wasRecovered s |}) /\
       no_creation m m' /\
       processes_created pane m' = processes_created pane m /\
       pty <$> objects m' !! r = Some (pty s)) /\
  (forall r s l,
     pendingSessions m !! pane = None ->
     get_session pane m = Some (r, s) ->
     isAlive s = true ->
     lifecycles m !! pane = Some l ->
     Lifecycle.state l = Lifecycle.failed ->
     exists m',
       createOrAttach params now m = (m', Await_retry r) /\
       no_creation m m' /\
       forall reattached now' m'' s',
         get_session pane m'' = Some (r, s') ->
         snd (createOrAttach_after_retry params r reattached now' m'')
         = {| isNew := false; result_scrollback := scrollback s';
              result_wasRecovered := wasRecovered s' |}).
Proof.
  cbn zeta. split; [apply createOrAttach_pending |].
  split; [| split;
            [apply createOrAttach_alive | apply createOrAttach_failed]].
  intros Hp Hdead.
  destruct (createOrAttach_starts params now m Hp Hdead) as (Hres & Hc & Hps).
  split; [exact Hres |]. split; [exact Hc |].
  assert (Hp1 : pendingSessions (fst (createOrAttach params now m))
                  !! params_paneId params = Some (length (creations m)))
    by (rewrite Hps; apply lookup_insert_eq).
  split; [exact Hp1 |].
  intros es Hes. cbn zeta.
  destruct (run_keeps_pending (params_paneId params) (length (creations m))
              es _ Hes Hp1) as [Hp2 Hc2].
  split; [exact Hp2 |]. split.
  - rewrite Hc2. unfold started_for. rewrite Hc, List.filter_app. cbn.
    unfold for_pane at 2. cbn. now rewrite bool_decide_eq_true_2.
  - intros params' now' Hpane. apply createOrAttach_pending.
    now rewrite Hpane.
Qed.

End Pending.

(** A session for [p1] whose process has exited. *)
Definition dead_manager : TerminalManager :=
  update 0 (set_isAlive false) young_manager.

(** What happens between the first call for [p1] and its [finally]: four
    more calls for the pane, the creation itself, a resize and a write. *)
Definition busy : list Event :=
  [CreateOrAttach params_p1 1; Resize "p1" 120 40 2;
   CreateOrAttach params_p1 3; CreateSession params_p1 4 [] (Some 1);
   Write "p1" (Sanitizer.str "ls") 5; CreateOrAttach params_p1 6;
   CreateOrAttach params_p1 7].

Lemma createOrAttach_deduplicates_witness :
  (snd (createOrAttach params_p1 0 new_TerminalManager) = Await_creation 0 /\
   started_for "p1"
     (run "/bin/sh" "/bin/zsh" 1000 busy
        (fst (createOrAttach params_p1 0 new_TerminalManager)))
   = [(params_p1, None)] /\
   createOrAttach params_p1 9
     (run "/bin/sh" "/bin/zsh" 1000 busy
        (fst (createOrAttach params_p1 0 new_TerminalManager)))
   = (run "/bin/sh" "/bin/zsh" 1000 busy
        (fst (createOrAttach params_p1 0 new_TerminalManager)),
      Await_pending 0)) /\
  (snd (createOrAttach params_p1 200 dead_manager) = Await_creation 0 /\
   creations (fst (createOrAttach params_p1 200 dead_manager))
   = [(params_p1, Some 0)] /\
   createOrAttach params_p1 201 (fst (createOrAttach params_p1 200 dead_manager))
   = (fst (createOrAttach params_p1 200 dead_manager), Await_pending 0)) /\
  exists m',
    createOrAttach params_p1 7 attached_manager
    = (m', Return_existing
             {| isNew := false; result_scrollback := Sanitizer.str "$ ";
                result_wasRecovered := true |}) /\
    processes_created "p1" m' = processes_created "p1" attached_manager.
Proof.
  split; [| split].
  - pose proof (createOrAttach_deduplicates "/bin/sh" "/bin/zsh" 1000
                  new_TerminalManager params_p1 0) as H.
    apply proj2, proj1 in H.
    assert (Hdead : forall r s,
              get_session (params_paneId params_p1) new_TerminalManager
              = Some (r, s) -> isAlive s = false)
      by (intros r s Hs; vm_compute in Hs; discriminate Hs).
    specialize (H eq_refl Hdead).
    split; [exact (proj1 H) |].
    apply proj2, proj2, proj2 in H.
    assert (Hbusy : forallb (keeps_pending (params_paneId params_p1)) busy
                    = true) by reflexivity.
    specialize (H busy Hbusy).
    split; [exact (proj1 (proj2 H)) |].
    exact (proj2 (proj2 H) params_p1 9%Z eq_refl).
  - pose proof (createOrAttach_deduplicates "/bin/sh" "/bin/zsh" 1000
                  dead_manager params_p1 200) as H.
    apply proj2, proj1 in H.
    assert (Hdead : forall r s,
              get_session (params_paneId params_p1) dead_manager
              = Some (r, s) -> isAlive s = false)
      by (intros r s Hs; vm_compute in Hs; injection Hs as <- <-;
          reflexivity).
    specialize (H eq_refl Hdead).
    split; [exact (proj1 H) |].
    split; [exact (proj1 (proj2 H)) |].
    apply proj2, proj2, proj2 in H.
    exact (proj2 (proj2 (H [] eq_refl)) params_p1 201%Z eq_refl).
  - pose proof (createOrAttach_deduplicates "/bin/sh" "/bin/zsh" 1000
                  attached_manager params_p1 7) as H.
    apply proj2, proj2, proj1 in H.
    destruct (H 0 (persistent_session "p1" 1)) as (m' & Hcall & _ & Hproc & _).
    + vm_compute. reflexivity.
    + vm_compute. reflexivity.
    + reflexivity.
    + intros l Hl. vm_compute in Hl. injection Hl as <-. discriminate.
    + exists m'. split; [exact Hcall | exact Hproc].
Defined.

End ManagerDedup.
